(** * mail-classifier: the extraction / normalisation / classification pipeline

    A shallow embedding of [backend/index.js]: the response parser of
    [extractInfoWithGemini], the deadline parser [parseDeadline], the
    classifier [categorizeTask] and the batch loop [processEmails], together
    with the parts of the JavaScript runtime they call ([String.prototype]
    functions, the [Date] object of ECMA-262, the date-fns helpers).

    Conventions.
    - A JavaScript string is a [string]; every [ascii] stands for the code
      unit of the same number (U+0000 to U+00FF).
    - A [Date] holds a time value: an integral number of milliseconds since
      the epoch, or NaN ("Invalid Date").  It is modelled as [option Z], with
      [None] for NaN.  The engine computes on doubles; every result of
      magnitude at most 8.64e15 is an integer below 2^53 and therefore exact,
      and every larger one is turned into NaN by [TimeClip], so integer
      arithmetic followed by [TimeClip] gives the same time values.
    - What the program obtains from outside (the clock, the generative model,
      the host time zone, the date-fns pattern parser, the base64 decoder) is
      collected in the class [Env].  Statements about exact distances in
      time are made for a zone of fixed offset ([fixedOffset]). *)

From Stdlib Require Import ZArith Lia List String Ascii Bool.
Import ListNotations.
Open Scope string_scope.
Open Scope Z_scope.

(* ================================================================= *)
(** ** JavaScript strings *)

Module JSString.

Definition LF : ascii := "010"%char.

Definition charCode (c : ascii) : nat := nat_of_ascii c.

Definition between (lo hi n : nat) : bool := ((lo <=? n) && (n <=? hi))%nat.

(** WhiteSpace and LineTerminator code points below U+0100:
    TAB, LF, VT, FF, CR, SP and NBSP. *)
Definition isWhiteSpace (c : ascii) : bool :=
  let n := charCode c in
  between 9 13 n || (n =? 32)%nat || (n =? 160)%nat.

(** [\d] of a regular expression without the unicode flag. *)
Definition isDigit (c : ascii) : bool := between 48 57 (charCode c).

Definition digitValue (c : ascii) : Z := Z.of_nat (charCode c) - 48.

(** Lower-case mapping of the code points below U+0100: A-Z, and the
    capital letters U+00C0..U+00DE except the multiplication sign. *)
Definition toLowerChar (c : ascii) : ascii :=
  let n := charCode c in
  if between 65 90 n || (between 192 222 n && negb (n =? 215)%nat)
  then ascii_of_nat (n + 32) else c.

Fixpoint toLowerCase (s : string) : string :=
  match s with
  | EmptyString => EmptyString
  | String c s' => String (toLowerChar c) (toLowerCase s')
  end.

Fixpoint trimStart (s : string) : string :=
  match s with
  | EmptyString => EmptyString
  | String c s' => if isWhiteSpace c then trimStart s' else s
  end.

Fixpoint trimEnd (s : string) : string :=
  match s with
  | EmptyString => EmptyString
  | String c s' =>
      match trimEnd s' with
      | EmptyString => if isWhiteSpace c then EmptyString else String c EmptyString
      | t => String c t
      end
  end.

Definition trim (s : string) : string := trimEnd (trimStart s).

(** [s.startsWith(p)]. *)
Fixpoint startsWith (p s : string) : bool :=
  match p, s with
  | EmptyString, _ => true
  | String _ _, EmptyString => false
  | String a p', String b s' => Ascii.eqb a b && startsWith p' s'
  end.

Fixpoint drop (n : nat) (s : string) : string :=
  match n, s with
  | O, _ => s
  | S _, EmptyString => EmptyString
  | S k, String _ s' => drop k s'
  end.

(** [s.includes(p)]. *)
Fixpoint includes (p s : string) : bool :=
  startsWith p s ||
  match s with
  | EmptyString => false
  | String _ s' => includes p s'
  end.

(** [s.replace(p, '')] for a string pattern [p]: the first occurrence of
    [p] is removed, the rest is kept. *)
Fixpoint removeFirst (p s : string) : string :=
  if startsWith p s then drop (String.length p) s
  else match s with
       | EmptyString => EmptyString
       | String c s' => String c (removeFirst p s')
       end.

(** [s.split('\n')]: never empty, [""] splits into [[""]]. *)
Fixpoint splitLines (s : string) : list string :=
  match s with
  | EmptyString => [EmptyString]
  | String c s' =>
      if Ascii.eqb c LF then EmptyString :: splitLines s'
      else match splitLines s' with
           | [] => [String c EmptyString]
           | l :: ls => String c l :: ls
           end
  end.

(** Truthiness of a string, as used by [filter(Boolean)] and [||]. *)
Definition truthy (s : string) : bool :=
  match s with EmptyString => false | _ => true end.

(** [a || b] on strings where [a] may be undefined. *)
Definition orElse (a : option string) (b : string) : string :=
  match a with
  | Some s => if truthy s then s else b
  | None => b
  end.

(** The maximal run of digits at the start of [s], and what follows. *)
Fixpoint spanDigits (s : string) : string * string :=
  match s with
  | EmptyString => (EmptyString, EmptyString)
  | String c s' =>
      if isDigit c then let (ds, r) := spanDigits s' in (String c ds, r)
      else (EmptyString, s)
  end.

Fixpoint allDigits (s : string) : bool :=
  match s with
  | EmptyString => true
  | String c s' => isDigit c && allDigits s'
  end.

Fixpoint digitsValue (acc : Z) (s : string) : Z :=
  match s with
  | EmptyString => acc
  | String c s' => digitsValue (10 * acc + digitValue c) s'
  end.

(** [parseInt(s, 10)] on a string that starts with a digit or with anything
    that is neither white space nor a sign: the value of the leading digits,
    NaN ([None]) when there is none.  The value is the exact one; the engine
    rounds it to a double beyond 2^53 only, where every date computed from
    it lies outside the range of Date. *)
Definition parseInt (s : string) : option Z :=
  let (ds, _) := spanDigits s in
  match ds with
  | EmptyString => None
  | _ => Some (digitsValue 0 ds)
  end.

End JSString.

(* ================================================================= *)
(** ** What the program obtains from outside *)

(** Values thrown: the [RangeError] of [Date.prototype.toISOString] and
    the errors of the generative-model client. *)
Inductive Exception : Type :=
| RangeError (message : string)
| Error (message : string)
| TypeError (message : string).

(** Outcome of [await geminiModel.generateContent(prompt)]: the promise
    rejects, or it resolves to a result whose [response.text()] throws or
    returns the text. *)
Inductive GenerateContentResult : Type :=
| Rejects (e : Exception)
| Resolves (text : Exception + string).

Class Env : Type := {
  (** [LocalTZA(t, isUTC)] of ECMA-262: the offset of the host's local
      time from UTC in milliseconds, at the UTC time [t] when [isUTC] holds
      and at the local time [t] otherwise *)
  LocalTZA : Z -> bool -> Z;
  (** time value computed by date-fns [parse(text, format, reference)],
      [None] when the text does not fit the format *)
  dateFnsParse : string -> string -> Z -> option Z;
  (** [Buffer.from(data, 'base64').toString('utf-8')] *)
  base64ToUtf8 : string -> string;
  (** the n-th reading of the system clock made by [new Date()] *)
  clock : nat -> Z;
  (** the outcome of the n-th call of the model, for the prompt sent *)
  generateContent : nat -> string -> GenerateContentResult
}.

(* ================================================================= *)
(** ** The Date object (ECMA-262, "Date Objects") *)

Module ESDate.

Definition msPerSecond : Z := 1000.
Definition msPerMinute : Z := 60000.
Definition msPerHour : Z := 3600000.
Definition msPerDay : Z := 86400000.
Definition maxTime : Z := 8640000000000000.

Definition Date : Type := option Z.

Definition Day (t : Z) : Z := t / msPerDay.
Definition TimeWithinDay (t : Z) : Z := t mod msPerDay.
Definition HourFromTime (t : Z) : Z := (t / msPerHour) mod 24.
Definition MinFromTime (t : Z) : Z := (t / msPerMinute) mod 60.
Definition SecFromTime (t : Z) : Z := (t / msPerSecond) mod 60.
Definition msFromTime (t : Z) : Z := t mod msPerSecond.

Definition InLeapYear (y : Z) : bool :=
  (y mod 4 =? 0) && (negb (y mod 100 =? 0) || (y mod 400 =? 0)).

Definition DayFromYear (y : Z) : Z :=
  365 * (y - 1970) + (y - 1969) / 4 - (y - 1901) / 100 + (y - 1601) / 400.

(** Number of days of the year before month [m] (0 = January). *)
Definition monthStart (leap : bool) (m : Z) : Z :=
  nth (Z.to_nat m) [0; 31; 59; 90; 120; 151; 181; 212; 243; 273; 304; 334] 0
  + (if leap && (2 <=? m) then 1 else 0).

Definition DaysInMonth (leap : bool) (m : Z) : Z :=
  if (m =? 1) then (if leap then 29 else 28)
  else nth (Z.to_nat m) [31; 28; 31; 30; 31; 30; 31; 31; 30; 31; 30; 31] 0.

Definition DayWithinYear (year day : Z) : Z := day - DayFromYear year.

(** The year of a day number: the largest [y] with [DayFromYear y <= day].
    The quotient by the mean length of a year is at most one year off. *)
Definition yearOfDay (day : Z) : Z :=
  let y := 1970 + (day * 400) / 146097 in
  if DayFromYear (y + 1) <=? day then y + 1
  else if DayFromYear y <=? day then y
  else y - 1.

(** The month (0 = January) of the [d]-th day of a year. *)
Definition monthOfYearDay (leap : bool) (d : Z) : Z :=
  if d <? monthStart leap 1 then 0
  else if d <? monthStart leap 2 then 1
  else if d <? monthStart leap 3 then 2
  else if d <? monthStart leap 4 then 3
  else if d <? monthStart leap 5 then 4
  else if d <? monthStart leap 6 then 5
  else if d <? monthStart leap 7 then 6
  else if d <? monthStart leap 8 then 7
  else if d <? monthStart leap 9 then 8
  else if d <? monthStart leap 10 then 9
  else if d <? monthStart leap 11 then 10
  else 11.

Definition YearFromTime (t : Z) : Z := yearOfDay (Day t).

Definition MonthFromTime (t : Z) : Z :=
  let y := YearFromTime t in
  monthOfYearDay (InLeapYear y) (DayWithinYear y (Day t)).

Definition DateFromTime (t : Z) : Z :=
  let y := YearFromTime t in
  DayWithinYear y (Day t) - monthStart (InLeapYear y) (MonthFromTime t) + 1.

Definition MakeTime (hour min sec ms : Z) : Z :=
  hour * msPerHour + min * msPerMinute + sec * msPerSecond + ms.

Definition MakeDay (year month date : Z) : Z :=
  let ym := year + month / 12 in
  let mn := month mod 12 in
  DayFromYear ym + monthStart (InLeapYear ym) mn + date - 1.

Definition MakeDate (day time : Z) : Z := day * msPerDay + time.

Definition MakeFullYear (year : Z) : Z :=
  if (0 <=? year) && (year <=? 99) then 1900 + year else year.

Definition TimeClip (time : Z) : Date :=
  if Z.abs time <=? maxTime then Some time else None.

Section Local.
Context `{Env}.

Definition LocalTime (t : Z) : Z := t + LocalTZA t true.
Definition UTC (t : Z) : Z := t - LocalTZA t false.

(** The getters, on a valid time value. *)
Definition getFullYear (tv : Z) : Z := YearFromTime (LocalTime tv).
Definition getMonth (tv : Z) : Z := MonthFromTime (LocalTime tv).
Definition getDate (tv : Z) : Z := DateFromTime (LocalTime tv).

(** [new Date(year, month, date, hours, minutes, seconds)]. *)
Definition newDateOfFields (year month date hours minutes seconds : Z) : Date :=
  TimeClip (UTC (MakeDate (MakeDay (MakeFullYear year) month date)
                          (MakeTime hours minutes seconds 0))).

(** [d.setDate(dt)] on a valid time value; the new value of [d]. *)
Definition setDate (tv dt : Z) : Date :=
  let t := LocalTime tv in
  TimeClip (UTC (MakeDate (MakeDay (YearFromTime t) (MonthFromTime t) dt)
                          (TimeWithinDay t))).

(** [d.setHours(hours, minutes, seconds)] on a valid time value: the
    milliseconds are kept. *)
Definition setHours (tv hours minutes seconds : Z) : Date :=
  let t := LocalTime tv in
  TimeClip (UTC (MakeDate (Day t) (MakeTime hours minutes seconds (msFromTime t)))).

End Local.

(** *** [Date.prototype.toISOString] *)

Definition digitChar (d : Z) : ascii := ascii_of_nat (48 + Z.to_nat d).

(** The last [w] decimal digits of [n]. *)
Fixpoint padDigits (w : nat) (n : Z) : string :=
  match w with
  | O => EmptyString
  | S k => padDigits k (n / 10) ++ String (digitChar (n mod 10)) EmptyString
  end.

Definition yearString (y : Z) : string :=
  if (0 <=? y) && (y <=? 9999) then padDigits 4 y
  else if y <? 0 then "-" ++ padDigits 6 (- y)
  else "+" ++ padDigits 6 y.

Definition isoString (t : Z) : string :=
  yearString (YearFromTime t) ++ "-" ++ padDigits 2 (MonthFromTime t + 1)
  ++ "-" ++ padDigits 2 (DateFromTime t)
  ++ "T" ++ padDigits 2 (HourFromTime t)
  ++ ":" ++ padDigits 2 (MinFromTime t)
  ++ ":" ++ padDigits 2 (SecFromTime t)
  ++ "." ++ padDigits 3 (msFromTime t) ++ "Z".

(** The method throws a [RangeError] on an Invalid Date. *)
Definition toISOString (d : Date) : Exception + string :=
  match d with
  | None => inl (RangeError "Invalid time value")
  | Some t => inr (isoString t)
  end.

(** *** Reading the interchange format back

    The backend only writes the deadline of a task; the string is read by
    whoever receives the tasks.  The reader below is the one of [Date.parse]
    for the complete form of the ECMA-262 date-time string format,
    [YYYY-MM-DDTHH:mm:ss.sssZ] with a four-digit year or a signed six-digit
    one.  Element values out of bounds make the string illegal, and so does
    the year [-000000]. *)

Fixpoint takeDigits (w : nat) (acc : Z) (s : string) : option (Z * string) :=
  match w with
  | O => Some (acc, s)
  | S k =>
      match s with
      | EmptyString => None
      | String c s' =>
          if JSString.isDigit c
          then takeDigits k (10 * acc + JSString.digitValue c) s'
          else None
      end
  end.

Definition expect (c : ascii) (s : string) : option string :=
  match s with
  | EmptyString => None
  | String a s' => if Ascii.eqb a c then Some s' else None
  end.

Notation "'let?' x ':=' e 'in' k" :=
  (match e with Some x => k | None => None end)
  (at level 10, x pattern, e at level 200, k at level 200).

Definition takeYear (s : string) : option (Z * string) :=
  match s with
  | EmptyString => None
  | String c s' =>
      if Ascii.eqb c "+" then takeDigits 6 0 s'
      else if Ascii.eqb c "-" then
        let? (y, r) := takeDigits 6 0 s' in
        if y =? 0 then None else Some (- y, r)
      else takeDigits 4 0 s
  end.

Definition validTimeOfDay (h mi sec ms : Z) : bool :=
  ((h <=? 23) && (mi <=? 59) && (sec <=? 59))
  || ((h =? 24) && (mi =? 0) && (sec =? 0) && (ms =? 0)).

(** Modelled from the spec: the reader of the "ISO-8601 absolute timestamp
    string" in which a task carries its deadline (the parsing back of the
    round trip), which the backend does not contain. *)
Definition parse (s : string) : Date :=
  let? (y, s) := takeYear s in
  let? s := expect "-" s in
  let? (mo, s) := takeDigits 2 0 s in
  let? s := expect "-" s in
  let? (d, s) := takeDigits 2 0 s in
  let? s := expect "T" s in
  let? (h, s) := takeDigits 2 0 s in
  let? s := expect ":" s in
  let? (mi, s) := takeDigits 2 0 s in
  let? s := expect ":" s in
  let? (sec, s) := takeDigits 2 0 s in
  let? s := expect "." s in
  let? (ms, s) := takeDigits 3 0 s in
  let? s := expect "Z" s in
  match s with
  | EmptyString =>
      if (1 <=? mo) && (mo <=? 12) && (1 <=? d)
         && (d <=? DaysInMonth (InLeapYear y) (mo - 1))
         && validTimeOfDay h mi sec ms
      then TimeClip (MakeDate (MakeDay y (mo - 1) d) (MakeTime h mi sec ms))
      else None
  | _ => None
  end.

End ESDate.

(* ================================================================= *)
(** ** date-fns *)

Module DateFns.
Import ESDate.

Definition isValid (d : Date) : bool :=
  match d with Some _ => true | None => false end.

(** [addMilliseconds(date, amount)] is [new Date(+date + amount)]. *)
Definition addMilliseconds (d : Date) (amount : option Z) : Date :=
  match d, amount with
  | Some tv, Some a => TimeClip (tv + a)
  | _, _ => None
  end.

Definition addHours (d : Date) (amount : option Z) : Date :=
  addMilliseconds d (option_map (fun a => a * msPerHour) amount).

(** [differenceInHours(left, right)]: the difference in milliseconds over
    the length of an hour, rounded towards zero; NaN on an Invalid Date.
    The quotient of the engine is a double; it is exact wherever it is below
    2^30, so its comparisons with 24 and 72 are those of the exact value. *)
Definition differenceInHours (dateLeft dateRight : Date) : option Z :=
  match dateLeft, dateRight with
  | Some l, Some r => Some (Z.quot (l - r) msPerHour)
  | _, _ => None
  end.

Section Local.
Context `{Env}.

(** [addDays(date, amount)]: the date itself when the amount is zero,
    otherwise [date.setDate(date.getDate() + amount)]. *)
Definition addDays (d : Date) (amount : Z) : Date :=
  match d with
  | None => None
  | Some tv => if amount =? 0 then Some tv else setDate tv (getDate tv + amount)
  end.

(** [parse(text, format, reference)] returns a Date object. *)
Definition parse (text format : string) (reference : Z) : Date :=
  match dateFnsParse text format reference with
  | Some t => TimeClip t
  | None => None
  end.

End Local.
End DateFns.

(* ================================================================= *)
(** ** Data *)

(** A message resource as [gmail.users.messages.get] returns it with
    [format: 'full']. *)
Module Gmail.
Record Header : Type := { name : string; value : string }.
Record Body : Type := { data : option string }.
(** [partBody] is the [body] of a part, [None] when the part has none. *)
Record Part : Type := { mimeType : string; partBody : option Body }.
Record Payload : Type := {
  headers : option (list Header);
  parts : option (list Part);
  body : option Body
}.
Record Email : Type := { payload : Payload }.
End Gmail.

(** The object returned by [extractInfoWithGemini]. *)
Module Extracted.
Record t : Type := make {
  eventType : string;
  subject : string;
  deadline : string;
  urgency : string;
  importance : string;
  score : string;
  registrationLink : string;
  summary : string
}.
End Extracted.

(** The three strings returned by [categorizeTask] (a coloured circle
    followed by the word). *)
Inductive Priority : Type := Urgent | Important | Later.

(** The object pushed by [processEmails]. *)
Module Task.
Record t : Type := make {
  eventType : string;
  subject : string;
  deadline : string;
  urgency : string;
  importance : string;
  score : string;
  priority : Priority;
  registrationLink : string;
  summary : string
}.
End Task.

(* ================================================================= *)
(** ** Effects: the clock, the model, exceptions *)

Record World : Type := {
  ticks : nat;  (** readings of the clock made so far *)
  calls : nat   (** calls of the model made so far *)
}.

Inductive Completion (A : Type) : Type :=
| Normal (a : A)
| Throw (e : Exception).
Arguments Normal {A} a.
Arguments Throw {A} e.

Definition M (A : Type) : Type := World -> Completion A * World.

Definition ret {A} (a : A) : M A := fun w => (Normal a, w).

Definition throw {A} (e : Exception) : M A := fun w => (Throw e, w).

Definition bind {A B} (m : M A) (k : A -> M B) : M B :=
  fun w =>
    match m w with
    | (Normal a, w') => k a w'
    | (Throw e, w') => (Throw e, w')
    end.

(** [try { m } catch (error) { handler }]. *)
Definition tryCatch {A} (m : M A) (handler : Exception -> M A) : M A :=
  fun w =>
    match m w with
    | (Normal a, w') => (Normal a, w')
    | (Throw e, w') => handler e w'
    end.

Definition ofResult {A} (r : Exception + A) : M A :=
  match r with
  | inl e => throw e
  | inr a => ret a
  end.

Notation "'do' x <- e ;; k" := (bind e (fun x => k))
  (at level 10, x name, e at level 200, k at level 200).

Section Backend.
Context `{Env}.
Import JSString ESDate DateFns.

(** [new Date()]. *)
Definition newDate : M Z :=
  fun w => (Normal (clock (ticks w)),
            {| ticks := S (ticks w); calls := calls w |}).

(** [await geminiModel.generateContent(prompt)]. *)
Definition geminiGenerateContent (prompt : string) : M (Exception + string) :=
  fun w =>
    let w' := {| ticks := ticks w; calls := S (calls w) |} in
    match generateContent (calls w) prompt with
    | Rejects e => (Throw e, w')
    | Resolves result => (Normal result, w')
    end.

(* ----------------------------------------------------------------- *)
(** *** extractInfoWithGemini *)

Definition nl : string := String LF EmptyString.
Definition dq : string := String "034"%char EmptyString.

Definition prompt (emailContent : string) : string :=
  nl ++ "    Analyze the email content and extract task details for classification into "
  ++ dq ++ "Urgent," ++ dq ++ " " ++ dq ++ "Important," ++ dq ++ " or "
  ++ dq ++ "Later" ++ dq ++ ". Use today's date: 14/06/2025." ++ nl
  ++ nl
  ++ "    Return this format:" ++ nl
  ++ "    Event Type: <type>" ++ nl
  ++ "    Subject: <subject>" ++ nl
  ++ "    Deadline: <deadline>" ++ nl
  ++ "    Urgency: <high/medium/low>" ++ nl
  ++ "    Importance: <high/medium/low>" ++ nl
  ++ "    Score: <score>" ++ nl
  ++ "    Registration Link: <link>" ++ nl
  ++ "    Summary: <summary>" ++ nl
  ++ nl
  ++ "    Email: " ++ dq ++ emailContent ++ dq ++ nl
  ++ "  ".

(** [lines[i]?.replace(label, '') || fallback]. *)
Definition field (lines : list string) (i : nat) (label fallback : string) : string :=
  orElse (option_map (removeFirst label) (nth_error lines i)) fallback.

Definition extractInfoWithGemini (emailContent subject : string) : M Extracted.t :=
  tryCatch
    (do result <- geminiGenerateContent (prompt emailContent) ;;
     do text <- ofResult result ;;
     let lines := filter truthy (splitLines text) in
     ret {| Extracted.eventType := field lines 0 "Event Type: " "Email";
            Extracted.subject := field lines 1 "Subject: " subject;
            Extracted.deadline := field lines 2 "Deadline: " "none";
            Extracted.urgency := field lines 3 "Urgency: " "low";
            Extracted.importance := field lines 4 "Importance: " "low";
            Extracted.score := field lines 5 "Score: " "none";
            Extracted.registrationLink := field lines 6 "Registration Link: " "none";
            Extracted.summary := field lines 7 "Summary: " "No summary." |})
    (fun error =>
     ret {| Extracted.eventType := "Email";
            Extracted.subject := subject;
            Extracted.deadline := "none";
            Extracted.urgency := "low";
            Extracted.importance := "low";
            Extracted.score := "none";
            Extracted.registrationLink := "none";
            Extracted.summary := "Could not extract information." |}).

(* ----------------------------------------------------------------- *)
(** *** parseDeadline *)

(** An attempt of [/within (\d+) hours/] at the start of [s]: the digits
    captured.  The digits taken are the maximal run; a shorter run would be
    followed by a digit, not by the space the pattern asks for. *)
Definition matchWithinHoursHere (s : string) : option string :=
  if startsWith "within " s then
    let (ds, r) := spanDigits (drop 7 s) in
    if truthy ds && startsWith " hours" r then Some ds else None
  else None.

(** [s.match(/within (\d+) hours/)]: group 1 of the leftmost match. *)
Fixpoint matchWithinHours (s : string) : option string :=
  match matchWithinHoursHere s with
  | Some ds => Some ds
  | None =>
      match s with
      | EmptyString => None
      | String _ s' => matchWithinHours s'
      end
  end.

Definition formats : list string :=
  ["dd/MM/yyyy HH:mm"; "dd/MM/yyyy"; "yyyy-MM-dd"; "MMMM d, yyyy"; "dd MMM yyyy"].

(** The loop over the formats: [Some d] when the loop returns [d], [None]
    when it runs to its end. *)
Fixpoint tryFormats (deadlineStr : string) (now : Z) (fmts : list string)
  : option Date :=
  match fmts with
  | [] => None
  | fmt :: rest =>
      match parse deadlineStr fmt now with
      | Some tv =>
          if negb (includes "HH:mm" fmt)
          then Some (setHours tv 23 59 59)
          else Some (Some tv)
      | None => tryFormats deadlineStr now rest
      end
  end.

(** The body of [parseDeadline] after [const now = new Date()]. *)
Definition parseDeadlineAt (now : Z) (deadlineStr : string) : Date :=
  let deadlineStr := trim (toLowerCase deadlineStr) in
  if (deadlineStr =? "today")%string then
    newDateOfFields (getFullYear now) (getMonth now) (getDate now) 23 59 59
  else if (deadlineStr =? "tomorrow")%string then addDays (Some now) 1
  else if (deadlineStr =? "day after tomorrow")%string then addDays (Some now) 2
  else if (deadlineStr =? "none")%string then addDays (Some now) 7
  else
    match matchWithinHours deadlineStr with
    | Some digits => addHours (Some now) (parseInt digits)
    | None =>
        match tryFormats deadlineStr now formats with
        | Some d => d
        | None => addDays (Some now) 7
        end
    end.

Definition parseDeadline (deadlineStr : string) : M Date :=
  do now <- newDate ;;
  ret (parseDeadlineAt now deadlineStr).

(* ----------------------------------------------------------------- *)
(** *** categorizeTask *)

(** [x <= k] on numbers: false when [x] is NaN. *)
Definition leNumber (x : option Z) (k : Z) : bool :=
  match x with
  | Some v => v <=? k
  | None => false
  end.

(** The body of [categorizeTask] after [const now = new Date()]. *)
Definition categorizeTaskAt (now : Z) (extracted : Extracted.t) (deadline : Date)
  : Priority :=
  let hoursLeft := differenceInHours deadline (Some now) in
  let isUrgent := leNumber hoursLeft 24 || (Extracted.urgency extracted =? "high")%string in
  let isImportant :=
    leNumber hoursLeft 72 || (Extracted.importance extracted =? "high")%string in
  if isUrgent then Urgent
  else if isImportant then Important
  else Later.

Definition categorizeTask (extracted : Extracted.t) (deadline : Date) : M Priority :=
  do now <- newDate ;;
  ret (categorizeTaskAt now extracted deadline).

(* ----------------------------------------------------------------- *)
(** *** processEmails *)

Definition subjectOf (email : Gmail.Email) : string :=
  let headers :=
    match Gmail.headers (Gmail.payload email) with
    | Some hs => hs
    | None => []
    end in
  orElse (option_map Gmail.value
            (find (fun h => (Gmail.name h =? "Subject")%string) headers))
         "No Subject".

Definition dataOf (b : Gmail.Body) : option string :=
  match Gmail.data b with
  | Some d => if truthy d then Some d else None
  | None => None
  end.

(** The loop over the parts, starting from [body = ''].  The test
    [part.mimeType === 'text/plain' && part.body.data] reads [part.body]
    only for a part of type text/plain, and reading [data] of an undefined
    [part.body] throws a TypeError. *)
Fixpoint firstPlainText (parts : list Gmail.Part) : Exception + string :=
  match parts with
  | [] => inr EmptyString
  | part :: rest =>
      if (Gmail.mimeType part =? "text/plain")%string then
        match Gmail.partBody part with
        | None =>
            inl (TypeError "Cannot read properties of undefined (reading 'data')")
        | Some b =>
            match dataOf b with
            | Some d => inr (base64ToUtf8 d)
            | None => firstPlainText rest
            end
        end
      else firstPlainText rest
  end.

(** The content of a message; [email.payload.body?.data] does not throw. *)
Definition bodyOf (email : Gmail.Email) : Exception + string :=
  match Gmail.parts (Gmail.payload email) with
  | Some parts => firstPlainText parts
  | None =>
      match Gmail.body (Gmail.payload email) with
      | Some b =>
          match dataOf b with
          | Some d => inr (base64ToUtf8 d)
          | None => inr EmptyString
          end
      | None => inr EmptyString
      end
  end.

(** One iteration of the loop: the task pushed for [email]. *)
Definition processEmail (email : Gmail.Email) : M Task.t :=
  let subject := subjectOf email in
  do body <- ofResult (bodyOf email) ;;
  do extracted <- extractInfoWithGemini body subject ;;
  do deadline <- parseDeadline (Extracted.deadline extracted) ;;
  do priority <- categorizeTask extracted deadline ;;
  do iso <- ofResult (toISOString deadline) ;;
  ret {| Task.eventType := Extracted.eventType extracted;
         Task.subject := Extracted.subject extracted;
         Task.deadline := iso;
         Task.urgency := Extracted.urgency extracted;
         Task.importance := Extracted.importance extracted;
         Task.score := Extracted.score extracted;
         Task.priority := priority;
         Task.registrationLink := Extracted.registrationLink extracted;
         Task.summary := Extracted.summary extracted |}.

(** The loop, with the array [tasks] built so far. *)
Fixpoint processEmailsFrom (tasks : list Task.t) (emails : list Gmail.Email)
  : M (list Task.t) :=
  match emails with
  | [] => ret tasks
  | email :: rest =>
      do task <- processEmail email ;;
      processEmailsFrom (tasks ++ [task]) rest
  end.

Definition processEmails (emails : list Gmail.Email) : M (list Task.t) :=
  processEmailsFrom [] emails.

End Backend.

(* ================================================================= *)
(** ** The rest of the server: start-up, the token, the endpoints *)

(** *** The check of the environment variables at start-up *)

Definition requiredEnvVars : list string :=
  ["CLIENT_ID"; "CLIENT_SECRET"; "REDIRECT_URI"; "GEMINI_API_KEY"].

(** [requiredEnvVars.filter(varName => !process.env[varName])], for
    [process.env] given as a lookup. *)
Definition missingVars (env : string -> option string) : list string :=
  filter (fun varName =>
            negb (match env varName with
                  | Some v => JSString.truthy v
                  | None => false
                  end))
         requiredEnvVars.

(** The outcome of the check: [Some message] when the process logs
    [message] and exits with code 1, [None] when it goes on. *)
Definition checkEnvironment (env : string -> option string) : option string :=
  match missingVars env with
  | [] => None
  | missing =>
      Some ("Missing required environment variables: " ++ String.concat ", " missing)
  end.

(** *** Google's services *)

(** The [tokens] object of [oAuth2Client.getToken]: an object, hence
    truthy whatever it holds. *)
Record Token : Type := { access_token : string }.

(** The requests made through the googleapis client.  Each outcome may
    depend on the number of requests made before, on the credentials the
    client holds and on the arguments. *)
Class Google : Type := {
  (** [await oAuth2Client.getToken(code)]: rejects, or resolves with the
      tokens *)
  getToken : nat -> string -> Exception + Token;
  (** [await gmail.users.messages.list({userId: 'me', q, maxResults: 500})]:
      rejects, or resolves with [res.data.messages], which is undefined
      ([None]) or the list of the messages, given here by their ids *)
  messagesList : nat -> option Token -> string -> Exception + option (list string);
  (** [await gmail.users.messages.get({userId: 'me', id, format: 'full'})]:
      rejects, or resolves with [email.data] *)
  messagesGet : nat -> option Token -> string -> Exception + Gmail.Email
}.

(** *** The state of the server and the responses *)

Record Server : Type := {
  tokenStorage : option Token;  (** the variable [tokenStorage], [null] at first *)
  credentials : option Token;   (** the credentials held by [oAuth2Client] *)
  requests : nat;               (** requests made to Google so far *)
  world : World                 (** the clock and the model *)
}.

Inductive ResponseBody : Type :=
| Text (text : string)                (** [res.send(text)] *)
| ErrorJson (error : string)          (** [res.json({ error })] *)
| TasksJson (tasks : list Task.t).    (** [res.json(tasks)] *)

Record Response : Type := { status : nat; body : ResponseBody }.

(** A handler runs from the state it finds to its response; the requests
    are taken one at a time, none is served between two awaits of
    another. *)
Definition Handler (A : Type) : Type := Server -> Completion A * Server.

Definition retH {A} (a : A) : Handler A := fun s => (Normal a, s).

Definition throwH {A} (e : Exception) : Handler A := fun s => (Throw e, s).

Definition bindH {A B} (m : Handler A) (k : A -> Handler B) : Handler B :=
  fun s =>
    match m s with
    | (Normal a, s') => k a s'
    | (Throw e, s') => (Throw e, s')
    end.

Definition tryCatchH {A} (m : Handler A) (handler : Exception -> Handler A)
  : Handler A :=
  fun s =>
    match m s with
    | (Normal a, s') => (Normal a, s')
    | (Throw e, s') => handler e s'
    end.

(** A computation on the clock and the model, run inside the server. *)
Definition liftWorld {A} (m : M A) : Handler A :=
  fun s =>
    let (c, w') := m (world s) in
    (c, {| tokenStorage := tokenStorage s; credentials := credentials s;
           requests := requests s; world := w' |}).

Notation "'step' x <- e ;; k" := (bindH e (fun x => k))
  (at level 10, x name, e at level 200, k at level 200).

(** *** Numbers in template literals *)

Fixpoint dropLeadingZeros (s : string) : string :=
  match s with
  | String c (String _ _ as rest) =>
      if Ascii.eqb c "0" then dropLeadingZeros rest else s
  | _ => s
  end.

(** The decimal digits of a natural number below 10^21, the numbers that
    JavaScript prints without an exponent. *)
Definition decimal (n : Z) : string := dropLeadingZeros (ESDate.padDigits 21 n).

(** [`${x}`] for a number [x] that is an integer or NaN. *)
Definition numberToString (x : option Z) : string :=
  match x with
  | None => "NaN"
  | Some n => if n <? 0 then "-" ++ decimal (- n) else decimal n
  end.

Section Endpoints.
Context {E : Env} {G : Google}.
Import JSString ESDate.

Definition saveToken (token : Token) : Handler unit :=
  fun s => (Normal tt,
            {| tokenStorage := Some token; credentials := credentials s;
               requests := requests s; world := world s |}).

Definition loadToken : Handler (option Token) :=
  fun s => (Normal (tokenStorage s), s).

(** [oAuth2Client.setCredentials(token)]. *)
Definition setCredentials (token : Token) : Handler unit :=
  fun s => (Normal tt,
            {| tokenStorage := tokenStorage s; credentials := Some token;
               requests := requests s; world := world s |}).

(** A request to Google: its outcome, and one more request made. *)
Definition request {A} (outcome : nat -> option Token -> Exception + A) : Handler A :=
  fun s =>
    let s' := {| tokenStorage := tokenStorage s; credentials := credentials s;
                 requests := S (requests s); world := world s |} in
    match outcome (requests s) (credentials s) with
    | inl e => (Throw e, s')
    | inr a => (Normal a, s')
    end.

(** The loop of [fetchRecentEmails] over the messages, with the array
    [emails] built so far. *)
Fixpoint getMessages (emails : list Gmail.Email) (messages : list string)
  : Handler (list Gmail.Email) :=
  match messages with
  | [] => retH emails
  | id :: rest =>
      step email <- request (fun n c => messagesGet n c id) ;;
      getMessages (emails ++ [email]) rest
  end.

(** The query of [fetchRecentEmails] for the reading [now] of [Date.now()].
    The quotient by 1000 is below 2^43, where a double is less than 0.001
    away from any value: its floor is the exact one. *)
Definition recentQuery (now : Z) : string :=
  let afterDate := TimeClip (now - 7 * 24 * 60 * 60 * 1000) in
  "after:" ++ numberToString (option_map (fun t => t / 1000) afterDate).

(** [Date.now()] reads the clock as [new Date()] does. *)
Definition fetchRecentEmails : Handler (list Gmail.Email) :=
  step now <- liftWorld newDate ;;
  let query := recentQuery now in
  tryCatchH
    (step res <- request (fun n c => messagesList n c query) ;;
     let messages := match res with Some ms => ms | None => [] end in
     getMessages [] messages)
    (fun error => throwH error).

(** [GET /auth/callback], for [req.query.code] undefined ([None]) or a
    string. *)
Definition authCallback (code : option string) : Handler Response :=
  match (match code with
         | Some c => if truthy c then Some c else None
         | None => None
         end) with
  | None => retH {| status := 400; body := Text "Missing authorization code" |}
  | Some c =>
      tryCatchH
        (step tokens <- request (fun n _ => getToken n c) ;;
         step _ <- setCredentials tokens ;;
         step _ <- saveToken tokens ;;
         retH {| status := 200;
                 body := Text "Authentication successful! You can close this tab." |})
        (fun error =>
         retH {| status := 500; body := Text "Authentication failed." |})
  end.

(** [GET /tasks]. *)
Definition getTasks : Handler Response :=
  step token <- loadToken ;;
  match token with
  | None => retH {| status := 401; body := ErrorJson "Not authenticated" |}
  | Some token =>
      step _ <- setCredentials token ;;
      tryCatchH
        (step emails <- fetchRecentEmails ;;
         step tasks <- liftWorld (processEmails emails) ;;
         retH {| status := 200; body := TasksJson tasks |})
        (fun error =>
         retH {| status := 500; body := ErrorJson "Failed to fetch tasks" |})
  end.

End Endpoints.

(* ================================================================= *)
(** ** Concrete environments, for running the program *)

Module Sample.
Import JSString ESDate.

(** A pattern parser that knows the format [yyyy-MM-dd] only: midnight,
    local time, of the day written. *)
Definition dayParser (tza : Z) (text format : string) (reference : Z) : option Z :=
  if (format =? "yyyy-MM-dd")%string then
    let? (y, s) := takeDigits 4 0 text in
    let? s := expect "-" s in
    let? (mo, s) := takeDigits 2 0 s in
    let? s := expect "-" s in
    let? (d, s) := takeDigits 2 0 s in
    match s with
    | EmptyString =>
        if (1 <=? mo) && (mo <=? 12) && (1 <=? d)
           && (d <=? DaysInMonth (InLeapYear y) (mo - 1))
        then Some (MakeDate (MakeDay y (mo - 1) d) 0 - tza)
        else None
    | _ => None
    end
  else None.

(** An environment in a zone always [tza] milliseconds from UTC, with the clock
    [readings] and a model that gives the scripted [answers] in turn and
    rejects every further call. *)
Definition scripted (tza : Z) (readings : nat -> Z)
    (answers : list GenerateContentResult) : Env :=
  {| LocalTZA := fun _ _ => tza;
     dateFnsParse := dayParser tza;
     base64ToUtf8 := fun data => data;
     clock := readings;
     generateContent := fun n _ =>
       nth n answers (Rejects (Error "fetch failed")) |}.

(** 14 June 2025, 12:00:00.000 UTC. *)
Definition noon : Z := 1749902400000.

Definition world0 : World := {| ticks := 0; calls := 0 |}.

(** A message with a subject header and a single undivided body. *)
Definition plainEmail (subject data : string) : Gmail.Email :=
  {| Gmail.payload :=
       {| Gmail.headers := Some [ {| Gmail.name := "Subject"; Gmail.value := subject |} ];
          Gmail.parts := None;
          Gmail.body := Some {| Gmail.data := Some data |} |} |}.

(** A response of the model: the lines joined by line feeds. *)
Definition answer (lines : list string) : GenerateContentResult :=
  Resolves (inr (String.concat (String LF EmptyString) lines)).

(** A frozen clock and a model that is out of service. *)
Definition outOfService : Env := scripted 0 (fun _ => noon) [].

(** Indian Standard Time, a frozen clock, no model. *)
Definition kolkata : Env := scripted 19800000 (fun _ => noon) [].

(** The model answers with a refusal instead of the format. *)
Definition refusing : Env :=
  scripted 0 (fun _ => noon) [answer ["Sorry, I cannot help with that."]].

(** The model answers with the first three lines only. *)
Definition threeLines : Env :=
  scripted 0 (fun _ => noon)
    [answer ["Event Type: Hackathon"; "Subject: "; "Deadline: tomorrow"]].

(** The model answers with the lines in another order. *)
Definition reordered : Env :=
  scripted 0 (fun _ => noon)
    [answer ["Subject: Quarterly review"; "Event Type: Meeting";
             "Deadline: tomorrow"; "Summary: Bring the figures.";
             "Registration Link: none"; "Score: 5"; "Urgency: high";
             "Importance: high"]].

(** The model doubles a label, leaves a line empty after its label, puts
    a label in the middle of a line, puts another field on the line of the
    importance and stops after six lines. *)
Definition misplaced : Env :=
  scripted 0 (fun _ => noon)
    [answer ["Event Type: Event Type: Meeting"; "Subject: ";
             "Deadline: tomorrow"; "Very Urgency: high";
             "Summary: Bring the figures."; "Score: 5"]].

(** The clock advances by a millisecond from one reading to the next; the
    model gives a deadline in 25 hours. *)
Definition ticking : Env :=
  scripted 0 (fun n => noon + Z.of_nat n)
    [answer ["Event Type: Call"; "Subject: Call the bank";
             "Deadline: within 25 hours"; "Urgency: low"; "Importance: low";
             "Score: 3"; "Registration Link: none"; "Summary: Call them."]].

(** Three emails; for the second the model gives a deadline in
    99999999999 hours. *)
Definition farDeadline : Env :=
  scripted 0 (fun n => noon + Z.of_nat n)
    [answer ["Event Type: Call"; "Subject: Call the bank";
             "Deadline: tomorrow"; "Urgency: low"; "Importance: low";
             "Score: 3"; "Registration Link: none"; "Summary: Call them."];
     answer ["Event Type: Offer"; "Subject: Lifetime offer";
             "Deadline: within 99999999999 hours"; "Urgency: low";
             "Importance: low"; "Score: 1"; "Registration Link: none";
             "Summary: An offer."];
     answer ["Event Type: Exam"; "Subject: Exam"; "Deadline: today";
             "Urgency: high"; "Importance: high"; "Score: 9";
             "Registration Link: none"; "Summary: The exam."]].

Definition threeEmails : list Gmail.Email :=
  [plainEmail "Call the bank" "Q2FsbA=="; plainEmail "Lifetime offer" "T2ZmZXI=";
   plainEmail "Exam" "RXhhbQ=="].

Definition bankEmail : Gmail.Email := plainEmail "Call the bank" "Q2FsbA==".

(** The extraction and the task of [bankEmail] under [ticking]. *)
Definition bankExtraction : Extracted.t :=
  {| Extracted.eventType := "Call";
     Extracted.subject := "Call the bank";
     Extracted.deadline := "within 25 hours";
     Extracted.urgency := "low";
     Extracted.importance := "low";
     Extracted.score := "3";
     Extracted.registrationLink := "none";
     Extracted.summary := "Call them." |}.

Definition bankTask : Task.t :=
  {| Task.eventType := "Call";
     Task.subject := "Call the bank";
     Task.deadline := "2025-06-15T13:00:00.000Z";
     Task.urgency := "low";
     Task.importance := "low";
     Task.score := "3";
     Task.priority := Urgent;
     Task.registrationLink := "none";
     Task.summary := "Call them." |}.

(** An extraction of low urgency and high importance. *)
Definition flagged : Extracted.t :=
  {| Extracted.eventType := "Exam";
     Extracted.subject := "Exam";
     Extracted.deadline := "today";
     Extracted.urgency := "low";
     Extracted.importance := "high";
     Extracted.score := "9";
     Extracted.registrationLink := "none";
     Extracted.summary := "The exam." |}.

End Sample.

Module SampleServer.
Import JSString ESDate Sample.

(** The model indents its urgency line. *)
Definition indented : Env :=
  scripted 0 (fun _ => noon)
    [answer ["Event Type: Exam"; "Subject: Exam"; "Deadline: today";
             "  Urgency: high"; "Importance: low"; "Score: 9";
             "Registration Link: none"; "Summary: The exam."]].

Definition examLines : list string :=
  ["Event Type: Exam"; "Subject: Exam"; "Deadline: Tomorrow";
   "Urgency: high"; "Importance: low"; "Score: 9";
   "Registration Link: none"; "Summary: The exam."].

(** The model ends its lines with CR LF. *)
Definition crlf : Env :=
  scripted 0 (fun _ => noon)
    [Resolves (inr (String.concat (String "013" (String LF EmptyString)) examLines))].

(** Two headers named Subject, the first one empty. *)
Definition emptySubject : Gmail.Email :=
  {| Gmail.payload :=
       {| Gmail.headers :=
            Some [ {| Gmail.name := "From"; Gmail.value := "bank@example.com" |};
                   {| Gmail.name := "Subject"; Gmail.value := EmptyString |};
                   {| Gmail.name := "Subject"; Gmail.value := "Second" |} ];
          Gmail.parts := None;
          Gmail.body := Some {| Gmail.data := Some "Q2FsbA==" |} |} |}.

Definition htmlPart : Gmail.Part :=
  {| Gmail.mimeType := "text/html";
     Gmail.partBody := Some {| Gmail.data := Some "PGI+Q2FsbDwvYj4=" |} |}.

Definition plainPart : Gmail.Part :=
  {| Gmail.mimeType := "text/plain";
     Gmail.partBody := Some {| Gmail.data := Some "Q2FsbA==" |} |}.

(** A message in two parts, with data in the body of its payload too. *)
Definition multipart : Gmail.Email :=
  {| Gmail.payload :=
       {| Gmail.headers := None;
          Gmail.parts := Some [htmlPart; plainPart];
          Gmail.body := Some {| Gmail.data := Some "SWdub3JlZA==" |} |} |}.

(** A part of type text/plain without a body, as a part that only holds
    other parts would have none. *)
Definition bodylessPart : Gmail.Part :=
  {| Gmail.mimeType := "text/plain"; Gmail.partBody := None |}.

(** A message whose second part is of type text/plain and has no body. *)
Definition bodyless : Gmail.Email :=
  {| Gmail.payload :=
       {| Gmail.headers :=
            Some [ {| Gmail.name := "Subject"; Gmail.value := "Lifetime offer" |} ];
          Gmail.parts := Some [htmlPart; bodylessPart; plainPart];
          Gmail.body := None |} |}.

Definition tokens : Token := {| access_token := "ya29.a0AfH6SMB" |}.

Definition messageOf (id : string) : option Gmail.Email :=
  if (id =? "m1")%string then Some (plainEmail "Call the bank" "Q2FsbA==")
  else if (id =? "m2")%string then Some (plainEmail "Lifetime offer" "T2ZmZXI=")
  else if (id =? "m3")%string then Some (plainEmail "Exam" "RXhhbQ==")
  else None.

(** Google accepts one code, and lists three messages to a client that
    holds credentials; [lost] are the ids of the messages that cannot be
    fetched. *)
Definition google (lost : list string) : Google :=
  {| getToken := fun _ code =>
       if (code =? "4/0AX4XfWh")%string then inr tokens
       else inl (Error "invalid_grant");
     messagesList := fun _ creds _ =>
       match creds with
       | Some _ => inr (Some ["m1"; "m2"; "m3"])
       | None => inl (Error "Login Required.")
       end;
     messagesGet := fun _ _ id =>
       match messageOf id with
       | Some email =>
           if existsb (String.eqb id) lost
           then inl (Error "Requested entity was not found.")
           else inr email
       | None => inl (Error "Requested entity was not found.")
       end |}.

Definition mailbox : Google := google [].

(** The second message has been deleted since the listing. *)
Definition deleted : Google := google ["m2"].

(** The server as it starts, and after a callback. *)
Definition fresh : Server :=
  {| tokenStorage := None; credentials := None; requests := 0; world := world0 |}.

Definition loggedIn : Server :=
  {| tokenStorage := Some tokens; credentials := Some tokens; requests := 1;
     world := world0 |}.

(** Every variable is set, the key of the model to the empty string. *)
Definition emptyKey (varName : string) : option string :=
  if (varName =? "GEMINI_API_KEY")%string then Some EmptyString
  else if (varName =? "PATH")%string then None
  else Some "x"%string.

End SampleServer.

(* ================================================================= *)
(** ** Vocabulary of the statements *)

(** No line feed in [s]: [s] is one line of a text. *)
Fixpoint noLineFeed (s : string) : bool :=
  match s with
  | EmptyString => true
  | String c s' => negb (Ascii.eqb c JSString.LF) && noLineFeed s'
  end.

(** A line that survives [split('\n').filter(Boolean)] as it is. *)
Definition isLine (s : string) : bool := JSString.truthy s && noLineFeed s.

(** [s] has an occurrence of [within <digits> hours] that starts at
    offset [i]. *)
Definition withinHoursAt (s : string) (i : nat) (digits : string) : Prop :=
  exists pre post,
    s = pre ++ "within " ++ digits ++ " hours" ++ post
    /\ String.length pre = i
    /\ digits <> EmptyString
    /\ JSString.allDigits digits = true.

(** The host is in a zone that keeps one offset from UTC all year. *)
Definition fixedOffset `{Env} (tza : Z) : Prop :=
  forall t isUTC, LocalTZA t isUTC = tza.

(** The text [parseDeadline] matches: lower case, trimmed. *)
Definition cleaned (s : string) : string :=
  JSString.trim (JSString.toLowerCase s).

(** [p] occurs in [s]. *)
Definition occursIn (p s : string) : Prop :=
  exists pre post, s = pre ++ p ++ post.

(** [s] is [pre], then [p], then [post], and [p] does not occur in [s]
    further to the left. *)
Definition firstOccurrence (p s pre post : string) : Prop :=
  s = pre ++ p ++ post
  /\ forall pre' post',
       s = pre' ++ p ++ post' -> (String.length pre <= String.length pre')%nat.

(** The labels of the eight lines asked of the model, and the value each
    field takes when its line is missing or empty. *)
Definition labels : list string :=
  ["Event Type: "; "Subject: "; "Deadline: "; "Urgency: "; "Importance: ";
   "Score: "; "Registration Link: "; "Summary: "].

Definition defaults (subject : string) : list string :=
  ["Email"; subject; "none"; "low"; "low"; "none"; "none"; "No summary."].

Definition fieldsOf (e : Extracted.t) : list string :=
  [Extracted.eventType e; Extracted.subject e; Extracted.deadline e;
   Extracted.urgency e; Extracted.importance e; Extracted.score e;
   Extracted.registrationLink e; Extracted.summary e].

(** Field [i] read from the lines of a response: the line without the first
    occurrence of its label, or the default of the field when there is no
    such line or nothing is left of it. *)
Definition fieldValue (subject : string) (lines : list string) (i : nat) : string :=
  match nth_error lines i with
  | None => nth i (defaults subject) EmptyString
  | Some l =>
      match JSString.removeFirst (nth i labels EmptyString) l with
      | EmptyString => nth i (defaults subject) EmptyString
      | v => v
      end
  end.

(** The all-defaults record of a failed extraction. *)
Definition fallbackRecord (subject : string) : Extracted.t :=
  {| Extracted.eventType := "Email";
     Extracted.subject := subject;
     Extracted.deadline := "none";
     Extracted.urgency := "low";
     Extracted.importance := "low";
     Extracted.score := "none";
     Extracted.registrationLink := "none";
     Extracted.summary := "Could not extract information." |}.

(** A response in the format asked for: eight lines, each headed by its
    label. *)
Definition wellFormed (text : string) : bool :=
  let lines := filter JSString.truthy (JSString.splitLines text) in
  (List.length lines =? 8)%nat
  && forallb (fun p => JSString.startsWith (fst p) (snd p)) (combine labels lines).

Definition hints : list string := ["high"; "medium"; "low"].

(** The task made of an extraction, a serialised deadline and a priority. *)
Definition taskOf (e : Extracted.t) (iso : string) (p : Priority) : Task.t :=
  {| Task.eventType := Extracted.eventType e;
     Task.subject := Extracted.subject e;
     Task.deadline := iso;
     Task.urgency := Extracted.urgency e;
     Task.importance := Extracted.importance e;
     Task.score := Extracted.score e;
     Task.priority := p;
     Task.registrationLink := Extracted.registrationLink e;
     Task.summary := Extracted.summary e |}.

(** Normalisation with the reference [refN], classification with the
    reference [refC] and serialisation of one extraction.  The pipeline of
    the specification is [assemble ref ref]: one reference for both. *)
Definition assemble `{Env} (refN refC : Z) (e : Extracted.t) : Completion Task.t :=
  let deadline := parseDeadlineAt refN (Extracted.deadline e) in
  match ESDate.toISOString deadline with
  | inl exn => Throw exn
  | inr iso => Normal (taskOf e iso (categorizeTaskAt refC e deadline))
  end.

(** The world in which the [j]-th email of a batch started in [w] is
    processed: two readings of the clock and one call of the model are made
    for each email before it. *)
Definition worldAt (w : World) (j : nat) : World :=
  {| ticks := ticks w + 2 * j; calls := calls w + j |}.

(** Local hours, minutes and seconds of a time value. *)
Definition localClockTime `{Env} (t : Z) : Z * Z * Z :=
  (ESDate.HourFromTime (ESDate.LocalTime t),
   ESDate.MinFromTime (ESDate.LocalTime t),
   ESDate.SecFromTime (ESDate.LocalTime t)).

(** White space only. *)
Fixpoint allWhiteSpace (s : string) : bool :=
  match s with
  | EmptyString => true
  | String c s' => JSString.isWhiteSpace c && allWhiteSpace s'
  end.

(** The order of the priorities: the higher, the more pressing. *)
Definition urgencyRank (p : Priority) : nat :=
  match p with
  | Urgent => 2
  | Important => 1
  | Later => 0
  end.

Definition CR : ascii := "013"%char.

(** A part of type text/plain that carries the non-empty data [d]. *)
Definition carriesPlainText (p : Gmail.Part) (d : string) : Prop :=
  Gmail.mimeType p = "text/plain"
  /\ (exists b, Gmail.partBody p = Some b /\ Gmail.data b = Some d)
  /\ d <> EmptyString.

(** A part of type text/plain that has no body. *)
Definition lacksBody (p : Gmail.Part) : Prop :=
  Gmail.mimeType p = "text/plain" /\ Gmail.partBody p = None.

(** A part the loop of [processEmails] passes over: it is not of type
    text/plain, or it has a body without data or with empty data. *)
Definition passedOver (p : Gmail.Part) : Prop :=
  ~ lacksBody p /\ forall d, ~ carriesPlainText p d.

(** The error of reading [data] of an undefined [part.body]. *)
Definition noBodyError : Exception :=
  TypeError "Cannot read properties of undefined (reading 'data')".

(** The eight textual fields of a task, the deadline among them. *)
Definition taskFields (t : Task.t) : list string :=
  [Task.eventType t; Task.subject t; Task.deadline t; Task.urgency t;
   Task.importance t; Task.score t; Task.registrationLink t; Task.summary t].

(** The state of the server after [n] more requests to Google. *)
Definition requested (s : Server) (n : nat) : Server :=
  {| tokenStorage := tokenStorage s; credentials := credentials s;
     requests := requests s + n; world := world s |}.

(** The state of the server once the client holds the credentials [tok]. *)
Definition withCredentials (s : Server) (tok : Token) : Server :=
  {| tokenStorage := tokenStorage s; credentials := Some tok;
     requests := requests s; world := world s |}.

(** The status of the response of a handler that has answered. *)
Definition status_of (c : Completion Response) : option nat :=
  match c with
  | Normal r => Some (status r)
  | Throw _ => None
  end.

(** The four phrases [parseDeadline] knows. *)
Definition phrases : list string :=
  ["today"; "tomorrow"; "day after tomorrow"; "none"].

(* ================================================================= *)
(** * Properties *)

(** ** Strings *)

Section StringFacts.
Import JSString.

Lemma append_assoc (a b c : string) : (a ++ b) ++ c = a ++ (b ++ c).
Proof.
  induction a as [|x a IH]; simpl; [reflexivity | now rewrite IH].
Qed.

Lemma append_empty_r (a : string) : a ++ "" = a.
Proof.
  induction a as [|x a IH]; simpl; [reflexivity | now rewrite IH].
Qed.

Lemma startsWith_append (p r : string) : startsWith p (p ++ r) = true.
Proof.
  induction p as [|a p IH]; simpl; [reflexivity|].
  now rewrite Ascii.eqb_refl.
Qed.

Lemma startsWith_inv (p s : string) :
  startsWith p s = true -> exists r, s = p ++ r.
Proof.
  revert s; induction p as [|a p IH]; intros s Hs; simpl in *.
  - now exists s.
  - destruct s as [|b s]; [discriminate|].
    apply andb_true_iff in Hs as [Hab Hs].
    apply Ascii.eqb_eq in Hab as ->.
    destruct (IH _ Hs) as [r ->]. now exists r.
Qed.

Lemma drop_append (p r : string) : drop (String.length p) (p ++ r) = r.
Proof.
  induction p as [|a p IH]; simpl; [now destruct r | exact IH].
Qed.

Lemma removeFirst_unfold (p s : string) :
  removeFirst p s =
  if startsWith p s then drop (String.length p) s
  else match s with
       | EmptyString => EmptyString
       | String c s' => String c (removeFirst p s')
       end.
Proof. destruct s; reflexivity. Qed.

Lemma includes_unfold (p s : string) :
  includes p s =
  startsWith p s || match s with
                    | EmptyString => false
                    | String _ s' => includes p s'
                    end.
Proof. destruct s; reflexivity. Qed.

(** Stripping a label that heads the line leaves the value. *)
Lemma removeFirst_prefix (p r : string) : removeFirst p (p ++ r) = r.
Proof.
  rewrite removeFirst_unfold, startsWith_append. apply drop_append.
Qed.

(** A line without the label is left as it is. *)
Lemma removeFirst_absent (p s : string) :
  includes p s = false -> removeFirst p s = s.
Proof.
  induction s as [|c s IH]; rewrite removeFirst_unfold, includes_unfold;
    intros Hi; apply orb_false_iff in Hi as [Hs Hi]; rewrite Hs.
  - reflexivity.
  - now rewrite (IH Hi).
Qed.

(** An occurrence at the head of a string is seen by [startsWith]. *)
Lemma occursIn_tail (p pre post : string) (c : ascii) (s : string) :
  startsWith p (String c s) = false ->
  String c s = pre ++ p ++ post ->
  exists pre', pre = String c pre' /\ s = pre' ++ p ++ post.
Proof.
  intros Hhead Hs. destruct pre as [|a pre'].
  - cbn [append] in Hs. rewrite Hs, startsWith_append in Hhead. discriminate.
  - cbn [append] in Hs. injection Hs as <- ->. now exists pre'.
Qed.

Lemma includes_occursIn (p s : string) : includes p s = true <-> occursIn p s.
Proof.
  split.
  - induction s as [|c s IH]; rewrite includes_unfold; intros Hi;
      apply orb_true_iff in Hi as [Hs|Hi]; try discriminate.
    + apply startsWith_inv in Hs as [r ->]. now exists EmptyString, r.
    + apply startsWith_inv in Hs as [r ->]. now exists EmptyString, r.
    + destruct (IH Hi) as (pre & post & ->). now exists (String c pre), post.
  - intros (pre & post & ->). induction pre as [|c pre IH]; cbn [append].
    + rewrite includes_unfold, startsWith_append. reflexivity.
    + rewrite includes_unfold, IH. apply orb_true_r.
Qed.

(** [replace] removes the leftmost occurrence and nothing else. *)
Lemma removeFirst_firstOccurrence (p s pre post : string) :
  firstOccurrence p s pre post -> removeFirst p s = pre ++ post.
Proof.
  revert s. induction pre as [|c pre IH]; intros s [Hs Hmin].
  - subst s. exact (removeFirst_prefix p post).
  - subst s. cbn [append]. rewrite removeFirst_unfold.
    destruct (startsWith p (String c (pre ++ p ++ post))) eqn:Hhead.
    + apply startsWith_inv in Hhead as [r Hr].
      specialize (Hmin EmptyString r Hr). cbn in Hmin. lia.
    + f_equal. apply IH. split; [reflexivity|].
      intros pre' post' Heq.
      specialize (Hmin (String c pre') post').
      cbn [append String.length] in Hmin. rewrite Heq in Hmin.
      specialize (Hmin eq_refl). lia.
Qed.

(** A string has a leftmost occurrence of [p], or none at all. *)
Lemma occurrence_cases (p s : string) :
  (exists pre post, firstOccurrence p s pre post) \/ ~ occursIn p s.
Proof.
  induction s as [|c s IH].
  - destruct (startsWith p EmptyString) eqn:Hhead.
    + apply startsWith_inv in Hhead as [r Hr]. left. exists EmptyString, r.
      split; [exact Hr|]. intros; cbn; lia.
    + right. intros (pre & post & Hs). destruct pre as [|a pre]; [|discriminate].
      cbn [append] in Hs. rewrite Hs, startsWith_append in Hhead. discriminate.
  - destruct (startsWith p (String c s)) eqn:Hhead.
    + apply startsWith_inv in Hhead as [r Hr]. left. exists EmptyString, r.
      split; [exact Hr|]. intros; cbn; lia.
    + destruct IH as [(pre & post & Hs & Hmin)|Hnone].
      * left. exists (String c pre), post. split; [cbn [append]; now rewrite Hs|].
        intros pre' post' Heq.
        destruct (occursIn_tail _ _ _ _ _ Hhead Heq) as (pre'' & -> & Hs').
        specialize (Hmin pre'' post' Hs'). cbn [String.length]. lia.
      * right. intros (pre & post & Heq).
        destruct (occursIn_tail _ _ _ _ _ Hhead Heq) as (pre' & _ & Hs').
        apply Hnone. now exists pre', post.
Qed.

Lemma splitLines_line (l : string) :
  noLineFeed l = true -> splitLines l = [l].
Proof.
  induction l as [|c l IH]; simpl; [reflexivity|].
  intros Hl. apply andb_true_iff in Hl as [Hc Hl].
  apply negb_true_iff in Hc. rewrite Hc, (IH Hl). reflexivity.
Qed.

Lemma splitLines_cons (l rest : string) :
  noLineFeed l = true ->
  splitLines (l ++ String LF rest) = l :: splitLines rest.
Proof.
  induction l as [|c l IH]; simpl.
  - reflexivity.
  - intros Hl. apply andb_true_iff in Hl as [Hc Hl].
    apply negb_true_iff in Hc. rewrite Hc, (IH Hl). reflexivity.
Qed.

Lemma splitLines_concat (lines : list string) :
  lines <> [] ->
  Forall (fun l => noLineFeed l = true) lines ->
  splitLines (String.concat (String LF EmptyString) lines) = lines.
Proof.
  induction lines as [|l ls IH]; [congruence|].
  intros _ Hall. inversion Hall as [|? ? Hl Hls]; subst.
  destruct ls as [|l' ls'].
  - simpl. now apply splitLines_line.
  - change (String.concat (String LF "") (l :: l' :: ls'))
      with (l ++ String LF (String.concat (String LF "") (l' :: ls'))).
    rewrite splitLines_cons by assumption.
    rewrite IH by (assumption || congruence). reflexivity.
Qed.

Lemma filter_truthy_lines (lines : list string) :
  Forall (fun l => isLine l = true) lines ->
  filter truthy lines = lines.
Proof.
  induction 1 as [|l ls Hl _ IH]; simpl; [reflexivity|].
  apply andb_true_iff in Hl as [Ht _]. now rewrite Ht, IH.
Qed.

(** The lines the parser sees, for a response made of the lines [lines]. *)
Lemma lines_of_concat (lines : list string) :
  Forall (fun l => isLine l = true) lines ->
  filter truthy (splitLines (String.concat (String LF EmptyString) lines)) = lines.
Proof.
  intros Hall. destruct lines as [|l ls]; [reflexivity|].
  rewrite splitLines_concat.
  - now apply filter_truthy_lines.
  - congruence.
  - eapply Forall_impl; [|exact Hall].
    intros a Ha. now apply andb_true_iff in Ha as [_ Ha].
Qed.

End StringFacts.

(** ** The pattern [/within (\d+) hours/] *)

Section WithinHoursFacts.
Import JSString.

Lemma matchWithinHours_unfold (s : string) :
  matchWithinHours s =
  match matchWithinHoursHere s with
  | Some ds => Some ds
  | None =>
      match s with
      | EmptyString => None
      | String _ s' => matchWithinHours s'
      end
  end.
Proof. destruct s; reflexivity. Qed.

Lemma spanDigits_append (ds r : string) :
  allDigits ds = true ->
  match r with EmptyString => True | String c _ => isDigit c = false end ->
  spanDigits (ds ++ r) = (ds, r).
Proof.
  intros Hds Hr. induction ds as [|c ds IH];
    cbn [spanDigits allDigits append] in *.
  - destruct r as [|c r]; [reflexivity |].
    cbn [spanDigits]. now rewrite Hr.
  - apply andb_true_iff in Hds as [Hc Hds]. now rewrite Hc, (IH Hds).
Qed.

Lemma spanDigits_inv (s ds r : string) :
  spanDigits s = (ds, r) -> s = ds ++ r /\ allDigits ds = true.
Proof.
  revert ds r. induction s as [|c s IH]; cbn [spanDigits]; intros ds r Hs.
  - now inversion Hs.
  - destruct (isDigit c) eqn:Hc.
    + destruct (spanDigits s) as [ds' r'] eqn:Hs'.
      inversion Hs; subst. destruct (IH _ _ eq_refl) as [-> Hall].
      cbn [allDigits append]. now rewrite Hc, Hall.
    + inversion Hs; subst. now split.
Qed.

Lemma matchWithinHoursHere_intro (ds post : string) :
  ds <> EmptyString -> allDigits ds = true ->
  matchWithinHoursHere ("within " ++ ds ++ " hours" ++ post) = Some ds.
Proof.
  intros Hne Hds. unfold matchWithinHoursHere.
  rewrite startsWith_append.
  change (drop 7 ("within " ++ ds ++ " hours" ++ post))
    with (ds ++ " hours" ++ post).
  rewrite spanDigits_append by (assumption || reflexivity).
  destruct ds as [|c ds]; [congruence|].
  now rewrite startsWith_append.
Qed.

Lemma matchWithinHoursHere_inv (s ds : string) :
  matchWithinHoursHere s = Some ds -> withinHoursAt s 0 ds.
Proof.
  unfold matchWithinHoursHere. intros Hm.
  destruct (startsWith "within " s) eqn:Hw; [|discriminate].
  apply startsWith_inv in Hw as [rest ->].
  change (drop 7 ("within " ++ rest)) with rest in Hm.
  destruct (spanDigits rest) as [ds' r] eqn:Hsp.
  destruct (truthy ds') eqn:Ht; [|discriminate].
  destruct (startsWith " hours" r) eqn:Hh; [|discriminate].
  simpl in Hm. inversion Hm; subst ds'.
  apply startsWith_inv in Hh as [post ->].
  apply spanDigits_inv in Hsp as [-> Hall].
  exists EmptyString, post. repeat split; try assumption.
  intros ->. discriminate.
Qed.

Lemma withinHoursAt_tail (c : ascii) (s : string) (i : nat) (ds : string) :
  withinHoursAt (String c s) (S i) ds <-> withinHoursAt s i ds.
Proof.
  split; intros (pre & post & Hs & Hlen & Hne & Hall).
  - destruct pre as [|a pre]; [discriminate|].
    simpl in Hs, Hlen. inversion Hs; subst.
    exists pre, post. repeat split; try assumption. now inversion Hlen.
  - exists (String c pre), post. subst. repeat split; assumption.
Qed.

Lemma withinHoursAt_head (s ds : string) :
  withinHoursAt s 0 ds -> matchWithinHoursHere s = Some ds.
Proof.
  intros (pre & post & Hs & Hlen & Hne & Hall).
  destruct pre; [|discriminate]. subst.
  now apply matchWithinHoursHere_intro.
Qed.


(** The search fails exactly on the strings without an occurrence. *)
Lemma matchWithinHours_none (s : string) :
  matchWithinHours s = None <-> forall i ds, ~ withinHoursAt s i ds.
Proof.
  split.
  - induction s as [|c s IH]; rewrite matchWithinHours_unfold;
      destruct (matchWithinHoursHere _) eqn:Hhere; try discriminate;
      intros Hm i ds Hat.
    + destruct Hat as (pre & post & Hs & _). destruct pre; discriminate.
    + destruct i as [|i].
      * apply withinHoursAt_head in Hat. congruence.
      * apply withinHoursAt_tail in Hat. exact (IH Hm i ds Hat).
  - intros Hnone. induction s as [|c s IH]; rewrite matchWithinHours_unfold;
      destruct (matchWithinHoursHere _) as [ds|] eqn:Hhere.
    + exfalso. exact (Hnone _ _ (matchWithinHoursHere_inv _ _ Hhere)).
    + reflexivity.
    + exfalso. exact (Hnone _ _ (matchWithinHoursHere_inv _ _ Hhere)).
    + apply IH. intros i ds Hat. apply (Hnone (S i) ds).
      now apply withinHoursAt_tail.
Qed.

(** On a string of digits [parseInt] reads the whole string. *)
Lemma parseInt_digits (ds : string) :
  ds <> EmptyString -> allDigits ds = true ->
  parseInt ds = Some (digitsValue 0 ds).
Proof.
  intros Hne Hall. unfold parseInt.
  rewrite <- (append_empty_r ds) at 1.
  rewrite spanDigits_append by (assumption || exact I).
  destruct ds; [congruence | reflexivity].
Qed.

End WithinHoursFacts.

(** ** The calendar *)

Section CalendarFacts.
Import ESDate.

Ltac eval_months :=
  repeat match goal with
    | |- context [monthStart ?b ?k] =>
        tryif is_var k then fail else
        let v := eval vm_compute in (monthStart b k) in
        change (monthStart b k) with v
    | |- context [DaysInMonth ?b ?k] =>
        tryif is_var k then fail else
        let v := eval vm_compute in (DaysInMonth b k) in
        change (DaysInMonth b k) with v
    end.

(** [yearOfDay] meets the definition of ECMA-262: the largest year that
    starts on or before the day. *)
Lemma yearOfDay_spec (day : Z) :
  DayFromYear (yearOfDay day) <= day < DayFromYear (yearOfDay day + 1).
Proof.
  unfold yearOfDay.
  set (y := 1970 + day * 400 / 146097).
  assert (Hlo : DayFromYear (y - 1) <= day).
  { subst y. unfold DayFromYear. Z.div_mod_to_equations. lia. }
  assert (Hhi : day < DayFromYear (y + 2)).
  { subst y. unfold DayFromYear. Z.div_mod_to_equations. lia. }
  destruct (Z.leb_spec (DayFromYear (y + 1)) day).
  - replace (y + 1 + 1) with (y + 2) by lia. lia.
  - destruct (Z.leb_spec (DayFromYear y) day).
    + lia.
    + replace (y - 1 + 1) with y by lia. lia.
Qed.

Lemma DayFromYear_succ (y : Z) :
  DayFromYear (y + 1) = DayFromYear y + (if InLeapYear y then 366 else 365).
Proof.
  unfold DayFromYear, InLeapYear.
  destruct (Z.eqb_spec (y mod 4) 0), (Z.eqb_spec (y mod 100) 0),
    (Z.eqb_spec (y mod 400) 0); cbn [andb orb negb];
    Z.div_mod_to_equations; lia.
Qed.

Lemma monthOfYearDay_spec (leap : bool) (d : Z) :
  0 <= d < (if leap then 366 else 365) ->
  let m := monthOfYearDay leap d in
  0 <= m <= 11
  /\ monthStart leap m <= d < monthStart leap m + DaysInMonth leap m.
Proof.
  intros Hd m. assert (Hm : m = monthOfYearDay leap d) by reflexivity.
  clearbody m. unfold monthOfYearDay in Hm.
  destruct leap; cbv iota in Hd;
    repeat match type of Hm with
      | m = (if ?a <? ?b then _ else _) =>
          let Hlt := fresh "Hlt" in
          let Hge := fresh "Hge" in
          destruct (Z.ltb_spec a b) as [Hlt|Hge];
          [subst m; revert Hlt; eval_months; lia
          |revert Hge; eval_months; intros Hge]
      end;
    subst m; eval_months; lia.
Qed.

(** Year, month and day of the month determine the day they come from. *)
Lemma civil_fields (t : Z) :
  0 <= MonthFromTime t <= 11
  /\ 1 <= DateFromTime t
       <= DaysInMonth (InLeapYear (YearFromTime t)) (MonthFromTime t)
  /\ MakeDay (YearFromTime t) (MonthFromTime t) (DateFromTime t) = Day t.
Proof.
  unfold DateFromTime, MonthFromTime, YearFromTime, DayWithinYear.
  set (day := Day t). set (y := yearOfDay day).
  pose proof (yearOfDay_spec day) as Hy. fold y in Hy.
  rewrite DayFromYear_succ in Hy.
  set (leap := InLeapYear y) in *.
  assert (Hd : 0 <= day - DayFromYear y < (if leap then 366 else 365)) by lia.
  destruct (monthOfYearDay_spec leap _ Hd) as [Hm Hs].
  set (m := monthOfYearDay leap (day - DayFromYear y)) in *.
  split; [exact Hm|]. split; [lia|].
  unfold MakeDay.
  replace (m / 12) with 0 by (Z.div_mod_to_equations; lia).
  replace (m mod 12) with m by (Z.div_mod_to_equations; lia).
  replace (y + 0) with y by lia. fold leap. lia.
Qed.

Lemma DaysInMonth_le_31 (leap : bool) (m : Z) : DaysInMonth leap m <= 31.
Proof.
  unfold DaysInMonth. destruct (m =? 1); [destruct leap; lia|].
  generalize (Z.to_nat m). intros k.
  do 12 (destruct k as [|k]; [cbn [nth]; lia|]).
  cbn [nth]. destruct k; lia.
Qed.

Lemma MakeDay_plus (year month date n : Z) :
  MakeDay year month (date + n) = MakeDay year month date + n.
Proof. unfold MakeDay. lia. Qed.

(** Hours, minutes, seconds and milliseconds determine the time within
    the day. *)
Lemma time_fields (t : Z) :
  MakeDate (Day t)
    (MakeTime (HourFromTime t) (MinFromTime t) (SecFromTime t) (msFromTime t)) = t
  /\ 0 <= HourFromTime t <= 23 /\ 0 <= MinFromTime t <= 59
  /\ 0 <= SecFromTime t <= 59 /\ 0 <= msFromTime t <= 999.
Proof.
  unfold MakeDate, MakeTime, Day, HourFromTime, MinFromTime, SecFromTime,
    msFromTime, msPerDay, msPerHour, msPerMinute, msPerSecond.
  Z.div_mod_to_equations. lia.
Qed.

(** The years of the time values a Date can hold. *)
Lemma YearFromTime_range (t : Z) :
  Z.abs t <= maxTime -> -271821 <= YearFromTime t <= 275760.
Proof.
  intros Ht. unfold YearFromTime.
  pose proof (yearOfDay_spec (Day t)) as Hy.
  assert (Hday : -100000000 <= Day t <= 100000000).
  { unfold Day, msPerDay, maxTime in *. Z.div_mod_to_equations. lia. }
  revert Hy. generalize (yearOfDay (Day t)). intros y.
  unfold DayFromYear. Z.div_mod_to_equations. lia.
Qed.

End CalendarFacts.

(** ** The interchange format: writing and reading back *)

Section IsoFacts.
Import JSString ESDate.

Lemma digitChar_spec (d : Z) :
  0 <= d <= 9 -> isDigit (digitChar d) = true /\ digitValue (digitChar d) = d.
Proof.
  intros Hd.
  assert (Hcases : d = 0 \/ d = 1 \/ d = 2 \/ d = 3 \/ d = 4 \/ d = 5
                   \/ d = 6 \/ d = 7 \/ d = 8 \/ d = 9) by lia.
  repeat destruct Hcases as [->|Hcases]; try subst d; split; reflexivity.
Qed.

Lemma takeDigits_last (k : nat) (acc : Z) (s : string) (v : Z) (c : ascii)
    (rest : string) :
  takeDigits k acc s = Some (v, String c rest) ->
  isDigit c = true ->
  takeDigits (S k) acc s = Some (10 * v + digitValue c, rest).
Proof.
  revert acc s. induction k as [|k IH]; intros acc s Hk Hc.
  - cbn [takeDigits] in *. inversion Hk; subst. now rewrite Hc.
  - cbn [takeDigits] in Hk. destruct s as [|a s]; [discriminate|].
    destruct (isDigit a) eqn:Ha; [|discriminate].
    specialize (IH _ _ Hk Hc).
    change (takeDigits (S (S k)) acc (String a s))
      with (if isDigit a then takeDigits (S k) (10 * acc + digitValue a) s
            else None).
    now rewrite Ha.
Qed.

(** Reading [w] digits written by [padDigits w]. *)
Lemma takeDigits_padDigits (w : nat) (n acc : Z) (rest : string) :
  takeDigits w acc (padDigits w n ++ rest)
  = Some (acc * 10 ^ Z.of_nat w + n mod 10 ^ Z.of_nat w, rest).
Proof.
  revert n acc rest. induction w as [|w IH]; intros n acc rest.
  - cbn [takeDigits padDigits append]. f_equal. f_equal.
    change (10 ^ Z.of_nat 0) with 1. rewrite Z.mod_1_r. lia.
  - cbn [padDigits]. rewrite append_assoc. cbn [append].
    assert (Hd : 0 <= n mod 10 <= 9) by (Z.div_mod_to_equations; lia).
    destruct (digitChar_spec _ Hd) as [Hdig Hval].
    rewrite (takeDigits_last w acc _ _ _ _ (IH (n / 10) acc _) Hdig).
    rewrite Hval. f_equal. f_equal.
    rewrite Nat2Z.inj_succ, Z.pow_succ_r by lia.
    assert (Hpow : 0 < 10 ^ Z.of_nat w) by (apply Z.pow_pos_nonneg; lia).
    rewrite (Z.rem_mul_r n 10 (10 ^ Z.of_nat w)) by lia. lia.
Qed.

Lemma takeDigits_small (w : nat) (n : Z) (rest : string) :
  0 <= n < 10 ^ Z.of_nat w ->
  takeDigits w 0 (padDigits w n ++ rest) = Some (n, rest).
Proof.
  intros Hn. rewrite takeDigits_padDigits. now rewrite Z.mod_small.
Qed.

Lemma takeYear_unsigned (s : string) (r : Z * string) :
  takeDigits 4 0 s = Some r -> takeYear s = Some r.
Proof.
  destruct s as [|c s]; [discriminate|]. intros Hs. unfold takeYear.
  assert (Hc : isDigit c = true).
  { cbn [takeDigits] in Hs. destruct (isDigit c); [reflexivity | discriminate]. }
  destruct (Ascii.eqb_spec c "+") as [->|_]; [discriminate|].
  destruct (Ascii.eqb_spec c "-") as [->|_]; [discriminate|].
  exact Hs.
Qed.

Lemma takeYear_yearString (y : Z) (rest : string) :
  -999999 <= y <= 999999 ->
  takeYear (yearString y ++ rest) = Some (y, rest).
Proof.
  intros Hy. unfold yearString.
  destruct (Z.leb_spec 0 y); [destruct (Z.leb_spec y 9999)|]; cbn [andb].
  - apply takeYear_unsigned, takeDigits_small.
    change (10 ^ Z.of_nat 4) with 10000. lia.
  - destruct (Z.ltb_spec y 0); [lia|].
    cbn [append takeYear]. change (Ascii.eqb "+" "+") with true. cbv iota.
    apply takeDigits_small. change (10 ^ Z.of_nat 6) with 1000000. lia.
  - destruct (Z.ltb_spec y 0); [|lia].
    cbn [append takeYear]. change (Ascii.eqb "-" "+") with false.
    change (Ascii.eqb "-" "-") with true. cbv iota.
    rewrite takeDigits_small
      by (change (10 ^ Z.of_nat 6) with 1000000; lia).
    destruct (Z.eqb_spec (- y) 0); [lia|]. f_equal. f_equal. lia.
Qed.

(** Reading the string written for a time value gives the time value. *)
Lemma parse_isoString (t : Z) :
  Z.abs t <= maxTime -> parse (isoString t) = Some t.
Proof.
  intros Ht.
  pose proof (YearFromTime_range t Ht) as Hy.
  destruct (civil_fields t) as (Hm & Hd & Hday).
  destruct (time_fields t) as (Htime & Hh & Hmi & Hs & Hms).
  pose proof (DaysInMonth_le_31 (InLeapYear (YearFromTime t)) (MonthFromTime t))
    as Hd31.
  unfold parse, isoString.
  rewrite takeYear_yearString by lia. cbn [append expect].
  change (Ascii.eqb "-" "-") with true. cbv iota.
  rewrite takeDigits_small by (change (10 ^ Z.of_nat 2) with 100; lia).
  cbn [append expect]. change (Ascii.eqb "-" "-") with true. cbv iota.
  rewrite takeDigits_small by (change (10 ^ Z.of_nat 2) with 100; lia).
  cbn [append expect]. change (Ascii.eqb "T" "T") with true. cbv iota.
  rewrite takeDigits_small by (change (10 ^ Z.of_nat 2) with 100; lia).
  cbn [append expect]. change (Ascii.eqb ":" ":") with true. cbv iota.
  rewrite takeDigits_small by (change (10 ^ Z.of_nat 2) with 100; lia).
  cbn [append expect]. change (Ascii.eqb ":" ":") with true. cbv iota.
  rewrite takeDigits_small by (change (10 ^ Z.of_nat 2) with 100; lia).
  cbn [append expect]. change (Ascii.eqb "." ".") with true. cbv iota.
  rewrite takeDigits_small by (change (10 ^ Z.of_nat 3) with 1000; lia).
  cbn [append expect]. change (Ascii.eqb "Z" "Z") with true. cbv iota.
  replace (MonthFromTime t + 1 - 1) with (MonthFromTime t) by lia.
  unfold validTimeOfDay.
  repeat match goal with
         | |- context [?a <=? ?b] =>
             destruct (Z.leb_spec a b); [|lia]
         end.
  cbn [andb orb]. rewrite Hday, Htime.
  unfold TimeClip. destruct (Z.leb_spec (Z.abs t) maxTime); [reflexivity | lia].
Qed.

End IsoFacts.

(** ** Date arithmetic of the host and of date-fns *)

Section DateOpFacts.
Context `{Env}.
Import ESDate DateFns.

Lemma TimeClip_Some (t : Z) : Z.abs t <= maxTime -> TimeClip t = Some t.
Proof.
  intros Ht. unfold TimeClip.
  destruct (Z.leb_spec (Z.abs t) maxTime); [reflexivity | lia].
Qed.

Lemma TimeClip_inv (t r : Z) : TimeClip t = Some r -> r = t /\ Z.abs t <= maxTime.
Proof.
  unfold TimeClip. destruct (Z.leb_spec (Z.abs t) maxTime); [|discriminate].
  intros Hr. injection Hr as <-. split; [reflexivity | assumption].
Qed.

(** Moving the day of the month by [n] moves the local time by [n] days. *)
Lemma setDate_shift (tv n : Z) :
  setDate tv (getDate tv + n) = TimeClip (UTC (LocalTime tv + n * msPerDay)).
Proof.
  unfold setDate, getDate.
  destruct (civil_fields (LocalTime tv)) as (_ & _ & Hday).
  rewrite MakeDay_plus, Hday. f_equal. f_equal.
  unfold MakeDate, TimeWithinDay, Day, msPerDay.
  generalize (LocalTime tv). intros z. Z.div_mod_to_equations. lia.
Qed.

Lemma addDays_shift (now n : Z) :
  n <> 0 -> addDays (Some now) n = TimeClip (UTC (LocalTime now + n * msPerDay)).
Proof.
  intros Hn. unfold addDays.
  destruct (Z.eqb_spec n 0); [contradiction|]. apply setDate_shift.
Qed.

Lemma UTC_LocalTime_fixed (tza t n : Z) :
  fixedOffset tza -> UTC (LocalTime t + n) = t + n.
Proof.
  intros Hz. unfold UTC, LocalTime. rewrite !Hz. lia.
Qed.

Lemma LocalTime_UTC_fixed (tza t : Z) :
  fixedOffset tza -> LocalTime (UTC t) = t.
Proof.
  intros Hz. unfold UTC, LocalTime. rewrite !Hz. lia.
Qed.

(** In a zone of fixed offset a day is 24 hours. *)
Lemma addDays_fixed (tza now n : Z) :
  fixedOffset tza -> n <> 0 ->
  addDays (Some now) n = TimeClip (now + n * msPerDay).
Proof.
  intros Hz Hn. rewrite addDays_shift by assumption.
  now rewrite (UTC_LocalTime_fixed tza).
Qed.

Lemma YearFromTime_epoch (t : Z) : 0 <= t -> 1970 <= YearFromTime t.
Proof.
  intros Ht. unfold YearFromTime.
  pose proof (yearOfDay_spec (Day t)) as Hy.
  assert (Hday : 0 <= Day t).
  { unfold Day, msPerDay. Z.div_mod_to_equations. lia. }
  revert Hy. generalize (yearOfDay (Day t)). intros y.
  unfold DayFromYear. Z.div_mod_to_equations. lia.
Qed.

(** The date built for ["today"]: the local day of [now], at 23:59:59.000. *)
Lemma endOfToday (now : Z) :
  0 <= LocalTime now ->
  newDateOfFields (getFullYear now) (getMonth now) (getDate now) 23 59 59
  = TimeClip (UTC (Day (LocalTime now) * msPerDay + 86399000)).
Proof.
  intros Hnow. unfold newDateOfFields, getFullYear, getMonth, getDate.
  pose proof (YearFromTime_epoch _ Hnow) as Hy.
  destruct (civil_fields (LocalTime now)) as (_ & _ & Hday).
  unfold MakeFullYear.
  destruct (Z.leb_spec 0 (YearFromTime (LocalTime now)));
    destruct (Z.leb_spec (YearFromTime (LocalTime now)) 99);
    cbn [andb]; try lia.
  rewrite Hday. reflexivity.
Qed.

Lemma setHours_endOfDay (tv : Z) :
  setHours tv 23 59 59
  = TimeClip (UTC (Day (LocalTime tv) * msPerDay + 86399000
                   + msFromTime (LocalTime tv))).
Proof.
  unfold setHours, MakeDate, MakeTime, msPerHour, msPerMinute, msPerSecond.
  f_equal. f_equal. lia.
Qed.

(** A local time of the form "day, 23:59:59 and some milliseconds". *)
Lemma localClockTime_endOfDay (tza day ms r : Z) :
  fixedOffset tza ->
  0 <= ms <= 999 ->
  r = UTC (day * msPerDay + 86399000 + ms) ->
  localClockTime r = (23, 59, 59).
Proof.
  intros Hz Hms ->. unfold localClockTime.
  rewrite (LocalTime_UTC_fixed tza) by assumption.
  unfold HourFromTime, MinFromTime, SecFromTime, msPerDay, msPerHour,
    msPerMinute, msPerSecond.
  repeat f_equal; Z.div_mod_to_equations; lia.
Qed.

End DateOpFacts.

(** ** The classifier *)

Section ClassifierFacts.
Context `{Env}.
Import ESDate DateFns.

Lemma categorizeTask_run (extracted : Extracted.t) (deadline : Date) (w : World) :
  categorizeTask extracted deadline w
  = (Normal (categorizeTaskAt (clock (ticks w)) extracted deadline),
     {| ticks := S (ticks w); calls := calls w |}).
Proof. reflexivity. Qed.

(** C1.  With [hoursLeft] the number of whole hours from the reference to
    the deadline (rounded towards zero), [categorizeTask] answers Urgent
    when [hoursLeft <= 24] or the urgency is "high"; otherwise Important
    when [hoursLeft <= 72] or the importance is "high"; otherwise Later.
    The first branch that holds decides: a task urgent by time and of high
    importance is Urgent, and so is a task whose deadline has passed.  The
    reference is the reading of the clock the function makes. *)
Theorem categorizeTask_branches (now deadline : Z) (extracted : Extracted.t) :
  let hoursLeft := Z.quot (deadline - now) msPerHour in
  let urgent := hoursLeft <= 24 \/ Extracted.urgency extracted = "high" in
  let important := hoursLeft <= 72 \/ Extracted.importance extracted = "high" in
  let label := categorizeTaskAt now extracted (Some deadline) in
  (urgent -> label = Urgent)
  /\ (~ urgent -> important -> label = Important)
  /\ (~ urgent -> ~ important -> label = Later)
  /\ (hoursLeft <= 24 -> Extracted.importance extracted = "high" -> label = Urgent)
  /\ (deadline <= now -> hoursLeft <= 0 /\ label = Urgent)
  /\ (forall w, clock (ticks w) = now ->
        fst (categorizeTask extracted (Some deadline) w) = Normal label).
Proof.
  intros hoursLeft urgent important label.
  assert (Hu : urgent -> label = Urgent).
  { intros [Hh|Hu]; subst label; unfold categorizeTaskAt, differenceInHours, leNumber.
    - fold hoursLeft. destruct (Z.leb_spec hoursLeft 24); [reflexivity | lia].
    - rewrite Hu, String.eqb_refl, orb_true_r. reflexivity. }
  assert (Hnu : ~ urgent ->
                label = if (hoursLeft <=? 72)
                           || (Extracted.importance extracted =? "high")%string
                        then Important else Later).
  { intros Hn. subst label. unfold categorizeTaskAt, differenceInHours, leNumber.
    fold hoursLeft.
    destruct (Z.leb_spec hoursLeft 24); [exfalso; apply Hn; now left|].
    destruct (String.eqb_spec (Extracted.urgency extracted) "high");
      [exfalso; apply Hn; now right|].
    reflexivity. }
  assert (Hpast : deadline <= now -> hoursLeft <= 0).
  { intros Hle. subst hoursLeft.
    replace (deadline - now) with (- (now - deadline)) by lia.
    rewrite Z.quot_opp_l by (unfold msPerHour; lia).
    assert (0 <= Z.quot (now - deadline) msPerHour)
      by (apply Z.quot_pos; unfold msPerHour; lia).
    lia. }
  split; [exact Hu|]. split; [|split; [|split; [|split]]].
  - intros Hn [Hh|Hi]; rewrite (Hnu Hn).
    + destruct (Z.leb_spec hoursLeft 72); [reflexivity | lia].
    + rewrite Hi, String.eqb_refl, orb_true_r. reflexivity.
  - intros Hn Hni. rewrite (Hnu Hn).
    destruct (Z.leb_spec hoursLeft 72); [exfalso; apply Hni; now left|].
    destruct (String.eqb_spec (Extracted.importance extracted) "high");
      [exfalso; apply Hni; now right|].
    reflexivity.
  - intros Hh _. apply Hu. now left.
  - intros Hle. pose proof (Hpast Hle). split; [assumption|].
    apply Hu. left. lia.
  - intros w Hw. rewrite categorizeTask_run, Hw. reflexivity.
Qed.

End ClassifierFacts.

(** ** The deadline parser *)

Section DeadlineFacts.
Context `{Env}.
Import JSString ESDate DateFns.

Lemma parseDeadline_run (deadlineStr : string) (w : World) :
  parseDeadline deadlineStr w
  = (Normal (parseDeadlineAt (clock (ticks w)) deadlineStr),
     {| ticks := S (ticks w); calls := calls w |}).
Proof. reflexivity. Qed.

Lemma parseDeadlineAt_cleaned (now : Z) (s : string) :
  parseDeadlineAt now s =
  if (cleaned s =? "today")%string then
    newDateOfFields (getFullYear now) (getMonth now) (getDate now) 23 59 59
  else if (cleaned s =? "tomorrow")%string then addDays (Some now) 1
  else if (cleaned s =? "day after tomorrow")%string then addDays (Some now) 2
  else if (cleaned s =? "none")%string then addDays (Some now) 7
  else
    match matchWithinHours (cleaned s) with
    | Some digits => addHours (Some now) (parseInt digits)
    | None =>
        match tryFormats (cleaned s) now formats with
        | Some d => d
        | None => addDays (Some now) 7
        end
    end.
Proof. reflexivity. Qed.

Lemma tryFormats_none (text : string) (now : Z) (fmts : list string) :
  (forall fmt, In fmt fmts -> isValid (parse text fmt now) = false) ->
  tryFormats text now fmts = None.
Proof.
  induction fmts as [|fmt fmts IH]; intros Hall; cbn [tryFormats].
  - reflexivity.
  - pose proof (Hall fmt (or_introl eq_refl)) as Hfmt.
    destruct (parse text fmt now); [discriminate|].
    apply IH. intros f Hf. apply Hall. now right.
Qed.

(** Every date the parser returns holds a time value within the range of
    Date, or is an Invalid Date. *)
Lemma parseDeadlineAt_range (now : Z) (s : string) (t : Z) :
  parseDeadlineAt now s = Some t -> Z.abs t <= maxTime.
Proof.
  rewrite parseDeadlineAt_cleaned.
  assert (Hadd : forall n, n <> 0 -> addDays (Some now) n = Some t ->
                           Z.abs t <= maxTime).
  { intros n Hn. rewrite addDays_shift by assumption.
    intros Hc. apply TimeClip_inv in Hc as [-> Hc]. exact Hc. }
  destruct (cleaned s =? "today")%string.
  { unfold newDateOfFields. intros Hc. now apply TimeClip_inv in Hc as [-> Hc]. }
  destruct (cleaned s =? "tomorrow")%string; [apply Hadd; lia|].
  destruct (cleaned s =? "day after tomorrow")%string; [apply Hadd; lia|].
  destruct (cleaned s =? "none")%string; [apply Hadd; lia|].
  destruct (matchWithinHours (cleaned s)) as [digits|].
  { unfold addHours, addMilliseconds.
    destruct (option_map _ (parseInt digits)); [|discriminate].
    intros Hc. now apply TimeClip_inv in Hc as [-> Hc]. }
  destruct (tryFormats (cleaned s) now formats) as [d|] eqn:Hf; [|apply Hadd; lia].
  intros ->. revert Hf. generalize formats. intros fmts.
  induction fmts as [|fmt fmts IH]; cbn [tryFormats]; [discriminate|].
  destruct (parse (cleaned s) fmt now) as [tv|] eqn:Hp; [|exact IH].
  destruct (negb (includes "HH:mm" fmt)); intros Hr; injection Hr as Hr.
  - unfold setHours in Hr. now apply TimeClip_inv in Hr as [-> Hc].
  - subst tv. unfold parse in Hp.
    destruct (dateFnsParse (cleaned s) fmt now); [|discriminate].
    now apply TimeClip_inv in Hp as [-> Hc].
Qed.

(** C7.  ["tomorrow"] gives the reference plus one day, with the local
    time of day of the reference: the result is not moved to 23:59:59.  The
    dates built for ["today"] and for a text that fits one of the formats
    without a time are at 23:59:59, local time.  In general the result is
    the local time of the reference moved by one day; the distances in
    milliseconds are those of a zone of fixed offset. *)
Theorem parseDeadline_tomorrow (now : Z) :
  parseDeadlineAt now "tomorrow" = TimeClip (UTC (LocalTime now + msPerDay))
  /\ TimeWithinDay (LocalTime now + msPerDay) = TimeWithinDay (LocalTime now)
  /\ (forall tza, fixedOffset tza ->
        parseDeadlineAt now "tomorrow" = TimeClip (now + msPerDay)
        /\ localClockTime (now + msPerDay) = localClockTime now
        /\ (0 <= LocalTime now ->
            forall r, parseDeadlineAt now "today" = Some r ->
                      localClockTime r = (23, 59, 59))
        /\ (forall text r,
              parse text "dd/MM/yyyy HH:mm" now = None ->
              tryFormats text now formats = Some (Some r) ->
              localClockTime r = (23, 59, 59))).
Proof.
  assert (Htomorrow : parseDeadlineAt now "tomorrow"
                      = TimeClip (UTC (LocalTime now + msPerDay))).
  { rewrite parseDeadlineAt_cleaned.
    change (cleaned "tomorrow") with "tomorrow". cbn [String.eqb Ascii.eqb Bool.eqb].
    rewrite addDays_shift by lia. reflexivity. }
  split; [exact Htomorrow|]. split.
  { unfold TimeWithinDay, msPerDay. generalize (LocalTime now). intros z.
    Z.div_mod_to_equations. lia. }
  intros tza Hz. split; [|split; [|split]].
  - rewrite Htomorrow. now rewrite (UTC_LocalTime_fixed tza).
  - unfold localClockTime, LocalTime. rewrite !Hz.
    assert (Hh : HourFromTime (now + msPerDay + tza) = HourFromTime (now + tza)).
    { unfold HourFromTime, msPerDay, msPerHour. Z.div_mod_to_equations. lia. }
    assert (Hm : MinFromTime (now + msPerDay + tza) = MinFromTime (now + tza)).
    { unfold MinFromTime, msPerDay, msPerMinute. Z.div_mod_to_equations. lia. }
    assert (Hs : SecFromTime (now + msPerDay + tza) = SecFromTime (now + tza)).
    { unfold SecFromTime, msPerDay, msPerSecond. Z.div_mod_to_equations. lia. }
    now rewrite Hh, Hm, Hs.
  - intros Hnow r. rewrite parseDeadlineAt_cleaned.
    change (cleaned "today") with "today". rewrite String.eqb_refl.
    rewrite endOfToday by assumption. intros Hc.
    apply TimeClip_inv in Hc as [-> _].
    apply (localClockTime_endOfDay tza (Day (LocalTime now)) 0);
      [assumption | lia | f_equal; lia].
  - intros text r Hfirst. unfold formats. cbn [tryFormats]. rewrite Hfirst.
    assert (Hend : forall tv, setHours tv 23 59 59 = Some r ->
                              localClockTime r = (23, 59, 59)).
    { intros tv. rewrite setHours_endOfDay. intros Hc.
      apply TimeClip_inv in Hc as [-> _].
      apply (localClockTime_endOfDay tza (Day (LocalTime tv))
               (msFromTime (LocalTime tv))); [assumption | | reflexivity].
      unfold msFromTime, msPerSecond. Z.div_mod_to_equations. lia. }
    repeat match goal with
      | |- match parse ?a ?b ?c with _ => _ end = _ -> _ =>
          destruct (parse a b c) as [tv|];
          [cbn [includes startsWith negb orb andb Ascii.eqb Bool.eqb];
           intros Hr; injection Hr as Hr; exact (Hend _ Hr) |]
      end.
    discriminate.
Qed.

(** C3.  A text that is none of the four phrases, contains no
    [within <digits> hours] and fits none of the five formats gives what
    ["none"] gives: the reference moved by seven days, which is the
    reference plus seven times 24 hours in a zone of fixed offset. *)
Theorem parseDeadline_fallback (now : Z) (s : string) :
  cleaned s <> "today" ->
  cleaned s <> "tomorrow" ->
  cleaned s <> "day after tomorrow" ->
  cleaned s <> "none" ->
  (forall i digits, ~ withinHoursAt (cleaned s) i digits) ->
  (forall fmt, In fmt formats -> isValid (parse (cleaned s) fmt now) = false) ->
  parseDeadlineAt now s = addDays (Some now) 7
  /\ parseDeadlineAt now s = parseDeadlineAt now "none"
  /\ (forall tza, fixedOffset tza ->
        parseDeadlineAt now s = TimeClip (now + 7 * msPerDay)
        /\ (Z.abs (now + 7 * msPerDay) <= maxTime ->
            parseDeadlineAt now s = Some (now + 7 * msPerDay))).
Proof.
  intros H1 H2 H3 H4 Hwithin Hfmt.
  assert (Hs : parseDeadlineAt now s = addDays (Some now) 7).
  { rewrite parseDeadlineAt_cleaned.
    apply String.eqb_neq in H1, H2, H3, H4. rewrite H1, H2, H3, H4.
    apply matchWithinHours_none in Hwithin. rewrite Hwithin.
    now rewrite (tryFormats_none _ _ _ Hfmt). }
  split; [exact Hs|]. split.
  - rewrite Hs, (parseDeadlineAt_cleaned now "none").
    change (cleaned "none") with "none".
    cbn [String.eqb Ascii.eqb Bool.eqb]. reflexivity.
  - intros tza Hz. rewrite Hs, (addDays_fixed tza) by (assumption || lia).
    split; [reflexivity|]. intros Hr. now apply TimeClip_Some.
Qed.


End DeadlineFacts.

(** ** The response parser *)

Section ExtractionFacts.
Context `{Env}.
Import JSString.

Lemma field_fieldValue (subject : string) (lines : list string) (i : nat)
    (label fallback : string) :
  nth i labels EmptyString = label ->
  nth i (defaults subject) EmptyString = fallback ->
  field lines i label fallback = fieldValue subject lines i.
Proof.
  intros <- <-. unfold field, fieldValue, orElse.
  destruct (nth_error lines i) as [l|]; cbn [option_map]; [|reflexivity].
  now destruct (removeFirst (nth i labels "") l).
Qed.

(** What [extractInfoWithGemini] does, by outcome of the call. *)
Lemma extractInfoWithGemini_run (emailContent subject : string) (w : World) :
  exists r,
    extractInfoWithGemini emailContent subject w
    = (Normal r, {| ticks := ticks w; calls := S (calls w) |})
    /\ match generateContent (calls w) (prompt emailContent) with
       | Resolves (inr text) =>
           fieldsOf r
           = map (fieldValue subject (filter truthy (splitLines text))) (seq 0 8)
       | _ => r = fallbackRecord subject
       end.
Proof.
  unfold extractInfoWithGemini, tryCatch, bind, geminiGenerateContent, ofResult.
  destruct (generateContent (calls w) (prompt emailContent)) as [e|[e|text]].
  - eexists. split; reflexivity.
  - eexists. split; reflexivity.
  - eexists. split; [reflexivity|].
    unfold fieldsOf.
    cbn [map seq Extracted.eventType Extracted.subject
           Extracted.deadline Extracted.urgency Extracted.importance
           Extracted.score Extracted.registrationLink Extracted.summary].
    repeat (apply f_equal2; [now apply field_fieldValue|]). reflexivity.
Qed.

Lemma nth_fieldsOf (subject : string) (lines : list string) (r : Extracted.t) (i : nat) :
  fieldsOf r = map (fieldValue subject lines) (seq 0 8) ->
  (i < 8)%nat ->
  nth i (fieldsOf r) EmptyString = fieldValue subject lines i.
Proof.
  intros -> Hi.
  do 8 (destruct i as [|i]; [reflexivity|]). lia.
Qed.

Lemma fieldValue_nonempty (subject : string) (lines : list string) (i : nat) :
  subject <> EmptyString -> (i < 8)%nat ->
  fieldValue subject lines i <> EmptyString.
Proof.
  intros Hs Hi. unfold fieldValue.
  assert (Hd : nth i (defaults subject) "" <> "").
  { do 8 (destruct i as [|i]; [cbn; (assumption || discriminate)|]). lia. }
  destruct (nth_error lines i) as [l|]; [|exact Hd].
  destruct (removeFirst (nth i labels "") l); [exact Hd | discriminate].
Qed.

(** C4.  A response with fewer than eight lines still gives a record with
    all eight fields: field [i] is line [i] without its label, and the
    default of that field when the line is missing or nothing is left of it.
    The defaults are substituted field by field.  The lines are the
    non-empty lines of the text: for a text made of [n] lines joined by line
    feeds, those [n] lines. *)
Theorem extract_short_response (emailContent subject text : string) (w : World) :
  generateContent (calls w) (prompt emailContent) = Resolves (inr text) ->
  let lines := filter truthy (splitLines text) in
  exists r,
    fst (extractInfoWithGemini emailContent subject w) = Normal r
    /\ List.length (fieldsOf r) = 8%nat
    /\ (forall i, (i < 8)%nat ->
          nth i (fieldsOf r) EmptyString = fieldValue subject lines i)
    /\ (forall i, (List.length lines <= i < 8)%nat ->
          nth i (fieldsOf r) EmptyString = nth i (defaults subject) EmptyString)
    /\ (forall i l, (i < 8)%nat -> nth_error lines i = Some l ->
          removeFirst (nth i labels EmptyString) l = EmptyString ->
          nth i (fieldsOf r) EmptyString = nth i (defaults subject) EmptyString)
    /\ (forall i l, (i < 8)%nat -> nth_error lines i = Some l ->
          removeFirst (nth i labels EmptyString) l <> EmptyString ->
          nth i (fieldsOf r) EmptyString
          = removeFirst (nth i labels EmptyString) l)
    /\ (subject <> EmptyString ->
        forall i, (i < 8)%nat -> nth i (fieldsOf r) EmptyString <> EmptyString)
    /\ (forall ls,
          Forall (fun l => isLine l = true) ls ->
          text = String.concat (String LF EmptyString) ls ->
          lines = ls).
Proof.
  intros Hgen lines.
  destruct (extractInfoWithGemini_run emailContent subject w) as (r & Hrun & Hr).
  rewrite Hgen in Hr. fold lines in Hr.
  exists r. split; [now rewrite Hrun|]. split; [reflexivity|].
  assert (Hnth : forall i, (i < 8)%nat ->
                   nth i (fieldsOf r) "" = fieldValue subject lines i)
    by (intros i Hi; now apply nth_fieldsOf).
  split; [exact Hnth|]. split; [|split; [|split; [|split]]].
  - intros i [Hlen Hi]. rewrite (Hnth i Hi). unfold fieldValue.
    now rewrite (proj2 (nth_error_None lines i) Hlen).
  - intros i l Hi Hl Hempty. rewrite (Hnth i Hi). unfold fieldValue.
    now rewrite Hl, Hempty.
  - intros i l Hi Hl Hrest. rewrite (Hnth i Hi). unfold fieldValue.
    rewrite Hl. now destruct (removeFirst (nth i labels "") l).
  - intros Hs i Hi. rewrite (Hnth i Hi). now apply fieldValue_nonempty.
  - intros ls Hls ->. subst lines. now apply lines_of_concat.
Qed.

(** C10.  The parser substitutes the default of a field only when its line
    is missing or empty once the first occurrence of its label is removed.
    A line in which the label occurs is stored without the leftmost
    occurrence, wherever it stands, the rest of the line kept; a line in
    which the label does not occur is stored as it is.  These are all the
    cases.  So the urgency and importance fields take whatever stands on the
    fourth and fifth lines: any line can end up there, also one that is none
    of high, medium, low. *)
Theorem extract_keeps_unlabelled_lines (emailContent subject text : string) (w : World) :
  generateContent (calls w) (prompt emailContent) = Resolves (inr text) ->
  let lines := filter truthy (splitLines text) in
  exists r,
    fst (extractInfoWithGemini emailContent subject w) = Normal r
    /\ (forall i, (i < 8)%nat -> nth_error lines i = None ->
          nth i (fieldsOf r) EmptyString = nth i (defaults subject) EmptyString)
    /\ (forall i l pre post, (i < 8)%nat -> nth_error lines i = Some l ->
          firstOccurrence (nth i labels EmptyString) l pre post ->
          (pre ++ post = EmptyString ->
           nth i (fieldsOf r) EmptyString = nth i (defaults subject) EmptyString)
          /\ (pre ++ post <> EmptyString ->
              nth i (fieldsOf r) EmptyString = pre ++ post))
    /\ (forall i l, (i < 8)%nat -> nth_error lines i = Some l ->
          ~ occursIn (nth i labels EmptyString) l ->
          l <> EmptyString /\ nth i (fieldsOf r) EmptyString = l)
    /\ (forall i l, (i < 8)%nat -> nth_error lines i = Some l ->
          (exists pre post, firstOccurrence (nth i labels EmptyString) l pre post)
          \/ ~ occursIn (nth i labels EmptyString) l)
    /\ (forall l, nth_error lines 3 = Some l ->
          ~ occursIn "Urgency: " l ->
          Extracted.urgency r = l /\ (~ In l hints -> ~ In (Extracted.urgency r) hints))
    /\ (forall l, nth_error lines 4 = Some l ->
          ~ occursIn "Importance: " l ->
          Extracted.importance r = l
          /\ (~ In l hints -> ~ In (Extracted.importance r) hints)).
Proof.
  intros Hgen lines.
  destruct (extractInfoWithGemini_run emailContent subject w) as (r & Hrun & Hr).
  rewrite Hgen in Hr. fold lines in Hr.
  assert (Hnth : forall i, (i < 8)%nat ->
                   nth i (fieldsOf r) "" = fieldValue subject lines i)
    by (intros i Hi; now apply nth_fieldsOf).
  assert (Hkeep : forall i l, (i < 8)%nat -> nth_error lines i = Some l ->
                    ~ occursIn (nth i labels "") l ->
                    l <> "" /\ nth i (fieldsOf r) "" = l).
  { intros i l Hi Hl Habs.
    assert (Hin : In l lines) by (eapply nth_error_In; eassumption).
    apply filter_In in Hin as [_ Ht].
    split; [now destruct l|]. rewrite (Hnth i Hi). unfold fieldValue.
    rewrite Hl, removeFirst_absent; [now destruct l|].
    destruct (includes (nth i labels "") l) eqn:Hinc; [|reflexivity].
    destruct Habs. now apply includes_occursIn. }
  exists r. split; [now rewrite Hrun|].
  split; [|split; [|split; [exact Hkeep|split; [|split]]]].
  - intros i Hi Hl. rewrite (Hnth i Hi). unfold fieldValue. now rewrite Hl.
  - intros i l pre post Hi Hl Hfirst. rewrite (Hnth i Hi). unfold fieldValue.
    rewrite Hl, (removeFirst_firstOccurrence _ _ _ _ Hfirst).
    split; [now intros ->|]. intros Hrest. now destruct (pre ++ post).
  - intros i l _ _. apply occurrence_cases.
  - intros l Hl Habs.
    assert (Hu : Extracted.urgency r = l) by (apply (Hkeep 3%nat l); auto; lia).
    split; [exact Hu | now rewrite Hu].
  - intros l Hl Habs.
    assert (Hi : Extracted.importance r = l) by (apply (Hkeep 4%nat l); auto; lia).
    split; [exact Hi | now rewrite Hi].
Qed.

(** C2, as the code has it.  [extractInfoWithGemini] never throws.  When
    the call of the model rejects, or reading the text of the response
    throws, it returns the all-defaults record made of the subject.  A
    response whose text is merely not in the format asked for is no failure:
    it is read line by line, with the defaults of the fields. *)
Theorem extract_never_throws (emailContent subject : string) (w : World) :
  (exists r, fst (extractInfoWithGemini emailContent subject w) = Normal r)
  /\ (forall e,
        generateContent (calls w) (prompt emailContent) = Rejects e
        \/ generateContent (calls w) (prompt emailContent) = Resolves (inl e) ->
        fst (extractInfoWithGemini emailContent subject w)
        = Normal (fallbackRecord subject))
  /\ (forall text,
        generateContent (calls w) (prompt emailContent) = Resolves (inr text) ->
        exists r,
          fst (extractInfoWithGemini emailContent subject w) = Normal r
          /\ forall i, (i < 8)%nat ->
               nth i (fieldsOf r) EmptyString
               = fieldValue subject (filter truthy (splitLines text)) i).
Proof.
  destruct (extractInfoWithGemini_run emailContent subject w) as (r & Hrun & Hr).
  split; [exists r; now rewrite Hrun|]. split.
  - intros e [He|He]; rewrite He in Hr; rewrite Hrun; now subst r.
  - intros text Ht. rewrite Ht in Hr. exists r. split; [now rewrite Hrun|].
    intros i Hi. now apply nth_fieldsOf.
Qed.

End ExtractionFacts.

(** ** The batch *)

Section PipelineFacts.
Context `{Env}.
Import JSString ESDate DateFns.

Lemma worldAt_0 (w : World) : worldAt w 0 = w.
Proof.
  destruct w as [t c]. unfold worldAt. cbn [ticks calls]. f_equal; lia.
Qed.

Lemma worldAt_S (w : World) (j : nat) :
  worldAt {| ticks := S (S (ticks w)); calls := S (calls w) |} j = worldAt w (S j).
Proof. unfold worldAt. cbn [ticks calls]. f_equal; lia. Qed.

(** One iteration: the extraction, then normalisation with one reading of
    the clock and classification with the next one. *)
Lemma processEmail_run (email : Gmail.Email) (w : World) (body : string) :
  bodyOf email = inr body ->
  exists e,
    fst (extractInfoWithGemini body (subjectOf email) w) = Normal e
    /\ processEmail email w
       = (assemble (clock (ticks w)) (clock (S (ticks w))) e,
          {| ticks := S (S (ticks w)); calls := S (calls w) |}).
Proof.
  intros Hbody.
  destruct (extractInfoWithGemini_run body (subjectOf email) w)
    as (e & Hrun & _).
  exists e. split; [now rewrite Hrun|].
  unfold processEmail, bind. rewrite Hbody. cbn [ofResult ret]. rewrite Hrun.
  rewrite parseDeadline_run. cbn [ticks calls].
  rewrite categorizeTask_run. cbn [ticks calls].
  unfold assemble, ofResult.
  destruct (toISOString (parseDeadlineAt (clock (ticks w)) (Extracted.deadline e)));
    reflexivity.
Qed.

(** An iteration that cannot read the content of its email ends with the
    error, before the clock and the model are used. *)
Lemma processEmail_unreadable (email : Gmail.Email) (w : World) (exn : Exception) :
  bodyOf email = inl exn -> processEmail email w = (Throw exn, w).
Proof.
  intros Hbody. unfold processEmail, bind. now rewrite Hbody.
Qed.

Lemma processEmail_readable (email : Gmail.Email) (w : World) (task : Task.t) :
  fst (processEmail email w) = Normal task -> exists body, bodyOf email = inr body.
Proof.
  destruct (bodyOf email) as [exn|body] eqn:Hbody; [|now exists body].
  now rewrite (processEmail_unreadable _ _ _ Hbody).
Qed.

(** The loop: the tasks of the emails are appended in order, each email
    being processed in the world left by the ones before it. *)
Lemma processEmailsFrom_run (emails : list Gmail.Email) :
  forall (acc : list Task.t) (w : World) (tasks : list Task.t) (w' : World),
    processEmailsFrom acc emails w = (Normal tasks, w') ->
    exists new,
      tasks = (acc ++ new)%list
      /\ List.length new = List.length emails
      /\ forall j email,
           nth_error emails j = Some email ->
           exists task,
             nth_error new j = Some task
             /\ fst (processEmail email (worldAt w j)) = Normal task.
Proof.
  induction emails as [|email rest IH]; intros acc w tasks w' Hrun.
  - cbn in Hrun. injection Hrun as <- _. exists []. rewrite app_nil_r.
    repeat split. intros [|j] email; discriminate.
  - cbn [processEmailsFrom] in Hrun. unfold bind in Hrun.
    destruct (bodyOf email) as [exn|body] eqn:Hbody;
      [rewrite (processEmail_unreadable _ _ _ Hbody) in Hrun; discriminate|].
    destruct (processEmail_run email w body Hbody) as (e & _ & Hstep).
    rewrite Hstep in Hrun.
    destruct (assemble (clock (ticks w)) (clock (S (ticks w))) e) as [task|exn] eqn:Ha;
      [|discriminate].
    destruct (IH _ _ _ _ Hrun) as (new & -> & Hlen & Hnth).
    exists (task :: new). rewrite <- app_assoc. split; [reflexivity|].
    split; [cbn; now rewrite Hlen|].
    intros [|j] email' Hj.
    + injection Hj as <-. exists task. split; [reflexivity|].
      now rewrite worldAt_0, Hstep.
    + destruct (Hnth j email' Hj) as (task' & Hnew & Hp).
      exists task'. split; [exact Hnew|]. now rewrite <- worldAt_S.
Qed.

(** When every iteration returns, the loop returns one task per email. *)
Lemma processEmailsFrom_returns (emails : list Gmail.Email) :
  forall (acc : list Task.t) (w : World),
    (forall j email,
        nth_error emails j = Some email ->
        exists task, fst (processEmail email (worldAt w j)) = Normal task) ->
    exists new,
      processEmailsFrom acc emails w
      = (Normal (acc ++ new)%list, worldAt w (List.length emails))
      /\ List.length new = List.length emails.
Proof.
  induction emails as [|email rest IH]; intros acc w Hall.
  - exists []. cbn [processEmailsFrom List.length]. unfold ret.
    now rewrite app_nil_r, worldAt_0.
  - destruct (Hall 0%nat email eq_refl) as (task & Ht).
    rewrite worldAt_0 in Ht.
    destruct (processEmail_readable _ _ _ Ht) as (body & Hbody).
    destruct (processEmail_run email w body Hbody) as (e & _ & Hstep).
    rewrite Hstep in Ht. cbn [fst] in Ht.
    destruct (IH (acc ++ [task])%list
                {| ticks := S (S (ticks w)); calls := S (calls w) |})
      as (new & Hrun & Hlen).
    { intros j email' Hj. rewrite worldAt_S. exact (Hall (S j) email' Hj). }
    exists (task :: new). cbn [processEmailsFrom]. unfold bind.
    rewrite Hstep, Ht, Hrun, worldAt_S, <- app_assoc.
    split; [reflexivity | cbn; now rewrite Hlen].
Qed.

(** An email whose extraction fails still gives a task: the all-defaults
    record, due seven days after the reading of the clock. *)
Lemma failed_extraction_gives_task (email : Gmail.Email) (w : World) (body : string)
    (exn : Exception) :
  bodyOf email = inr body ->
  generateContent (calls w) (prompt body) = Rejects exn ->
  Z.abs (UTC (LocalTime (clock (ticks w)) + 7 * msPerDay)) <= maxTime ->
  exists task,
    fst (processEmail email w) = Normal task
    /\ Task.subject task = subjectOf email
    /\ Task.summary task = "Could not extract information.".
Proof.
  intros Hbody Hgen Hrange.
  destruct (extractInfoWithGemini_run body (subjectOf email) w)
    as (e & Hrun & He).
  rewrite Hgen in He. subst e.
  destruct (processEmail_run email w body Hbody) as (e & Hex & Hstep).
  rewrite Hrun in Hex. cbn [fst] in Hex. injection Hex as <-.
  rewrite Hstep. cbn [fst]. unfold assemble.
  cbn [Extracted.deadline fallbackRecord].
  rewrite (parseDeadlineAt_cleaned _ "none").
  change (cleaned "none") with "none". cbn [String.eqb Ascii.eqb Bool.eqb].
  rewrite addDays_shift by lia. rewrite TimeClip_Some by exact Hrange.
  cbn [toISOString]. eexists. split; [reflexivity|]. split; reflexivity.
Qed.

(** A task is the serialisation of a valid deadline. *)
Lemma assemble_Normal (refN refC : Z) (e : Extracted.t) (task : Task.t) :
  assemble refN refC e = Normal task ->
  exists t,
    parseDeadlineAt refN (Extracted.deadline e) = Some t
    /\ task = taskOf e (isoString t) (categorizeTaskAt refC e (Some t)).
Proof.
  unfold assemble.
  destruct (parseDeadlineAt refN (Extracted.deadline e)) as [t|];
    cbn [toISOString]; [|discriminate].
  intros Ht. injection Ht as <-. now exists t.
Qed.

(** C6, as the code has it.  No reference instant is passed around:
    [parseDeadline] and [categorizeTask] read the clock themselves.  In a
    run that returns, the task of the [j]-th email is made with the reading
    number [2j] of the run for the normalisation and the reading number
    [2j+1] for the classification; when the two readings are the same
    instant, the task is the one a single reference gives. *)
Theorem references_are_clock_readings (emails : list Gmail.Email) (w : World)
    (tasks : list Task.t) (w' : World) :
  processEmails emails w = (Normal tasks, w') ->
  List.length tasks = List.length emails
  /\ forall j email,
       nth_error emails j = Some email ->
       exists body e task,
         bodyOf email = inr body
         /\ fst (extractInfoWithGemini body (subjectOf email) (worldAt w j))
            = Normal e
         /\ nth_error tasks j = Some task
         /\ assemble (clock (ticks w + 2 * j)) (clock (ticks w + 2 * j + 1)) e
            = Normal task
         /\ (clock (ticks w + 2 * j) = clock (ticks w + 2 * j + 1) ->
             assemble (clock (ticks w + 2 * j)) (clock (ticks w + 2 * j)) e
             = Normal task).
Proof.
  intros Hrun. unfold processEmails in Hrun.
  destruct (processEmailsFrom_run _ _ _ _ _ Hrun) as (new & -> & Hlen & Hnth).
  cbn [app]. split; [exact Hlen|].
  intros j email Hj. destruct (Hnth j email Hj) as (task & Hnew & Hp).
  destruct (processEmail_readable _ _ _ Hp) as (body & Hbody).
  destruct (processEmail_run email (worldAt w j) body Hbody) as (e & He & Hstep).
  rewrite Hstep in Hp. cbn [fst worldAt ticks] in Hp.
  replace (S (ticks w + 2 * j))%nat with (ticks w + 2 * j + 1)%nat in Hp by lia.
  exists body, e, task. repeat split; try assumption.
  intros Heq. now rewrite Heq at 2.
Qed.

(** C8.  The deadline of every task returned is the serialisation of the
    instant [parseDeadline] computed for its email, and reading the string
    back gives that instant, to the millisecond. *)
Theorem deadline_round_trip (emails : list Gmail.Email) (w : World)
    (tasks : list Task.t) (w' : World) :
  processEmails emails w = (Normal tasks, w') ->
  forall j task,
    nth_error tasks j = Some task ->
    exists email body e t,
      nth_error emails j = Some email
      /\ bodyOf email = inr body
      /\ fst (extractInfoWithGemini body (subjectOf email) (worldAt w j))
         = Normal e
      /\ parseDeadlineAt (clock (ticks w + 2 * j)) (Extracted.deadline e) = Some t
      /\ Task.deadline task = isoString t
      /\ ESDate.parse (Task.deadline task) = Some t.
Proof.
  intros Hrun j task Hj. unfold processEmails in Hrun.
  destruct (processEmailsFrom_run _ _ _ _ _ Hrun) as (new & -> & Hlen & Hnth).
  cbn [app] in Hj.
  assert (Hlt : (j < List.length emails)%nat).
  { rewrite <- Hlen. apply nth_error_Some. congruence. }
  destruct (nth_error emails j) as [email|] eqn:He;
    [|apply nth_error_None in He; lia].
  destruct (Hnth j email He) as (task' & Hnew & Hp).
  assert (task' = task) by congruence. subst task'.
  destruct (processEmail_readable _ _ _ Hp) as (body & Hbody).
  destruct (processEmail_run email (worldAt w j) body Hbody) as (e & Hex & Hstep).
  rewrite Hstep in Hp. cbn [fst worldAt ticks] in Hp.
  apply assemble_Normal in Hp as (t & Ht & ->).
  exists email, body, e, t. repeat split; try assumption.
  cbn [taskOf Task.deadline]. apply parse_isoString.
  exact (parseDeadlineAt_range _ _ _ Ht).
Qed.

End PipelineFacts.

(** ** The properties on concrete runs *)

Section Instances.
Import JSString ESDate DateFns Sample.


(** An hour before the deadline, high importance: Urgent and nothing else. *)
Lemma categorizeTask_branches_witness :
  categorizeTaskAt noon flagged (Some (noon + msPerHour)) = Urgent
  /\ categorizeTaskAt noon flagged (Some (noon - 5 * msPerHour)) = Urgent.
Proof.
  pose proof (categorizeTask_branches (H := outOfService) noon (noon + msPerHour) flagged)
    as Hsoon.
  pose proof (categorizeTask_branches (H := outOfService) noon (noon - 5 * msPerHour) flagged)
    as Hpast.
  cbv zeta in Hsoon, Hpast.
  destruct Hsoon as (_ & _ & _ & Hboth & _).
  destruct Hpast as (_ & _ & _ & _ & Hlate & _).
  split.
  - apply Hboth; [vm_compute; discriminate | reflexivity].
  - apply Hlate. vm_compute. discriminate.
Defined.

(** At noon UTC in Kolkata (17:30 local): tomorrow is 24 hours later, today
    ends at 23:59:59 local time. *)
Lemma parseDeadline_tomorrow_witness :
  @parseDeadlineAt kolkata noon "tomorrow" = Some (noon + msPerDay)
  /\ @localClockTime kolkata (noon + msPerDay) = (17, 30, 0)
  /\ exists r, @parseDeadlineAt kolkata noon "today" = Some r
               /\ @localClockTime kolkata r = (23, 59, 59).
Proof.
  destruct (parseDeadline_tomorrow (H := kolkata) noon) as (_ & _ & Hfixed).
  destruct (Hfixed 19800000 (fun _ _ => eq_refl))
    as (Htomorrow & Hclock & Htoday & _).
  split; [rewrite Htomorrow; reflexivity|]. split; [rewrite Hclock; reflexivity|].
  exists 1749925799000. split; [reflexivity|].
  apply Htoday; [vm_compute; discriminate | reflexivity].
Defined.

Lemma parseDeadline_fallback_witness :
  @parseDeadlineAt kolkata noon "  Whenever you can " = Some (noon + 7 * msPerDay).
Proof.
  refine (proj2 (proj2 (proj2 (parseDeadline_fallback (H := kolkata) noon
                                 "  Whenever you can " _ _ _ _ _ _))
                        19800000 (fun _ _ => eq_refl)) _).
  - vm_compute. discriminate.
  - vm_compute. discriminate.
  - vm_compute. discriminate.
  - vm_compute. discriminate.
  - apply matchWithinHours_none. reflexivity.
  - intros fmt Hin. unfold formats in Hin. cbn [In] in Hin.
    repeat destruct Hin as [<-|Hin]; try reflexivity. contradiction.
  - vm_compute. discriminate.
Defined.


(** Three lines, the second one with nothing after its label. *)
Lemma extract_short_response_witness :
  exists r,
    fst (@extractInfoWithGemini threeLines "Q2FsbA==" "Team hackathon" world0)
    = Normal r
    /\ fieldsOf r = ["Hackathon"; "Team hackathon"; "tomorrow"; "low"; "low";
                     "none"; "none"; "No summary."].
Proof.
  destruct (extract_short_response (H := threeLines) "Q2FsbA==" "Team hackathon"
              _ world0 eq_refl) as (r & Hr & _ & Hnth & _).
  exists r. split; [exact Hr|].
  pose proof (Hnth 0%nat ltac:(lia)) as H0. pose proof (Hnth 1%nat ltac:(lia)) as H1.
  pose proof (Hnth 2%nat ltac:(lia)) as H2. pose proof (Hnth 3%nat ltac:(lia)) as H3.
  pose proof (Hnth 4%nat ltac:(lia)) as H4. pose proof (Hnth 5%nat ltac:(lia)) as H5.
  pose proof (Hnth 6%nat ltac:(lia)) as H6. pose proof (Hnth 7%nat ltac:(lia)) as H7.
  cbn [nth fieldsOf] in H0, H1, H2, H3, H4, H5, H6, H7.
  unfold fieldsOf. rewrite H0, H1, H2, H3, H4, H5, H6, H7. reflexivity.
Defined.

(** The lines in another order: the urgency field holds the summary line.
    Labels doubled, alone, misplaced or absent: the first occurrence only
    is removed, also from the middle of its line; the default stands in for
    a line that is empty without its label and for a missing line; a line
    without its label is kept whole. *)
Lemma extract_keeps_unlabelled_lines_witness :
  (exists r,
     fst (@extractInfoWithGemini reordered "Q2FsbA==" "Review" world0) = Normal r
     /\ Extracted.urgency r = "Summary: Bring the figures."
     /\ ~ In (Extracted.urgency r) hints)
  /\ (exists r,
        fst (@extractInfoWithGemini misplaced "Q2FsbA==" "Review" world0) = Normal r
        /\ Extracted.eventType r = "Event Type: Meeting"
        /\ Extracted.subject r = "Review"
        /\ Extracted.urgency r = "Very high"
        /\ Extracted.importance r = "Summary: Bring the figures."
        /\ Extracted.registrationLink r = "none").
Proof.
  split.
  - destruct (extract_keeps_unlabelled_lines (H := reordered) "Q2FsbA==" "Review"
                _ world0 eq_refl) as (r & Hr & _ & _ & _ & _ & Hu & _).
    exists r. split; [exact Hr|].
    destruct (Hu "Summary: Bring the figures." eq_refl) as [Heq Hout].
    { intros Hocc. apply includes_occursIn in Hocc. discriminate Hocc. }
    split; [exact Heq|]. apply Hout.
    unfold hints. cbn [In]. intros [Hc|[Hc|[Hc|Hc]]]; try discriminate Hc. exact Hc.
  - destruct (extract_keeps_unlabelled_lines (H := misplaced) "Q2FsbA==" "Review"
                _ world0 eq_refl) as (r & Hr & Hmissing & Hfirst & Hkeep & _).
    exists r. split; [exact Hr|]. split; [|split; [|split; [|split]]].
    + refine (proj2 (Hfirst 0%nat _ EmptyString "Event Type: Meeting"
                       ltac:(lia) eq_refl _) _); [|discriminate].
      split; [reflexivity|]. intros pre' post' _. cbn. lia.
    + refine (proj1 (Hfirst 1%nat _ EmptyString EmptyString ltac:(lia) eq_refl _)
                eq_refl).
      split; [reflexivity|]. intros pre' post' _. cbn. lia.
    + refine (proj2 (Hfirst 3%nat _ "Very " "high" ltac:(lia) eq_refl _) _);
        [|discriminate].
      split; [reflexivity|]. intros pre' post' Heq. cbn [nth labels] in Heq.
      do 5 (destruct pre' as [|? pre']; [cbn in Heq; discriminate Heq|]).
      cbn. lia.
    + apply (Hkeep 4%nat "Summary: Bring the figures." ltac:(lia) eq_refl).
      intros Hocc. apply includes_occursIn in Hocc. discriminate Hocc.
    + exact (Hmissing 6%nat ltac:(lia) eq_refl).
Defined.

(** The model is out of service: the all-defaults record. *)
Lemma extract_never_throws_witness :
  fst (@extractInfoWithGemini outOfService "Q2FsbA==" "Lunch on Friday" world0)
  = Normal (fallbackRecord "Lunch on Friday").
Proof.
  destruct (extract_never_throws (H := outOfService) "Q2FsbA==" "Lunch on Friday" world0)
    as (_ & Hfail & _).
  apply (Hfail (Error "fetch failed")). left. reflexivity.
Defined.

(** C2, counterexample.  A refusal is a malformed response; the record
    returned is not the all-defaults record: its event type is the refusal
    and its summary is "No summary.". *)
Lemma malformed_response_is_not_fallback :
  ~ (forall (E : Env) (emailContent subject text : string) (w : World),
       @generateContent E (calls w) (prompt emailContent) = Resolves (inr text) ->
       wellFormed text = false ->
       fst (@extractInfoWithGemini E emailContent subject w)
       = Normal (fallbackRecord subject)).
Proof.
  intros Hall.
  specialize (Hall refusing "Q2FsbA==" "Lunch on Friday" _ world0 eq_refl eq_refl).
  vm_compute in Hall. discriminate.
Qed.

Lemma ticking_run :
  @processEmails ticking [bankEmail] world0
  = (Normal [bankTask], {| ticks := 2; calls := 1 |}).
Proof. vm_compute. reflexivity. Qed.

(** Readings 0 and 1 of the clock, a millisecond apart. *)
Lemma references_are_clock_readings_witness :
  exists e,
    @assemble ticking (@clock ticking 0) (@clock ticking 1) e = Normal bankTask.
Proof.
  destruct (references_are_clock_readings (H := ticking) _ _ _ _ ticking_run)
    as [_ Hj].
  destruct (Hj 0%nat bankEmail eq_refl) as (body & e & task & _ & _ & Hnth & Ha & _).
  exists e. injection Hnth as <-. exact Ha.
Defined.

Lemma deadline_round_trip_witness :
  exists t,
    Task.deadline bankTask = isoString t
    /\ ESDate.parse (Task.deadline bankTask) = Some t.
Proof.
  destruct (deadline_round_trip (H := ticking) _ _ _ _ ticking_run 0%nat bankTask eq_refl)
    as (email & body & e & t & _ & _ & _ & _ & Hiso & Hparse).
  exists t. split; assumption.
Defined.

(** C6, counterexample.  The clock advances by a millisecond between the
    two readings and the deadline is "within 25 hours": the deadline is 25
    hours after the first reading, but the task is Urgent, which is what 24
    whole hours left give; with any single reference it would be
    Important. *)
Lemma single_reference_refuted :
  ~ (forall (E : Env) (email : Gmail.Email) (w : World) (body : string),
       @bodyOf E email = inr body ->
       exists ref e,
         fst (@extractInfoWithGemini E body (subjectOf email) w) = Normal e
         /\ fst (@processEmail E email w) = @assemble E ref ref e).
Proof.
  intros Hall.
  destruct (Hall ticking bankEmail world0 "Q2FsbA==" eq_refl)
    as (ref & e & He & Hrun).
  assert (Hex : fst (@extractInfoWithGemini ticking "Q2FsbA=="
                       (subjectOf bankEmail) world0) = Normal bankExtraction)
    by (vm_compute; reflexivity).
  rewrite Hex in He. injection He as <-.
  assert (Hp : fst (@processEmail ticking bankEmail world0) = Normal bankTask)
    by (vm_compute; reflexivity).
  rewrite Hp in Hrun. symmetry in Hrun.
  apply assemble_Normal in Hrun as (t & Ht & Htask).
  assert (Hd : @parseDeadlineAt ticking ref "within 25 hours"
               = TimeClip (ref + 25 * msPerHour)) by reflexivity.
  cbn [Extracted.deadline bankExtraction] in Ht. rewrite Hd in Ht.
  apply TimeClip_inv in Ht as [-> Hrange].
  injection Htask as Hiso Hprio.
  apply (f_equal ESDate.parse) in Hiso.
  rewrite parse_isoString in Hiso by exact Hrange.
  assert (Hread : ESDate.parse "2025-06-15T13:00:00.000Z" = Some 1749992400000)
    by (vm_compute; reflexivity).
  rewrite Hread in Hiso. injection Hiso as Hiso.
  assert (Href : ref = noon) by (unfold msPerHour in Hiso; unfold noon; lia).
  subst ref. vm_compute in Hprio. discriminate.
Qed.

(** C5, the failing run.  The model gives "within 99999999999 hours" for
    the second of three emails: that deadline is beyond the range of Date,
    [parseDeadline] returns an Invalid Date, [toISOString] throws and
    [processEmails] ends with the exception, without any task; the batch
    cut after its first email returns the task of that email. *)
Theorem processEmails_throws_on_far_deadline :
  @parseDeadlineAt farDeadline (@clock farDeadline 2) "within 99999999999 hours"
  = None
  /\ fst (@processEmails farDeadline threeEmails world0)
     = Throw (RangeError "Invalid time value")
  /\ (exists task,
        fst (@processEmails farDeadline (firstn 1 threeEmails) world0)
        = Normal [task]).
Proof.
  split; [vm_compute; reflexivity|]. split; [vm_compute; reflexivity|].
  eexists. vm_compute. reflexivity.
Qed.

End Instances.

(* ================================================================= *)
(** * Further properties of the code *)

(** ** Cleaning of the deadline text *)

Section CleaningFacts.
Import JSString.

Lemma toLowerChar_idempotent (c : ascii) : toLowerChar (toLowerChar c) = toLowerChar c.
Proof. destruct c as [[] [] [] [] [] [] [] []]; reflexivity. Qed.

Lemma isWhiteSpace_toLowerChar (c : ascii) :
  isWhiteSpace (toLowerChar c) = isWhiteSpace c.
Proof. destruct c as [[] [] [] [] [] [] [] []]; reflexivity. Qed.

Lemma toLowerCase_idempotent (s : string) : toLowerCase (toLowerCase s) = toLowerCase s.
Proof.
  induction s as [|c s IH]; cbn [toLowerCase]; [reflexivity|].
  now rewrite toLowerChar_idempotent, IH.
Qed.

Lemma toLowerCase_append (a b : string) :
  toLowerCase (a ++ b) = toLowerCase a ++ toLowerCase b.
Proof.
  induction a as [|c a IH]; cbn [toLowerCase append]; [reflexivity|].
  now rewrite IH.
Qed.

Lemma allWhiteSpace_toLowerCase (s : string) :
  allWhiteSpace (toLowerCase s) = allWhiteSpace s.
Proof.
  induction s as [|c s IH]; cbn [toLowerCase allWhiteSpace]; [reflexivity|].
  now rewrite isWhiteSpace_toLowerChar, IH.
Qed.

Lemma trimStart_white (pre s : string) :
  allWhiteSpace pre = true -> trimStart (pre ++ s) = trimStart s.
Proof.
  induction pre as [|c pre IH]; cbn [allWhiteSpace append]; [reflexivity|].
  intros Hw. apply andb_true_iff in Hw as [Hc Hw].
  cbn [trimStart]. rewrite Hc. exact (IH Hw).
Qed.

Lemma trimEnd_all_white (post : string) :
  allWhiteSpace post = true -> trimEnd post = EmptyString.
Proof.
  induction post as [|c post IH]; cbn [allWhiteSpace trimEnd]; [reflexivity|].
  intros Hw. apply andb_true_iff in Hw as [Hc Hw].
  now rewrite (IH Hw), Hc.
Qed.

Lemma trimEnd_white (s post : string) :
  allWhiteSpace post = true -> trimEnd (s ++ post) = trimEnd s.
Proof.
  intros Hw. induction s as [|c s IH]; cbn [append].
  - now apply trimEnd_all_white.
  - cbn [trimEnd]. now rewrite IH.
Qed.

Lemma trimStart_append (s post : string) :
  allWhiteSpace post = true ->
  trimStart (s ++ post) = trimStart s ++ post
  \/ (trimStart s = EmptyString /\ trimStart (s ++ post) = EmptyString).
Proof.
  intros Hw. induction s as [|c s IH]; cbn [append trimStart].
  - right. split; [reflexivity|].
    rewrite <- (append_empty_r post). rewrite trimStart_white by assumption.
    reflexivity.
  - destruct (isWhiteSpace c); [exact IH | now left].
Qed.

Lemma trim_white (pre s post : string) :
  allWhiteSpace pre = true -> allWhiteSpace post = true ->
  trim (pre ++ s ++ post) = trim s.
Proof.
  intros Hpre Hpost. unfold trim. rewrite trimStart_white by assumption.
  destruct (trimStart_append s post Hpost) as [Heq|[He Heq]]; rewrite Heq.
  - now apply trimEnd_white.
  - now rewrite He.
Qed.

End CleaningFacts.

(** ** More on the deadline parser and the classifier *)

Section PhraseFacts.
Context `{Env}.
Import JSString ESDate DateFns.

Lemma parseDeadlineAt_same_cleaned (now : Z) (a b : string) :
  cleaned a = cleaned b -> parseDeadlineAt now a = parseDeadlineAt now b.
Proof.
  intros Hab. rewrite !parseDeadlineAt_cleaned. now rewrite Hab.
Qed.

(** X1.  White space around the deadline text and the case of its letters
    do not matter to [parseDeadline]. *)
Theorem parseDeadline_ignores_margins_and_case (now : Z) (pre s post : string) :
  allWhiteSpace pre = true ->
  allWhiteSpace post = true ->
  parseDeadlineAt now (pre ++ s ++ post) = parseDeadlineAt now (toLowerCase s).
Proof.
  intros Hpre Hpost. apply parseDeadlineAt_same_cleaned. unfold cleaned.
  rewrite !toLowerCase_append, toLowerCase_idempotent.
  apply trim_white; now rewrite allWhiteSpace_toLowerCase.
Qed.

Lemma hoursLeft_bound (now now' t k : Z) :
  t <= now + k * msPerHour -> now <= now' ->
  Z.quot (t - now') msPerHour <= k.
Proof.
  intros Ht Hn.
  rewrite <- (Z.quot_mul k msPerHour) by (unfold msPerHour; lia).
  apply Z.quot_le_mono; unfold msPerHour in *; lia.
Qed.

Lemma categorizeTaskAt_urgent (now : Z) (e : Extracted.t) (t : Z) :
  Z.quot (t - now) msPerHour <= 24 -> categorizeTaskAt now e (Some t) = Urgent.
Proof.
  intros Hh. unfold categorizeTaskAt, differenceInHours, leNumber.
  destruct (Z.leb_spec (Z.quot (t - now) msPerHour) 24); [reflexivity | lia].
Qed.


(** The label when the time decides nothing: the hints alone. *)
Lemma categorizeTaskAt_far (now : Z) (e : Extracted.t) (t : Z) :
  72 < Z.quot (t - now) msPerHour ->
  categorizeTaskAt now e (Some t) = categorizeTaskAt now e None.
Proof.
  intros Hh. unfold categorizeTaskAt, differenceInHours, leNumber.
  destruct (Z.leb_spec (Z.quot (t - now) msPerHour) 24); [lia|].
  destruct (Z.leb_spec (Z.quot (t - now) msPerHour) 72); [lia|].
  reflexivity.
Qed.

(** X2.  The label never gets less pressing when the deadline moves
    earlier or when the clock moves on. *)
Theorem categorizeTask_monotone (now now' t t' : Z) (e : Extracted.t) :
  t' <= t -> now <= now' ->
  (urgencyRank (categorizeTaskAt now e (Some t))
   <= urgencyRank (categorizeTaskAt now' e (Some t')))%nat.
Proof.
  intros Ht Hn.
  assert (Hq : Z.quot (t' - now') msPerHour <= Z.quot (t - now) msPerHour)
    by (apply Z.quot_le_mono; unfold msPerHour; lia).
  unfold categorizeTaskAt, differenceInHours, leNumber.
  destruct (Z.leb_spec (Z.quot (t - now) msPerHour) 24);
    destruct (Z.leb_spec (Z.quot (t' - now') msPerHour) 24); try lia;
    destruct (Z.leb_spec (Z.quot (t - now) msPerHour) 72);
    destruct (Z.leb_spec (Z.quot (t' - now') msPerHour) 72); try lia;
    cbn [orb]; destruct (Extracted.urgency e =? "high")%string;
    destruct (Extracted.importance e =? "high")%string; cbn; lia.
Qed.

End PhraseFacts.

Section PhrasePriorities.
Context `{Env}.
Import JSString ESDate DateFns.

Lemma parseDeadlineAt_today (now : Z) (s : string) :
  cleaned s = "today" ->
  parseDeadlineAt now s
  = newDateOfFields (getFullYear now) (getMonth now) (getDate now) 23 59 59.
Proof.
  intros Hs. rewrite parseDeadlineAt_cleaned, Hs. reflexivity.
Qed.

Lemma parseDeadlineAt_days (now : Z) (s : string) :
  (cleaned s = "tomorrow" -> parseDeadlineAt now s = addDays (Some now) 1)
  /\ (cleaned s = "day after tomorrow" ->
      parseDeadlineAt now s = addDays (Some now) 2)
  /\ (cleaned s = "none" -> parseDeadlineAt now s = addDays (Some now) 7).
Proof.
  repeat split; intros Hs; rewrite parseDeadlineAt_cleaned, Hs;
    cbn [String.eqb Ascii.eqb Bool.eqb]; reflexivity.
Qed.

Lemma matchWithinHours_sound (s ds : string) :
  matchWithinHours s = Some ds -> exists i, withinHoursAt s i ds.
Proof.
  induction s as [|c s IH]; rewrite matchWithinHours_unfold;
    destruct (matchWithinHoursHere _) as [ds'|] eqn:Hhere; intros Hm;
    try discriminate.
  - injection Hm as ->. exists 0%nat. now apply matchWithinHoursHere_inv.
  - destruct (IH Hm) as [i Hi]. exists (S i). now apply withinHoursAt_tail.
Qed.

Lemma digitsValue_nonneg (ds : string) (acc : Z) :
  allDigits ds = true -> 0 <= acc -> 0 <= digitsValue acc ds.
Proof.
  revert acc. induction ds as [|c ds IH]; cbn [allDigits digitsValue]; intros acc Hd Ha.
  - exact Ha.
  - apply andb_true_iff in Hd as [Hc Hd]. apply IH; [exact Hd|].
    unfold isDigit, between, digitValue in *.
    apply andb_true_iff in Hc as [Hlo Hhi].
    apply Nat.leb_le in Hlo. lia.
Qed.

(** The branch of the pattern, by the search of the code. *)
Lemma parseDeadlineAt_matched (now : Z) (s ds : string) :
  matchWithinHours (cleaned s) = Some ds ->
  0 <= digitsValue 0 ds
  /\ parseDeadlineAt now s = TimeClip (now + digitsValue 0 ds * msPerHour).
Proof.
  intros Hm.
  destruct (matchWithinHours_sound _ _ Hm) as (i & pre & post & _ & _ & Hne & Hall).
  split; [apply digitsValue_nonneg; [exact Hall | lia]|].
  assert (Hnot : forall phrase, matchWithinHours phrase = None ->
                                (cleaned s =? phrase)%string = false).
  { intros phrase Hnone. apply String.eqb_neq. intros Heq.
    rewrite Heq in Hm. congruence. }
  rewrite parseDeadlineAt_cleaned, !Hnot by reflexivity.
  rewrite Hm, (parseInt_digits _ Hne Hall). reflexivity.
Qed.

(** X3.  A deadline "today" is the last second of the local day of the
    clock reading: at most 999 ms before the reading, less than a day after
    it; the task is Urgent whatever the hints. *)
Theorem today_is_urgent (now now' tza t : Z) (s : string) (e : Extracted.t) :
  cleaned s = "today" ->
  fixedOffset tza ->
  0 <= LocalTime now ->
  parseDeadlineAt now s = Some t ->
  Day (LocalTime t) = Day (LocalTime now)
  /\ now - 999 <= t <= now + 86399000
  /\ (now <= now' -> categorizeTaskAt now' e (Some t) = Urgent).
Proof.
  intros Hs Hz Hnow Ht.
  rewrite (parseDeadlineAt_today _ _ Hs), endOfToday in Ht by assumption.
  apply TimeClip_inv in Ht as [-> _].
  unfold UTC, LocalTime in *. rewrite !Hz in *.
  assert (Hb : now - 999 <= Day (now + tza) * msPerDay + 86399000 - tza
               <= now + 86399000).
  { unfold Day, msPerDay. Z.div_mod_to_equations. lia. }
  split; [|split; [exact Hb|]].
  - unfold Day, msPerDay. Z.div_mod_to_equations. lia.
  - intros Hn. apply categorizeTaskAt_urgent.
    apply (hoursLeft_bound now); [unfold msPerHour; lia | exact Hn].
Qed.




(** X7.  When the pattern matches with the number [N], [parseDeadline]
    returns an Invalid Date exactly when the reading plus [N] hours is
    beyond the last instant of Date, 8.64e15 ms. *)
Theorem within_hours_overflow (now : Z) (s ds : string) :
  matchWithinHours (cleaned s) = Some ds ->
  - maxTime <= now ->
  (parseDeadlineAt now s = None <-> maxTime < now + digitsValue 0 ds * msPerHour)
  /\ (now + digitsValue 0 ds * msPerHour <= maxTime ->
      parseDeadlineAt now s = Some (now + digitsValue 0 ds * msPerHour)).
Proof.
  intros Hm Hnow.
  destruct (parseDeadlineAt_matched now s ds Hm) as [HN Hp].
  rewrite Hp. unfold TimeClip.
  assert (0 <= digitsValue 0 ds * msPerHour) by (unfold msPerHour; lia).
  destruct (Z.leb_spec (Z.abs (now + digitsValue 0 ds * msPerHour)) maxTime).
  - split; [split; [discriminate | lia] | reflexivity].
  - split; [split; [lia | reflexivity] | lia].
Qed.

End PhrasePriorities.

Section FormatFacts.
Context `{Env}.
Import JSString ESDate DateFns.

Lemma tryFormats_first (text : string) (now : Z) (pre : list string)
    (fmt : string) (post : list string) (tv : Z) :
  (forall f, In f pre -> parse text f now = None) ->
  parse text fmt now = Some tv ->
  tryFormats text now (pre ++ fmt :: post)
  = Some (if negb (includes "HH:mm" fmt) then setHours tv 23 59 59 else Some tv).
Proof.
  intros Hpre Hfmt. induction pre as [|f pre IH]; cbn [app tryFormats].
  - rewrite Hfmt. now destruct (negb _).
  - rewrite (Hpre f (or_introl eq_refl)). apply IH.
    intros g Hg. apply Hpre. now right.
Qed.

Lemma parseDeadlineAt_formats (now : Z) (s : string) :
  ~ In (cleaned s) phrases ->
  matchWithinHours (cleaned s) = None ->
  parseDeadlineAt now s
  = match tryFormats (cleaned s) now formats with
    | Some d => d
    | None => addDays (Some now) 7
    end.
Proof.
  intros Hp Hm. rewrite parseDeadlineAt_cleaned, Hm.
  assert (Hnot : forall phrase, In phrase phrases ->
                                (cleaned s =? phrase)%string = false).
  { intros phrase Hin. apply String.eqb_neq. intros Heq. apply Hp.
    now rewrite Heq. }
  rewrite !Hnot by (unfold phrases; cbn [In]; tauto). reflexivity.
Qed.

(** X8.  The formats are tried in their order and the first one that
    parses decides.  A text that fits the format with a time is due at the
    instant parsed; a text that fits a format without a time is due at
    23:59:59 of the local day parsed, the milliseconds kept: never before
    the instant parsed and less than a day after it. *)
Theorem parsed_date_deadline (now : Z) (s : string) (pre : list string)
    (fmt : string) (post : list string) (tv : Z) :
  ~ In (cleaned s) phrases ->
  matchWithinHours (cleaned s) = None ->
  formats = (pre ++ fmt :: post)%list ->
  (forall f, In f pre -> parse (cleaned s) f now = None) ->
  parse (cleaned s) fmt now = Some tv ->
  (fmt = "dd/MM/yyyy HH:mm" -> parseDeadlineAt now s = Some tv)
  /\ (fmt <> "dd/MM/yyyy HH:mm" ->
      parseDeadlineAt now s = setHours tv 23 59 59
      /\ forall tza r,
           fixedOffset tza ->
           parseDeadlineAt now s = Some r ->
           tv <= r <= tv + 86399000
           /\ Day (LocalTime r) = Day (LocalTime tv)
           /\ msFromTime (LocalTime r) = msFromTime (LocalTime tv)).
Proof.
  intros Hp Hm Hsplit Hpre Hfmt.
  assert (Hrun : parseDeadlineAt now s
                 = if negb (includes "HH:mm" fmt)
                   then setHours tv 23 59 59 else Some tv).
  { rewrite (parseDeadlineAt_formats now s Hp Hm), Hsplit.
    now rewrite (tryFormats_first _ _ _ _ _ _ Hpre Hfmt). }
  split.
  - intros ->. exact Hrun.
  - intros Hne.
    assert (Hin : In fmt formats) by (rewrite Hsplit; apply in_elt).
    assert (Hno : includes "HH:mm" fmt = false).
    { unfold formats in Hin. cbn [In] in Hin.
      repeat destruct Hin as [<-|Hin]; try reflexivity; contradiction. }
    rewrite Hno in Hrun. cbn [negb] in Hrun. split; [exact Hrun|].
    intros tza r Hz Hr. rewrite Hrun, setHours_endOfDay in Hr.
    apply TimeClip_inv in Hr as [-> _].
    unfold UTC, LocalTime. rewrite !Hz.
    unfold Day, msFromTime, msPerDay, msPerSecond.
    repeat split; Z.div_mod_to_equations; lia.
Qed.

End FormatFacts.

(** ** More on the response parser *)

Section MoreExtractionFacts.
Context `{Env}.
Import JSString ESDate DateFns.

Lemma removeFirst_after_white (a : ascii) (label pre v : string) :
  isWhiteSpace a = false ->
  allWhiteSpace pre = true ->
  removeFirst (String a label) (pre ++ String a label ++ v) = pre ++ v.
Proof.
  intros Ha. induction pre as [|c pre IH]; cbn [allWhiteSpace append] in *;
    intros Hw.
  - apply (removeFirst_prefix (String a label)).
  - apply andb_true_iff in Hw as [Hc Hw].
    rewrite removeFirst_unfold. cbn [startsWith].
    destruct (Ascii.eqb_spec a c) as [->|_]; [congruence|].
    cbn [andb]. now rewrite (IH Hw).
Qed.

Lemma label_head (i : nat) :
  (i < 8)%nat ->
  exists a rest, nth i labels EmptyString = String a rest /\ isWhiteSpace a = false.
Proof.
  intros Hi.
  do 8 (destruct i as [|i]; [eexists; eexists; split; reflexivity|]). lia.
Qed.

(** X9.  The label is removed wherever it stands in its line.  An
    indented line keeps its indentation in the field: an urgency line
    ["  Urgency: high"] gives the urgency ["  high"], which is not
    ["high"]. *)
Theorem indented_line_keeps_indentation (emailContent subject text : string)
    (w : World) (i : nat) (pre v : string) :
  generateContent (calls w) (prompt emailContent) = Resolves (inr text) ->
  (i < 8)%nat ->
  nth_error (filter truthy (splitLines text)) i
  = Some (pre ++ nth i labels EmptyString ++ v) ->
  allWhiteSpace pre = true ->
  pre <> EmptyString ->
  exists r,
    fst (extractInfoWithGemini emailContent subject w) = Normal r
    /\ nth i (fieldsOf r) EmptyString = pre ++ v
    /\ (i = 3%nat -> Extracted.urgency r <> "high")
    /\ (i = 4%nat -> Extracted.importance r <> "high").
Proof.
  intros Hgen Hi Hline Hw Hne.
  destruct (extractInfoWithGemini_run emailContent subject w) as (r & Hrun & Hr).
  rewrite Hgen in Hr.
  assert (Hf : nth i (fieldsOf r) "" = pre ++ v).
  { rewrite (nth_fieldsOf _ _ _ _ Hr Hi). unfold fieldValue. rewrite Hline.
    destruct (label_head i Hi) as (a & rest & -> & Ha).
    rewrite (removeFirst_after_white a rest pre v Ha Hw).
    destruct pre; [congruence | reflexivity]. }
  assert (Hhigh : pre ++ v <> "high").
  { destruct pre as [|c pre]; [congruence|]. cbn [allWhiteSpace] in Hw.
    apply andb_true_iff in Hw as [Hc _]. cbn [append]. intros Heq.
    injection Heq as -> _. discriminate Hc. }
  exists r. split; [now rewrite Hrun|]. split; [exact Hf|].
  split; intros ->; cbn [nth fieldsOf] in Hf; now rewrite Hf.
Qed.

Lemma splitLines_crlf (l rest : string) :
  noLineFeed l = true ->
  splitLines (l ++ String CR (String LF rest))
  = (l ++ String CR EmptyString) :: splitLines rest.
Proof.
  intros Hl.
  replace (l ++ String CR (String LF rest))
    with ((l ++ String CR EmptyString) ++ String LF rest)
    by (now rewrite append_assoc).
  apply splitLines_cons.
  induction l as [|c l IH]; [reflexivity|].
  cbn [noLineFeed append] in *. apply andb_true_iff in Hl as [Hc Hl].
  now rewrite Hc, IH.
Qed.

Lemma lines_of_crlf (l : string) (ls : list string) (i : nat) (line : string) :
  Forall (fun x => isLine x = true) (l :: ls) ->
  (S i < List.length (l :: ls))%nat ->
  nth_error (l :: ls) i = Some line ->
  nth_error
    (filter truthy
       (splitLines (String.concat (String CR (String LF EmptyString)) (l :: ls)))) i
  = Some (line ++ String CR EmptyString).
Proof.
  revert l i. induction ls as [|l' ls IH]; intros l i Hall Hi Hnth.
  - cbn in Hi. lia.
  - inversion Hall as [|? ? Hl Hrest]; subst.
    apply andb_true_iff in Hl as [Ht Hn].
    change (String.concat (String CR (String LF "")) (l :: l' :: ls))
      with (l ++ String CR (String LF
                   (String.concat (String CR (String LF "")) (l' :: ls)))).
    rewrite splitLines_crlf by exact Hn. cbn [filter].
    assert (Hnonempty : truthy (l ++ String CR "") = true) by now destruct l.
    rewrite Hnonempty. destruct i as [|i].
    + cbn in Hnth. injection Hnth as <-. reflexivity.
    + cbn [nth_error] in *. apply IH; [exact Hrest | cbn in *; lia | exact Hnth].
Qed.

(** X10.  The text is split at line feeds only.  In a response with
    CR LF line ends every line but the last keeps its carriage return: the
    field read from a labelled line is its value followed by CR.  An urgency
    or importance ["high"] is then not recognised, while the deadline is
    read as without the CR, since [parseDeadline] trims it. *)
Theorem crlf_response_keeps_carriage_returns (emailContent subject : string)
    (w : World) (ls : list string) (i : nat) (v : string) :
  generateContent (calls w) (prompt emailContent)
  = Resolves (inr (String.concat (String CR (String LF EmptyString)) ls)) ->
  Forall (fun x => isLine x = true) ls ->
  (i < 8)%nat ->
  (S i < List.length ls)%nat ->
  nth_error ls i = Some (nth i labels EmptyString ++ v) ->
  exists r,
    fst (extractInfoWithGemini emailContent subject w) = Normal r
    /\ nth i (fieldsOf r) EmptyString = v ++ String CR EmptyString
    /\ (i = 3%nat -> v = "high" -> Extracted.urgency r <> "high")
    /\ (i = 4%nat -> v = "high" -> Extracted.importance r <> "high")
    /\ (i = 2%nat ->
        forall now, parseDeadlineAt now (Extracted.deadline r)
                    = parseDeadlineAt now (toLowerCase v)).
Proof.
  intros Hgen Hall Hi Hlen Hnth.
  destruct (extractInfoWithGemini_run emailContent subject w) as (r & Hrun & Hr).
  rewrite Hgen in Hr.
  assert (Hf : nth i (fieldsOf r) "" = v ++ String CR "").
  { rewrite (nth_fieldsOf _ _ _ _ Hr Hi). unfold fieldValue.
    destruct ls as [|l ls]; [cbn in Hlen; lia|].
    rewrite (lines_of_crlf l ls i _ Hall Hlen Hnth).
    rewrite append_assoc, removeFirst_prefix.
    now destruct v. }
  exists r. split; [now rewrite Hrun|]. split; [exact Hf|].
  repeat split; intros ->; cbn [nth fieldsOf] in Hf; rewrite Hf.
  - intros ->. discriminate.
  - intros ->. discriminate.
  - intros now. apply parseDeadlineAt_same_cleaned. unfold cleaned.
    rewrite toLowerCase_idempotent, toLowerCase_append.
    rewrite <- (trim_white "" (toLowerCase v) (toLowerCase (String CR "")));
      reflexivity.
Qed.

(** X11.  The subject of the email is not sent to the model: it only
    stands in for a missing or empty subject line.  With the same content
    and the same outcome of the call, two subjects give records that agree
    on every field but the subject, and on the subject too unless each has
    its own subject there. *)
Theorem extract_uses_subject_as_default_only (emailContent s1 s2 : string)
    (w : World) :
  exists r1 r2,
    fst (extractInfoWithGemini emailContent s1 w) = Normal r1
    /\ fst (extractInfoWithGemini emailContent s2 w) = Normal r2
    /\ (forall i, (i < 8)%nat -> i <> 1%nat ->
          nth i (fieldsOf r1) EmptyString = nth i (fieldsOf r2) EmptyString)
    /\ (Extracted.subject r1 = Extracted.subject r2
        \/ (Extracted.subject r1 = s1 /\ Extracted.subject r2 = s2)).
Proof.
  destruct (extractInfoWithGemini_run emailContent s1 w) as (r1 & Hrun1 & Hr1).
  destruct (extractInfoWithGemini_run emailContent s2 w) as (r2 & Hrun2 & Hr2).
  exists r1, r2. split; [now rewrite Hrun1|]. split; [now rewrite Hrun2|].
  destruct (generateContent (calls w) (prompt emailContent)) as [e|[e|text]].
  - subst. split; [|right; split; reflexivity].
    intros i Hi Hne. do 8 (destruct i as [|i]; [reflexivity || congruence|]). lia.
  - subst. split; [|right; split; reflexivity].
    intros i Hi Hne. do 8 (destruct i as [|i]; [reflexivity || congruence|]). lia.
  - set (lines := filter truthy (splitLines text)) in *. split.
    + intros i Hi Hne.
      rewrite (nth_fieldsOf _ _ _ _ Hr1 Hi), (nth_fieldsOf _ _ _ _ Hr2 Hi).
      unfold fieldValue.
      assert (Hd : nth i (defaults s1) "" = nth i (defaults s2) "").
      { do 8 (destruct i as [|i]; [reflexivity || congruence|]). lia. }
      rewrite Hd. reflexivity.
    + pose proof (nth_fieldsOf _ _ _ 1%nat Hr1 ltac:(lia)) as H1.
      pose proof (nth_fieldsOf _ _ _ 1%nat Hr2 ltac:(lia)) as H2.
      cbn [nth fieldsOf] in H1, H2. rewrite H1, H2. unfold fieldValue.
      destruct (nth_error lines 1) as [l|]; [|right; split; reflexivity].
      destruct (removeFirst (nth 1 labels "") l);
        [right; split; reflexivity | now left].
Qed.

End MoreExtractionFacts.

(** ** The message: subject and body *)

Section MessageFacts.
Context `{Env}.
Import JSString.

Lemma orElse_nonempty (a : option string) (b : string) :
  b <> EmptyString -> orElse a b <> EmptyString.
Proof.
  intros Hb. unfold orElse. destruct a as [[|c s]|]; cbn [truthy];
    (assumption || discriminate).
Qed.

Lemma find_first {A} (f : A -> bool) (pre : list A) (x : A) (post : list A) :
  (forall y, In y pre -> f y = false) -> f x = true ->
  find f (pre ++ x :: post) = Some x.
Proof.
  intros Hpre Hx. induction pre as [|y pre IH]; cbn [app find].
  - now rewrite Hx.
  - rewrite (Hpre y (or_introl eq_refl)). apply IH.
    intros z Hz. apply Hpre. now right.
Qed.

Lemma find_none {A} (f : A -> bool) (l : list A) :
  (forall y, In y l -> f y = false) -> find f l = None.
Proof.
  induction l as [|y l IH]; intros Hl; cbn [find]; [reflexivity|].
  rewrite (Hl y (or_introl eq_refl)). apply IH.
  intros z Hz. apply Hl. now right.
Qed.

Lemma subjectOf_nonempty (email : Gmail.Email) : subjectOf email <> EmptyString.
Proof. apply orElse_nonempty. discriminate. Qed.

(** X12.  The subject of a message is the value of its first header named
    exactly "Subject"; it is "No Subject" when there is no such header, no
    header at all, or when that first header has an empty value, whatever
    the headers after it.  It is never empty. *)
Theorem subjectOf_cases (email : Gmail.Email) :
  subjectOf email <> EmptyString
  /\ (Gmail.headers (Gmail.payload email) = None -> subjectOf email = "No Subject")
  /\ (forall hs,
        Gmail.headers (Gmail.payload email) = Some hs ->
        (forall h, In h hs -> Gmail.name h <> "Subject") ->
        subjectOf email = "No Subject")
  /\ (forall pre h post,
        Gmail.headers (Gmail.payload email) = Some (pre ++ h :: post)%list ->
        (forall x, In x pre -> Gmail.name x <> "Subject") ->
        Gmail.name h = "Subject" ->
        (Gmail.value h <> EmptyString -> subjectOf email = Gmail.value h)
        /\ (Gmail.value h = EmptyString -> subjectOf email = "No Subject")).
Proof.
  split; [apply subjectOf_nonempty|]. unfold subjectOf.
  split; [intros ->; reflexivity|]. split.
  - intros hs -> Hnone. rewrite find_none; [reflexivity|].
    intros h Hh. apply String.eqb_neq. now apply Hnone.
  - intros pre h post -> Hpre Hh.
    rewrite (find_first _ pre h post).
    + cbn [option_map orElse]. split.
      * intros Hv. now destruct (Gmail.value h).
      * intros ->. reflexivity.
    + intros x Hx. apply String.eqb_neq. now apply Hpre.
    + now apply String.eqb_eq.
Qed.

Lemma dataOf_Some (b : Gmail.Body) (d : string) :
  dataOf b = Some d <-> Gmail.data b = Some d /\ d <> EmptyString.
Proof.
  unfold dataOf. destruct (Gmail.data b) as [[|c x]|]; cbn [truthy]; split;
    try discriminate; try (intros [Hd Hne]; congruence).
  - intros Hd. injection Hd as <-. split; [reflexivity | discriminate].
Qed.

Lemma firstPlainText_carries (p : Gmail.Part) (d : string) (rest : list Gmail.Part) :
  carriesPlainText p d -> firstPlainText (p :: rest) = inr (base64ToUtf8 d).
Proof.
  intros (Hm & (b & Hb & Hd) & Hne). cbn [firstPlainText].
  rewrite Hm, String.eqb_refl, Hb.
  now rewrite (proj2 (dataOf_Some b d) (conj Hd Hne)).
Qed.

Lemma firstPlainText_lacksBody (p : Gmail.Part) (rest : list Gmail.Part) :
  lacksBody p -> firstPlainText (p :: rest) = inl noBodyError.
Proof.
  intros [Hm Hb]. cbn [firstPlainText]. now rewrite Hm, String.eqb_refl, Hb.
Qed.

Lemma firstPlainText_passedOver (q : Gmail.Part) (rest : list Gmail.Part) :
  passedOver q -> firstPlainText (q :: rest) = firstPlainText rest.
Proof.
  intros [Hbody Hno]. cbn [firstPlainText].
  destruct (String.eqb_spec (Gmail.mimeType q) "text/plain") as [Hm|];
    [|reflexivity].
  destruct (Gmail.partBody q) as [b|] eqn:Hb; [|now destruct Hbody].
  destruct (dataOf b) as [d|] eqn:Hd; [|reflexivity].
  apply dataOf_Some in Hd as [Hd Hne].
  destruct (Hno d). split; [exact Hm|]. split; [now exists b | exact Hne].
Qed.

(** What the loop does at a part is decided by these three kinds. *)
Lemma part_kinds (p : Gmail.Part) :
  lacksBody p \/ (exists d, carriesPlainText p d) \/ passedOver p.
Proof.
  destruct (String.eqb_spec (Gmail.mimeType p) "text/plain") as [Hm|Hm].
  - destruct (Gmail.partBody p) as [b|] eqn:Hb; [|left; now split].
    destruct (dataOf b) as [d|] eqn:Hd.
    + apply dataOf_Some in Hd as [Hd Hne]. right. left. exists d.
      split; [exact Hm|]. split; [now exists b | exact Hne].
    + right. right. split.
      * intros [_ Hnone]. congruence.
      * intros d (_ & (b' & Hb' & Hd') & Hne).
        assert (b' = b) by congruence. subst b'.
        rewrite (proj2 (dataOf_Some b d) (conj Hd' Hne)) in Hd. discriminate.
  - right. right. split.
    + intros [Hm' _]. contradiction.
    + intros d (Hm' & _). contradiction.
Qed.

(** The content cannot be read exactly when the loop meets a part of type
    text/plain without a body before any part with text. *)
Lemma firstPlainText_throws (ps : list Gmail.Part) (exn : Exception) :
  firstPlainText ps = inl exn ->
  exn = noBodyError
  /\ exists pre p post,
       ps = (pre ++ p :: post)%list
       /\ (forall q, In q pre -> passedOver q)
       /\ lacksBody p.
Proof.
  induction ps as [|q ps IH]; [discriminate|].
  destruct (part_kinds q) as [Hq|[[d Hq]|Hq]].
  - rewrite (firstPlainText_lacksBody q ps Hq). intros Hx. injection Hx as <-.
    split; [reflexivity|]. exists [], q, ps. split; [reflexivity|].
    split; [intros x Hx; destruct Hx | exact Hq].
  - rewrite (firstPlainText_carries q d ps Hq). discriminate.
  - rewrite (firstPlainText_passedOver q ps Hq). intros Hx.
    destruct (IH Hx) as (-> & pre & p & post & -> & Hpre & Hp).
    split; [reflexivity|]. exists (q :: pre), p, post. split; [reflexivity|].
    split; [|exact Hp]. intros x [<-|Hx']; [exact Hq | now apply Hpre].
Qed.

Lemma bodyOf_throws (email : Gmail.Email) (exn : Exception) :
  bodyOf email = inl exn ->
  exn = noBodyError
  /\ exists pre p post,
       Gmail.parts (Gmail.payload email) = Some (pre ++ p :: post)%list
       /\ (forall q, In q pre -> passedOver q)
       /\ lacksBody p.
Proof.
  unfold bodyOf. destruct (Gmail.parts (Gmail.payload email)) as [ps|].
  - intros Hx. destruct (firstPlainText_throws ps exn Hx)
      as (-> & pre & p & post & -> & Hpre & Hp).
    split; [reflexivity|]. now exists pre, p, post.
  - destruct (Gmail.body (Gmail.payload email)) as [b|]; [|discriminate].
    destruct (dataOf b); discriminate.
Qed.

(** X13.  When a message has parts, its content is the decoded data of the
    first part of type text/plain with non-empty data, and the empty string
    when no part is such: the body of the payload is not looked at.  Without
    parts it is the decoded data of the body of the payload, or the empty
    string.  The parts passed over are those that are not of type
    text/plain, or have a body without data; a part of type text/plain
    without a body, met before any part with text, ends the reading with a
    TypeError. *)
Theorem bodyOf_cases (email : Gmail.Email) :
  (forall pre p post d,
      Gmail.parts (Gmail.payload email) = Some (pre ++ p :: post)%list ->
      (forall q, In q pre -> passedOver q) ->
      carriesPlainText p d ->
      bodyOf email = inr (base64ToUtf8 d))
  /\ (forall ps,
        Gmail.parts (Gmail.payload email) = Some ps ->
        (forall q, In q ps -> passedOver q) ->
        bodyOf email = inr EmptyString)
  /\ (Gmail.parts (Gmail.payload email) = None ->
      forall b d,
        Gmail.body (Gmail.payload email) = Some b ->
        Gmail.data b = Some d -> d <> EmptyString ->
        bodyOf email = inr (base64ToUtf8 d))
  /\ (Gmail.parts (Gmail.payload email) = None ->
      (forall b d, Gmail.body (Gmail.payload email) = Some b ->
                   Gmail.data b = Some d -> d = EmptyString) ->
      bodyOf email = inr EmptyString)
  /\ (forall pre p post,
        Gmail.parts (Gmail.payload email) = Some (pre ++ p :: post)%list ->
        (forall q, In q pre -> passedOver q) ->
        lacksBody p ->
        bodyOf email = inl noBodyError).
Proof.
  unfold bodyOf. repeat split.
  - intros pre p post d -> Hpre Hp.
    induction pre as [|q pre IH]; cbn [app].
    + now apply firstPlainText_carries.
    + rewrite (firstPlainText_passedOver q) by (apply Hpre; now left).
      apply IH. intros r Hr. apply Hpre. now right.
  - intros ps -> Hno.
    induction ps as [|q ps IH]; [reflexivity|].
    rewrite (firstPlainText_passedOver q) by (apply Hno; now left).
    apply IH. intros r Hr. apply Hno. now right.
  - intros -> b d -> Hd Hne.
    now rewrite (proj2 (dataOf_Some b d) (conj Hd Hne)).
  - intros -> Hempty.
    destruct (Gmail.body (Gmail.payload email)) as [b|]; [|reflexivity].
    destruct (dataOf b) as [d|] eqn:Hd; [|reflexivity].
    apply dataOf_Some in Hd as [Hd Hne]. now destruct (Hne (Hempty b d eq_refl Hd)).
  - intros pre p post -> Hpre Hp.
    induction pre as [|q pre IH]; cbn [app].
    + now apply firstPlainText_lacksBody.
    + rewrite (firstPlainText_passedOver q) by (apply Hpre; now left).
      apply IH. intros r Hr. apply Hpre. now right.
Qed.

End MessageFacts.

(** ** More on the batch *)

Section MoreBatchFacts.
Context `{Env}.
Import JSString ESDate DateFns.

Lemma processEmail_throw (email : Gmail.Email) (w : World) (exn : Exception) :
  fst (processEmail email w) = Throw exn ->
  (bodyOf email = inl exn /\ snd (processEmail email w) = w)
  \/ (exn = RangeError "Invalid time value"
      /\ snd (processEmail email w)
         = {| ticks := S (S (ticks w)); calls := S (calls w) |}
      /\ exists body e,
           bodyOf email = inr body
           /\ fst (extractInfoWithGemini body (subjectOf email) w) = Normal e
           /\ parseDeadlineAt (clock (ticks w)) (Extracted.deadline e) = None).
Proof.
  destruct (bodyOf email) as [exn'|body] eqn:Hbody.
  - rewrite (processEmail_unreadable _ _ _ Hbody). cbn [fst snd].
    intros Hx. injection Hx as <-. left. split; reflexivity.
  - destruct (processEmail_run email w body Hbody) as (e & He & Hstep).
    rewrite Hstep. cbn [fst snd]. unfold assemble.
    destruct (parseDeadlineAt (clock (ticks w)) (Extracted.deadline e)) as [t|] eqn:Hd;
      cbn [toISOString]; [discriminate|].
    intros Hx. injection Hx as <-. right. split; [reflexivity|].
    split; [reflexivity|]. exists body, e. repeat split; assumption.
Qed.

Lemma processEmail_returns_world (email : Gmail.Email) (w : World) (task : Task.t)
    (w1 : World) :
  processEmail email w = (Normal task, w1) ->
  w1 = {| ticks := S (S (ticks w)); calls := S (calls w) |}.
Proof.
  intros Hp.
  destruct (processEmail_readable email w task) as (body & Hbody);
    [now rewrite Hp|].
  destruct (processEmail_run email w body Hbody) as (e & _ & Hstep).
  rewrite Hp in Hstep. now injection Hstep as _ ->.
Qed.

Lemma processEmailsFrom_world (emails : list Gmail.Email) :
  forall acc w tasks w',
    processEmailsFrom acc emails w = (Normal tasks, w') ->
    w' = worldAt w (List.length emails).
Proof.
  induction emails as [|email rest IH]; intros acc w tasks w' Hrun.
  - cbn in Hrun. injection Hrun as _ <-. now rewrite worldAt_0.
  - cbn [processEmailsFrom] in Hrun. unfold bind in Hrun.
    destruct (processEmail email w) as [[task|exn] w1] eqn:Hp; [|discriminate].
    rewrite (processEmail_returns_world _ _ _ _ Hp) in Hrun.
    rewrite (IH _ _ _ _ Hrun). cbn [List.length]. apply worldAt_S.
Qed.

Lemma processEmailsFrom_throw (emails : list Gmail.Email) :
  forall acc w exn w',
    processEmailsFrom acc emails w = (Throw exn, w') ->
    exists k email,
      nth_error emails k = Some email
      /\ w' = snd (processEmail email (worldAt w k))
      /\ fst (processEmail email (worldAt w k)) = Throw exn
      /\ forall j email',
           (j < k)%nat -> nth_error emails j = Some email' ->
           exists task, fst (processEmail email' (worldAt w j)) = Normal task.
Proof.
  induction emails as [|email rest IH]; intros acc w exn w' Hrun.
  - discriminate.
  - cbn [processEmailsFrom] in Hrun. unfold bind in Hrun.
    destruct (processEmail email w) as [[task|exn'] w1] eqn:Hp.
    + rewrite (processEmail_returns_world _ _ _ _ Hp) in Hrun.
      destruct (IH _ _ _ _ Hrun) as (k & email' & Hk & Hw' & Hthrow & Hbefore).
      exists (S k), email'. rewrite worldAt_S in Hw', Hthrow.
      split; [exact Hk|]. split; [exact Hw'|]. split; [exact Hthrow|].
      intros [|j] email'' Hj Hnth.
      * injection Hnth as <-. exists task. now rewrite worldAt_0, Hp.
      * destruct (Hbefore j email'' ltac:(lia) Hnth) as (task' & Ht).
        exists task'. now rewrite <- worldAt_S.
    + injection Hrun as <- <-.
      exists 0%nat, email. split; [reflexivity|].
      split; [now rewrite worldAt_0, Hp|].
      split; [now rewrite worldAt_0, Hp|]. intros j ? Hj. lia.
Qed.

(** X14.  No error of the model escapes from [processEmails].  It ends
    with an exception only at the first email that cannot be processed, and
    for one of two reasons.  Either the content of that email cannot be
    read, because the loop over its parts meets a part of type text/plain
    without a body before any part with text: the exception is the TypeError
    of that reading, and the email is not sent to the model.  Or the
    deadline of that email is an Invalid Date: the exception is the
    RangeError of [toISOString].  The emails before it were processed, the
    ones after it are not looked at. *)
Theorem processEmails_stops_at_first_failure (emails : list Gmail.Email)
    (w : World) (exn : Exception) (w' : World) :
  processEmails emails w = (Throw exn, w') ->
  exists k email,
    nth_error emails k = Some email
    /\ (forall j email',
          (j < k)%nat -> nth_error emails j = Some email' ->
          exists task, fst (processEmail email' (worldAt w j)) = Normal task)
    /\ ((exn = noBodyError
         /\ (exists pre p post,
               Gmail.parts (Gmail.payload email) = Some (pre ++ p :: post)%list
               /\ (forall q, In q pre -> passedOver q)
               /\ lacksBody p)
         /\ calls w' = (calls w + k)%nat
         /\ ticks w' = (ticks w + 2 * k)%nat)
        \/ (exn = RangeError "Invalid time value"
            /\ (exists body e,
                  bodyOf email = inr body
                  /\ fst (extractInfoWithGemini body (subjectOf email) (worldAt w k))
                     = Normal e
                  /\ parseDeadlineAt (clock (ticks w + 2 * k)) (Extracted.deadline e)
                     = None)
            /\ calls w' = (calls w + S k)%nat
            /\ ticks w' = (ticks w + 2 * S k)%nat)).
Proof.
  intros Hrun. unfold processEmails in Hrun.
  destruct (processEmailsFrom_throw _ _ _ _ _ Hrun)
    as (k & email & Hk & -> & Hthrow & Hbefore).
  exists k, email. split; [exact Hk|]. split; [exact Hbefore|].
  destruct (processEmail_throw _ _ _ Hthrow)
    as [[Hbody ->] | (-> & -> & body & e & Hbody & He & Hd)].
  - left. destruct (bodyOf_throws _ _ Hbody) as (-> & Hparts).
    split; [reflexivity|]. split; [exact Hparts|]. split; reflexivity.
  - right. split; [reflexivity|]. split; [now exists body, e|].
    cbn [worldAt calls ticks]. split; lia.
Qed.

Lemma append_nonempty_r (a b : string) : b <> EmptyString -> a ++ b <> EmptyString.
Proof.
  intros Hb. destruct a; cbn [append]; [exact Hb | discriminate].
Qed.

Lemma isoString_nonempty (t : Z) : isoString t <> EmptyString.
Proof. unfold isoString. apply append_nonempty_r. discriminate. Qed.

Lemma extraction_nonempty (emailContent subject : string) (w : World) (e : Extracted.t) :
  subject <> EmptyString ->
  fst (extractInfoWithGemini emailContent subject w) = Normal e ->
  Forall (fun v => v <> EmptyString) (fieldsOf e).
Proof.
  intros Hs He.
  destruct (extractInfoWithGemini_run emailContent subject w) as (r & Hrun & Hr).
  rewrite Hrun in He. cbn [fst] in He. injection He as <-.
  destruct (generateContent (calls w) (prompt emailContent)) as [x|[x|text]].
  - subst r. unfold fieldsOf, fallbackRecord. cbn.
    repeat constructor; (assumption || discriminate).
  - subst r. unfold fieldsOf, fallbackRecord. cbn.
    repeat constructor; (assumption || discriminate).
  - rewrite Hr. cbn [map seq].
    repeat constructor; apply fieldValue_nonempty; (assumption || lia).
Qed.

(** X15.  In a run that returns, every task carries the fields of the
    extraction of its email unchanged, and each of its eight textual fields,
    the deadline among them, is a non-empty string.  The run has made two
    readings of the clock and one call of the model for each email. *)
Theorem tasks_carry_nonempty_fields (emails : list Gmail.Email) (w : World)
    (tasks : list Task.t) (w' : World) :
  processEmails emails w = (Normal tasks, w') ->
  ticks w' = (ticks w + 2 * List.length emails)%nat
  /\ calls w' = (calls w + List.length emails)%nat
  /\ forall j task,
       nth_error tasks j = Some task ->
       Forall (fun v => v <> EmptyString) (taskFields task)
       /\ exists email body e,
            nth_error emails j = Some email
            /\ bodyOf email = inr body
            /\ fst (extractInfoWithGemini body (subjectOf email) (worldAt w j))
               = Normal e
            /\ Task.eventType task = Extracted.eventType e
            /\ Task.subject task = Extracted.subject e
            /\ Task.urgency task = Extracted.urgency e
            /\ Task.importance task = Extracted.importance e
            /\ Task.score task = Extracted.score e
            /\ Task.registrationLink task = Extracted.registrationLink e
            /\ Task.summary task = Extracted.summary e.
Proof.
  intros Hrun. unfold processEmails in Hrun.
  rewrite (processEmailsFrom_world _ _ _ _ _ Hrun).
  split; [reflexivity|]. split; [reflexivity|].
  destruct (processEmailsFrom_run _ _ _ _ _ Hrun) as (new & -> & Hlen & Hnth).
  cbn [app]. intros j task Hj.
  assert (Hlt : (j < List.length emails)%nat).
  { rewrite <- Hlen. apply nth_error_Some. congruence. }
  destruct (nth_error emails j) as [email|] eqn:Hemail;
    [|apply nth_error_None in Hemail; lia].
  destruct (Hnth j email Hemail) as (task' & Hnew & Hp).
  assert (task' = task) by congruence. subst task'.
  destruct (processEmail_readable _ _ _ Hp) as (body & Hbody).
  destruct (processEmail_run email (worldAt w j) body Hbody) as (e & He & Hstep).
  rewrite Hstep in Hp. cbn [fst] in Hp.
  apply assemble_Normal in Hp as (t & _ & ->).
  pose proof (extraction_nonempty _ _ _ _ (subjectOf_nonempty email) He) as Hne.
  split.
  - unfold fieldsOf in Hne. unfold taskFields, taskOf. cbn.
    repeat match goal with
           | H : Forall _ (_ :: _) |- _ => inversion H; clear H; subst
           end.
    repeat constructor; try assumption. apply isoString_nonempty.
  - exists email, body, e. repeat split; assumption || reflexivity.
Qed.

(** X16.  An email whose content can be read and for which the call of
    the model fails gives the all-defaults task: the subject of the message,
    a deadline seven days after the clock reading and the priority Later. *)
Theorem failed_extraction_is_later (email : Gmail.Email) (w : World)
    (body : string) (exn : Exception) (tza : Z) :
  bodyOf email = inr body ->
  generateContent (calls w) (prompt body) = Rejects exn
  \/ generateContent (calls w) (prompt body) = Resolves (inl exn) ->
  fixedOffset tza ->
  Z.abs (clock (ticks w) + 7 * msPerDay) <= maxTime ->
  clock (ticks w) <= clock (S (ticks w)) <= clock (ticks w) + 95 * msPerHour ->
  fst (processEmail email w)
  = Normal (taskOf (fallbackRecord (subjectOf email))
              (isoString (clock (ticks w) + 7 * msPerDay)) Later).
Proof.
  intros Hbody Hgen Hz Hrange Hclock.
  destruct (extractInfoWithGemini_run body (subjectOf email) w)
    as (e & Hrun & He).
  assert (e = fallbackRecord (subjectOf email))
    by (destruct Hgen as [Hg|Hg]; rewrite Hg in He; exact He).
  subst e.
  destruct (processEmail_run email w body Hbody) as (e & Hex & Hstep).
  rewrite Hrun in Hex. cbn [fst] in Hex. injection Hex as <-.
  rewrite Hstep. cbn [fst]. unfold assemble.
  cbn [Extracted.deadline fallbackRecord].
  rewrite (proj2 (proj2 (parseDeadlineAt_days _ "none")) eq_refl).
  rewrite (addDays_fixed tza) by (assumption || lia).
  rewrite TimeClip_Some by exact Hrange. cbn [toISOString].
  rewrite categorizeTaskAt_far; [reflexivity|].
  assert (73 <= Z.quot (clock (ticks w) + 7 * msPerDay - clock (S (ticks w))) msPerHour);
    [|lia].
  rewrite <- (Z.quot_mul 73 msPerHour) by (unfold msPerHour; lia).
  apply Z.quot_le_mono; unfold msPerDay, msPerHour in *; lia.
Qed.

End MoreBatchFacts.

(** ** Fetching the messages *)

Section FetchFacts.
Context {E : Env} {G : Google}.
Import JSString ESDate.

Lemma requested_0 (s : Server) : requested s 0 = s.
Proof.
  destruct s as [t c r w]. unfold requested. cbn. f_equal. lia.
Qed.

Lemma requested_S (s : Server) (n : nat) :
  requested {| tokenStorage := tokenStorage s; credentials := credentials s;
               requests := S (requests s); world := world s |} n
  = requested s (S n).
Proof. unfold requested. cbn. f_equal. lia. Qed.

Lemma request_run {A} (outcome : nat -> option Token -> Exception + A) (s : Server) :
  request outcome s
  = (match outcome (requests s) (credentials s) with
     | inl e => Throw e
     | inr a => Normal a
     end, requested s 1).
Proof.
  unfold request, requested.
  replace (requests s + 1)%nat with (S (requests s)) by lia.
  now destruct (outcome (requests s) (credentials s)).
Qed.

Lemma getMessages_returns (ids : list string) :
  forall acc s out s',
    getMessages acc ids s = (Normal out, s') ->
    s' = requested s (List.length ids)
    /\ exists new,
         out = (acc ++ new)%list
         /\ List.length new = List.length ids
         /\ forall j id,
              nth_error ids j = Some id ->
              exists email,
                nth_error new j = Some email
                /\ messagesGet (requests s + j) (credentials s) id = inr email.
Proof.
  induction ids as [|id rest IH]; intros acc s out s' Hrun.
  - cbn in Hrun. injection Hrun as <- <-. split; [now rewrite requested_0|].
    exists []. rewrite app_nil_r. repeat split. intros [|j] ?; discriminate.
  - cbn [getMessages] in Hrun. unfold bindH in Hrun. rewrite request_run in Hrun.
    destruct (messagesGet (requests s) (credentials s) id) as [e|email] eqn:Hget;
      [discriminate|].
    destruct (IH _ _ _ _ Hrun) as (-> & new & -> & Hlen & Hnth).
    split.
    { unfold requested. cbn. f_equal. lia. }
    exists (email :: new). rewrite <- app_assoc. split; [reflexivity|].
    split; [cbn; now rewrite Hlen|].
    intros [|j] id' Hj.
    + injection Hj as <-. exists email. split; [reflexivity|].
      now rewrite Nat.add_0_r.
    + destruct (Hnth j id' Hj) as (email' & Hn & Hg). exists email'.
      split; [exact Hn|]. cbn [requested requests credentials] in Hg.
      now replace (requests s + S j)%nat with (requests s + 1 + j)%nat by lia.
Qed.

Lemma getMessages_throws (ids : list string) :
  forall acc s exn s',
    getMessages acc ids s = (Throw exn, s') ->
    exists k id,
      nth_error ids k = Some id
      /\ messagesGet (requests s + k) (credentials s) id = inl exn
      /\ s' = requested s (S k)
      /\ forall j id', (j < k)%nat -> nth_error ids j = Some id' ->
           exists email,
             messagesGet (requests s + j) (credentials s) id' = inr email.
Proof.
  induction ids as [|id rest IH]; intros acc s exn s' Hrun.
  - discriminate.
  - cbn [getMessages] in Hrun. unfold bindH in Hrun. rewrite request_run in Hrun.
    destruct (messagesGet (requests s) (credentials s) id) as [e|email] eqn:Hget.
    + injection Hrun as <- <-. exists 0%nat, id. rewrite Nat.add_0_r.
      repeat split; try assumption. intros j ? Hj. lia.
    + destruct (IH _ _ _ _ Hrun) as (k & id' & Hk & Hg & -> & Hbefore).
      cbn [requested requests credentials] in Hg, Hbefore.
      exists (S k), id'. split; [exact Hk|]. split.
      { now replace (requests s + S k)%nat with (requests s + 1 + k)%nat by lia. }
      split.
      { unfold requested. cbn. f_equal. lia. }
      intros [|j] id'' Hj Hnth.
      * injection Hnth as <-. exists email. now rewrite Nat.add_0_r.
      * destruct (Hbefore j id'' ltac:(lia) Hnth) as (email' & Hg').
        exists email'.
        now replace (requests s + S j)%nat with (requests s + 1 + j)%nat by lia.
Qed.

Lemma fetchRecentEmails_unfold (s : Server) :
  fetchRecentEmails s
  = let s1 := {| tokenStorage := tokenStorage s; credentials := credentials s;
                 requests := requests s;
                 world := {| ticks := S (ticks (world s));
                             calls := calls (world s) |} |} in
    match messagesList (requests s) (credentials s)
            (recentQuery (clock (ticks (world s)))) with
    | inl e => (Throw e, requested s1 1)
    | inr res =>
        getMessages [] (match res with Some ms => ms | None => [] end)
          (requested s1 1)
    end.
Proof.
  unfold fetchRecentEmails, bindH, liftWorld, newDate, tryCatchH, throwH.
  cbn [world ticks calls]. rewrite request_run. cbn [requests credentials].
  destruct (messagesList _ _ _) as [e|res]; [reflexivity|].
  now destruct (getMessages _ _ _) as [[out|exn] s'].
Qed.

(** X17.  When [fetchRecentEmails] returns, it returns the messages of the
    listing in the order of the listing, one per entry, each fetched with
    its own request; a listing without a [messages] property gives no
    message.  It has read the clock once and made one request for the
    listing and one per message, with the credentials of the client. *)
Theorem fetchRecentEmails_returns_listing (s : Server) (emails : list Gmail.Email)
    (s' : Server) :
  fetchRecentEmails s = (Normal emails, s') ->
  exists res,
    messagesList (requests s) (credentials s) (recentQuery (clock (ticks (world s))))
    = inr res
    /\ (res = None -> emails = [])
    /\ (forall ids, res = Some ids ->
          List.length emails = List.length ids
          /\ forall j id,
               nth_error ids j = Some id ->
               exists email,
                 nth_error emails j = Some email
                 /\ messagesGet (requests s + 1 + j) (credentials s) id = inr email)
    /\ requests s' = (requests s + 1 + List.length emails)%nat
    /\ ticks (world s') = S (ticks (world s))
    /\ calls (world s') = calls (world s)
    /\ tokenStorage s' = tokenStorage s
    /\ credentials s' = credentials s.
Proof.
  rewrite fetchRecentEmails_unfold. cbv zeta.
  destruct (messagesList _ _ _) as [e|res]; [discriminate|].
  intros Hrun. apply getMessages_returns in Hrun as (-> & new & -> & Hlen & Hnth).
  cbn [app requested requests credentials world tokenStorage ticks calls] in *.
  exists res. split; [reflexivity|]. split.
  { intros ->. now destruct new. }
  split.
  { intros ids ->. split; [exact Hlen | exact Hnth]. }
  repeat split. rewrite Hlen. destruct res; cbn; lia.
Qed.

(** X18.  When [fetchRecentEmails] fails, it fails with the error of the
    listing, or with the error of the first message that cannot be fetched;
    the messages after that one are not requested, and no message is
    returned. *)
Theorem fetchRecentEmails_rethrows_first_failure (s : Server) (exn : Exception)
    (s' : Server) :
  fetchRecentEmails s = (Throw exn, s') ->
  (messagesList (requests s) (credentials s) (recentQuery (clock (ticks (world s))))
   = inl exn
   /\ requests s' = (requests s + 1)%nat)
  \/ (exists ids k id,
        messagesList (requests s) (credentials s)
          (recentQuery (clock (ticks (world s)))) = inr (Some ids)
        /\ nth_error ids k = Some id
        /\ messagesGet (requests s + 1 + k) (credentials s) id = inl exn
        /\ requests s' = (requests s + 1 + S k)%nat
        /\ forall j id', (j < k)%nat -> nth_error ids j = Some id' ->
             exists email,
               messagesGet (requests s + 1 + j) (credentials s) id' = inr email).
Proof.
  rewrite fetchRecentEmails_unfold. cbv zeta.
  destruct (messagesList _ _ _) as [e|res].
  - intros Hrun. injection Hrun as <- <-. left. split; reflexivity.
  - intros Hrun. right.
    apply getMessages_throws in Hrun as (k & id & Hk & Hg & -> & Hbefore).
    cbn [requested requests credentials] in *.
    destruct res as [ids|]; [|destruct k; discriminate].
    exists ids, k, id. repeat split; assumption.
Qed.

End FetchFacts.

(** ** The query of the listing *)

Section QueryFacts.
Context {E : Env} {G : Google}.
Import JSString ESDate.

Lemma allDigits_append (a b : string) :
  allDigits (a ++ b) = allDigits a && allDigits b.
Proof.
  induction a as [|c a IH]; cbn [allDigits append]; [reflexivity|].
  now rewrite IH, andb_assoc.
Qed.

Lemma digitsValue_append (a b : string) (acc : Z) :
  digitsValue acc (a ++ b) = digitsValue (digitsValue acc a) b.
Proof.
  revert acc. induction a as [|c a IH]; intros acc; cbn [digitsValue append];
    [reflexivity | apply IH].
Qed.

Lemma padDigits_digits (w : nat) (n acc : Z) :
  allDigits (padDigits w n) = true
  /\ digitsValue acc (padDigits w n) = acc * 10 ^ Z.of_nat w + n mod 10 ^ Z.of_nat w.
Proof.
  revert n acc. induction w as [|w IH]; intros n acc.
  - cbn [padDigits allDigits digitsValue]. split; [reflexivity|].
    change (10 ^ Z.of_nat 0) with 1. rewrite Z.mod_1_r. lia.
  - cbn [padDigits].
    assert (Hd : 0 <= n mod 10 <= 9) by (Z.div_mod_to_equations; lia).
    destruct (digitChar_spec _ Hd) as [Hdig Hval].
    destruct (IH (n / 10) acc) as [Hall Hv].
    rewrite allDigits_append, digitsValue_append, Hall, Hv.
    cbn [allDigits digitsValue]. rewrite Hdig, Hval. split; [reflexivity|].
    rewrite Nat2Z.inj_succ, Z.pow_succ_r by lia.
    assert (Hpow : 0 < 10 ^ Z.of_nat w) by (apply Z.pow_pos_nonneg; lia).
    rewrite (Z.rem_mul_r n 10 (10 ^ Z.of_nat w)) by lia. lia.
Qed.

Lemma dropLeadingZeros_digits (s : string) :
  s <> EmptyString -> allDigits s = true ->
  dropLeadingZeros s <> EmptyString
  /\ allDigits (dropLeadingZeros s) = true
  /\ digitsValue 0 (dropLeadingZeros s) = digitsValue 0 s.
Proof.
  induction s as [|c s IH]; [congruence|]. intros _ Hall.
  destruct s as [|c' s'].
  - cbn [dropLeadingZeros]. repeat split; [discriminate | exact Hall].
  - change (dropLeadingZeros (String c (String c' s')))
      with (if Ascii.eqb c "0" then dropLeadingZeros (String c' s')
            else String c (String c' s')).
    destruct (Ascii.eqb_spec c "0") as [->|Hc].
    + assert (Hall' : allDigits (String c' s') = true).
      { cbn [allDigits] in Hall. now apply andb_true_iff in Hall as [_ Hall]. }
      destruct (IH ltac:(discriminate) Hall') as (Hne & Hd & Hv).
      repeat split; [exact Hne | exact Hd |]. rewrite Hv. reflexivity.
    + repeat split; [discriminate | exact Hall].
Qed.

(** Reading back the digits printed for a number. *)
Lemma parseInt_decimal (n : Z) :
  0 <= n < 10 ^ 21 -> parseInt (decimal n) = Some n.
Proof.
  intros Hn. unfold decimal.
  destruct (padDigits_digits 21 n 0) as [Hall Hv].
  assert (Hne : padDigits 21 n <> "").
  { cbn [padDigits]. apply append_nonempty_r. discriminate. }
  destruct (dropLeadingZeros_digits _ Hne Hall) as (Hne' & Hall' & Hv').
  rewrite (parseInt_digits _ Hne' Hall'), Hv', Hv.
  change (Z.of_nat 21) with 21. rewrite Z.mod_small by lia. reflexivity.
Qed.

(** X19.  The listing is asked for the messages after a number of seconds,
    written in decimal digits: the whole seconds of the instant seven days
    before the reading of the clock. *)
Theorem recentQuery_cutoff (now : Z) :
  7 * msPerDay <= now <= maxTime ->
  exists seconds,
    recentQuery now = "after:" ++ decimal seconds
    /\ parseInt (decimal seconds) = Some seconds
    /\ seconds * 1000 <= now - 7 * msPerDay < seconds * 1000 + 1000.
Proof.
  intros Hnow. exists ((now - 7 * msPerDay) / 1000).
  assert (Hs : 0 <= (now - 7 * msPerDay) / 1000 < 10 ^ 21).
  { change (10 ^ 21) with 1000000000000000000000.
    unfold msPerDay, maxTime in *. Z.div_mod_to_equations. lia. }
  split; [|split].
  - unfold recentQuery.
    change (7 * 24 * 60 * 60 * 1000) with (7 * msPerDay).
    rewrite TimeClip_Some by (unfold msPerDay, maxTime in *; lia).
    cbn [option_map numberToString].
    destruct (Z.ltb_spec ((now - 7 * msPerDay) / 1000) 0); [lia | reflexivity].
  - now apply parseInt_decimal.
  - Z.div_mod_to_equations. lia.
Qed.

End QueryFacts.

(** ** The endpoints *)

Section EndpointFacts.
Context {E : Env} {G : Google}.
Import JSString ESDate.

Lemma getTasks_unfold (s : Server) :
  getTasks s
  = match tokenStorage s with
    | None => (Normal {| status := 401; body := ErrorJson "Not authenticated" |}, s)
    | Some tok =>
        match fetchRecentEmails (withCredentials s tok) with
        | (Normal emails, s2) =>
            let s3 w := {| tokenStorage := tokenStorage s2;
                           credentials := credentials s2;
                           requests := requests s2; world := w |} in
            match processEmails emails (world s2) with
            | (Normal tasks, w3) =>
                (Normal {| status := 200; body := TasksJson tasks |}, s3 w3)
            | (Throw _, w3) =>
                (Normal {| status := 500; body := ErrorJson "Failed to fetch tasks" |},
                 s3 w3)
            end
        | (Throw _, s2) =>
            (Normal {| status := 500; body := ErrorJson "Failed to fetch tasks" |}, s2)
        end
    end.
Proof.
  unfold getTasks, bindH, loadToken. destruct (tokenStorage s) as [tok|] eqn:Ht;
    [|reflexivity].
  unfold setCredentials, tryCatchH, bindH, liftWorld, retH, withCredentials.
  rewrite Ht.
  destruct (fetchRecentEmails _) as [[emails|exn] s2]; [|reflexivity].
  now destruct (processEmails emails (world s2)) as [[tasks|exn] w3].
Qed.

Lemma getMessages_state (ids : list string) :
  forall acc s c s',
    getMessages acc ids s = (c, s') -> exists n, s' = requested s n.
Proof.
  induction ids as [|id rest IH]; intros acc s c s' Hrun.
  - cbn in Hrun. injection Hrun as _ <-. exists 0%nat. now rewrite requested_0.
  - cbn [getMessages] in Hrun. unfold bindH in Hrun. rewrite request_run in Hrun.
    destruct (messagesGet (requests s) (credentials s) id) as [e|email].
    + injection Hrun as _ <-. now exists 1%nat.
    + destruct (IH _ _ _ _ Hrun) as (n & ->). exists (S n).
      unfold requested. cbn. f_equal. lia.
Qed.

(** [fetchRecentEmails] reads the clock once and leaves the token, the
    credentials and the model as they are. *)
Lemma fetchRecentEmails_state (s : Server) c s' :
  fetchRecentEmails s = (c, s') ->
  tokenStorage s' = tokenStorage s
  /\ credentials s' = credentials s
  /\ (requests s < requests s')%nat
  /\ world s' = {| ticks := S (ticks (world s)); calls := calls (world s) |}.
Proof.
  rewrite fetchRecentEmails_unfold. cbv zeta.
  destruct (messagesList _ _ _) as [e|res].
  - intros Hrun. injection Hrun as _ <-. cbn. repeat split. lia.
  - intros Hrun. apply getMessages_state in Hrun as (n & ->). cbn.
    repeat split. lia.
Qed.

Lemma authCallback_unfold (c : string) (s : Server) :
  c <> EmptyString ->
  authCallback (Some c) s
  = match getToken (requests s) c with
    | inl _ =>
        (Normal {| status := 500; body := Text "Authentication failed." |},
         requested s 1)
    | inr tok =>
        (Normal {| status := 200;
                   body := Text "Authentication successful! You can close this tab." |},
         {| tokenStorage := Some tok; credentials := Some tok;
            requests := requests s + 1; world := world s |})
    end.
Proof.
  intros Hc. unfold authCallback.
  destruct c as [|a c]; [congruence|]. cbn [truthy].
  unfold tryCatchH, bindH. rewrite request_run.
  now destruct (getToken (requests s) (String a c)).
Qed.

(** X20.  [GET /auth/callback] always answers.  Without a code, or with the
    empty code, the answer is 400 and Google is not asked.  Otherwise Google
    is asked once for the tokens: when it refuses, the answer is 500 and the
    stored token and the credentials are the ones from before; when it
    gives tokens, the answer is 200 and the tokens are both the credentials
    of the client and the stored token.  The clock and the model are never
    used. *)
Theorem authCallback_responses (code : option string) (s : Server) :
  exists r s',
    authCallback code s = (Normal r, s')
    /\ world s' = world s
    /\ (code = None \/ code = Some EmptyString ->
        r = {| status := 400; body := Text "Missing authorization code" |}
        /\ s' = s)
    /\ (forall c, code = Some c -> c <> EmptyString ->
        requests s' = S (requests s)
        /\ (forall exn, getToken (requests s) c = inl exn ->
            r = {| status := 500; body := Text "Authentication failed." |}
            /\ tokenStorage s' = tokenStorage s
            /\ credentials s' = credentials s)
        /\ (forall tok, getToken (requests s) c = inr tok ->
            r = {| status := 200;
                   body := Text "Authentication successful! You can close this tab." |}
            /\ tokenStorage s' = Some tok
            /\ credentials s' = Some tok)).
Proof.
  destruct code as [c|].
  - destruct (string_dec c EmptyString) as [->|Hc].
    + eexists _, s. split; [reflexivity|]. split; [reflexivity|].
      split; [now intros _|]. intros c Hc Hne. now injection Hc as <-.
    + rewrite (authCallback_unfold c s Hc).
      destruct (getToken (requests s) c) as [exn|tok] eqn:Hg;
        eexists _, _; (split; [reflexivity|]); (split; [reflexivity|]); split;
        try (intros [H|H]; congruence);
        intros c' Hc' Hne'; injection Hc' as <-; rewrite Hg;
        (split; [cbn; lia|]); split; intros x Hx; try discriminate;
        injection Hx as <-; repeat split.
  - eexists _, s. split; [reflexivity|]. split; [reflexivity|].
    split; [now intros _|]. intros c Hc. discriminate.
Qed.

(** X21.  [GET /tasks] always answers, and never changes the stored token.
    Without a stored token the answer is 401 and nothing else happens.
    With one, it becomes the credentials of the client, and the answer is
    200 with the tasks, one per fetched email, exactly when both the fetch
    and the processing of the emails return; an error of either gives 500
    with the same message and no task at all. *)
Theorem getTasks_responses (s : Server) :
  exists r s',
    getTasks s = (Normal r, s')
    /\ tokenStorage s' = tokenStorage s
    /\ (tokenStorage s = None ->
        r = {| status := 401; body := ErrorJson "Not authenticated" |} /\ s' = s)
    /\ (forall tok, tokenStorage s = Some tok ->
        credentials s' = Some tok
        /\ (forall exn s2,
              fetchRecentEmails (withCredentials s tok) = (Throw exn, s2) ->
              r = {| status := 500; body := ErrorJson "Failed to fetch tasks" |})
        /\ (forall emails s2,
              fetchRecentEmails (withCredentials s tok) = (Normal emails, s2) ->
              (forall exn w,
                 processEmails emails (world s2) = (Throw exn, w) ->
                 r = {| status := 500; body := ErrorJson "Failed to fetch tasks" |})
              /\ (forall tasks w,
                    processEmails emails (world s2) = (Normal tasks, w) ->
                    r = {| status := 200; body := TasksJson tasks |}
                    /\ List.length tasks = List.length emails))).
Proof.
  rewrite getTasks_unfold. destruct (tokenStorage s) as [tok|] eqn:Ht.
  - destruct (fetchRecentEmails (withCredentials s tok)) as [[emails|exn] s2] eqn:Hf.
    + destruct (fetchRecentEmails_state _ _ _ Hf) as (Hts & Hc & _ & _).
      cbn [withCredentials tokenStorage credentials] in Hts, Hc.
      cbv zeta.
      destruct (processEmails emails (world s2)) as [[tasks|exn] w3] eqn:Hp.
      * eexists _, _. split; [reflexivity|]. cbn [tokenStorage credentials].
        split; [congruence|]. split; [discriminate|].
        intros tok' Htok'. injection Htok' as <-. rewrite Hf.
        split; [exact Hc|]. split; [discriminate|].
        intros emails' s2' Heq. injection Heq as <- <-. rewrite Hp.
        split; [discriminate|]. intros tasks' w Hx. injection Hx as <- _.
        split; [reflexivity|]. unfold processEmails in Hp.
        apply processEmailsFrom_run in Hp as (new & -> & Hlen & _). exact Hlen.
      * eexists _, _. split; [reflexivity|]. cbn [tokenStorage credentials].
        split; [congruence|]. split; [discriminate|].
        intros tok' Htok'. injection Htok' as <-. rewrite Hf.
        split; [exact Hc|]. split; [discriminate|].
        intros emails' s2' Heq. injection Heq as <- <-. rewrite Hp.
        split; [reflexivity | discriminate].
    + destruct (fetchRecentEmails_state _ _ _ Hf) as (Hts & Hc & _ & _).
      cbn [withCredentials tokenStorage credentials] in Hts, Hc.
      eexists _, _. split; [reflexivity|]. split; [congruence|].
      split; [discriminate|]. intros tok' Htok'. injection Htok' as <-.
      rewrite Hf.
      split; [exact Hc|]. split; [reflexivity|]. discriminate.
  - eexists _, s. split; [reflexivity|]. split; [exact Ht|].
    split; [now intros _|]. discriminate.
Qed.

(** X22.  No handler clears the stored token.  When a token is stored,
    [GET /tasks] leaves it stored and is not answered with 401; a callback
    leaves a token stored too: the one it found unless it is answered with
    200, whatever the code it was given. *)
Theorem token_is_never_cleared (code : option string) (s : Server) (tok : Token) :
  tokenStorage s = Some tok ->
  (exists tok', tokenStorage (snd (authCallback code s)) = Some tok'
                /\ (status_of (fst (authCallback code s)) <> Some 200%nat ->
                    tok' = tok))
  /\ tokenStorage (snd (getTasks s)) = Some tok
  /\ status_of (fst (getTasks s)) <> Some 401%nat.
Proof.
  intros Ht. split; [|split].
  - destruct code as [[|a c]|]; try (exists tok; split; [exact Ht | reflexivity]).
    rewrite (authCallback_unfold (String a c) s) by discriminate.
    destruct (getToken (requests s) (String a c)) as [exn|tok'].
    + exists tok. split; [exact Ht | reflexivity].
    + exists tok'. split; [reflexivity|]. cbn. congruence.
  - rewrite getTasks_unfold, Ht.
    destruct (fetchRecentEmails _) as [[emails|exn] s2] eqn:Hf;
      apply fetchRecentEmails_state in Hf as (Hts & _);
      cbn [withCredentials tokenStorage] in Hts; [|cbn; congruence].
    cbv zeta. destruct (processEmails _ _) as [[tasks|exn] w3]; cbn; congruence.
  - rewrite getTasks_unfold, Ht.
    destruct (fetchRecentEmails _) as [[emails|exn] s2]; [|cbn; congruence].
    cbv zeta. destruct (processEmails _ _) as [[tasks|exn] w3]; cbn; congruence.
Qed.

End EndpointFacts.

(** ** The check at start-up *)

Section StartupFacts.
Import JSString.

Lemma missingVars_In (env : string -> option string) (v : string) :
  In v (missingVars env)
  <-> In v requiredEnvVars /\ (env v = None \/ env v = Some EmptyString).
Proof.
  unfold missingVars. rewrite filter_In.
  split; intros [Hin Hf]; (split; [exact Hin|]).
  - destruct (env v) as [[|c x]|]; cbn in Hf; try discriminate; auto.
  - destruct Hf as [-> | ->]; reflexivity.
Qed.

(** X23.  The server starts exactly when each of the four variables is set
    to a non-empty string: a variable set to the empty string counts as
    missing.  Otherwise the message names the variables that are unset or
    empty, and only those. *)
Theorem checkEnvironment_cases (env : string -> option string) :
  (checkEnvironment env = None
   <-> forall v, In v requiredEnvVars ->
         exists value, env v = Some value /\ value <> EmptyString)
  /\ (forall message,
        checkEnvironment env = Some message ->
        exists missing,
          missing <> []
          /\ message = "Missing required environment variables: "
                       ++ String.concat ", " missing
          /\ forall v, In v missing
                       <-> In v requiredEnvVars
                           /\ (env v = None \/ env v = Some EmptyString)).
Proof.
  unfold checkEnvironment. split.
  - split.
    + intros Hnone v Hin.
      destruct (missingVars env) as [|m ms] eqn:Hm; [|discriminate].
      destruct (env v) as [[|c x]|] eqn:Hv.
      * assert (Hin' : In v (missingVars env))
          by (apply missingVars_In; auto).
        rewrite Hm in Hin'. contradiction.
      * eexists. split; [reflexivity | discriminate].
      * assert (Hin' : In v (missingVars env))
          by (apply missingVars_In; auto).
        rewrite Hm in Hin'. contradiction.
    + intros Hall. destruct (missingVars env) as [|m ms] eqn:Hm; [reflexivity|].
      assert (Hin : In m (missingVars env)) by (rewrite Hm; now left).
      apply missingVars_In in Hin as [Hreq Hmiss].
      destruct (Hall m Hreq) as (value & Hv & Hne).
      destruct Hmiss as [Hx|Hx]; rewrite Hx in Hv; congruence.
  - intros message Hmsg.
    destruct (missingVars env) as [|m ms] eqn:Hm; [discriminate|].
    injection Hmsg as <-. exists (m :: ms). split; [discriminate|].
    split; [reflexivity|]. intros v. rewrite <- Hm. apply missingVars_In.
Qed.

End StartupFacts.

(** ** Runs of the further properties *)

Section MoreInstances.
Import JSString ESDate DateFns Sample SampleServer.

(** In Kolkata at noon UTC: margins and capitals are dropped. *)
Lemma parseDeadline_ignores_margins_and_case_witness :
  @parseDeadlineAt kolkata noon "  ToMoRRoW " = @parseDeadlineAt kolkata noon "tomorrow".
Proof.
  exact (parseDeadline_ignores_margins_and_case (H := kolkata) noon
           "  " "ToMoRRoW" " " eq_refl eq_refl).
Defined.

(** The deadline ten hours earlier, read thirty hours later. *)
Lemma categorizeTask_monotone_witness :
  (urgencyRank (categorizeTaskAt noon bankExtraction (Some (noon + 100 * msPerHour)%Z))
   <= urgencyRank (categorizeTaskAt (noon + 30 * msPerHour)%Z bankExtraction
                     (Some (noon + 90 * msPerHour)%Z)))%nat.
Proof.
  apply categorizeTask_monotone; unfold msPerHour, noon; lia.
Defined.

(** In Kolkata at 17:30: today ends in six and a half hours. *)
Lemma today_is_urgent_witness :
  noon - 999 <= 1749925799000 <= noon + 86399000
  /\ categorizeTaskAt noon bankExtraction (Some 1749925799000) = Urgent.
Proof.
  destruct (today_is_urgent (H := kolkata) noon noon 19800000 1749925799000
              " Today" bankExtraction eq_refl (fun _ _ => eq_refl)
              ltac:(vm_compute; discriminate) ltac:(vm_compute; reflexivity))
    as (_ & Hrange & Hlabel).
  split; [exact Hrange | apply Hlabel; lia].
Defined.




Lemma within_hours_overflow_witness :
  @parseDeadlineAt outOfService noon "within 99999999999 hours" = None.
Proof.
  apply (within_hours_overflow (H := outOfService) noon
           "within 99999999999 hours" "99999999999"
           ltac:(vm_compute; reflexivity) ltac:(vm_compute; discriminate)).
  vm_compute. reflexivity.
Defined.

(** A day written as year, month and day: the third format decides, and
    the deadline is the end of that day in Kolkata. *)
Lemma parsed_date_deadline_witness :
  @parseDeadlineAt kolkata noon "2025-06-20" = Some 1750444199000.
Proof.
  destruct (parsed_date_deadline (H := kolkata) noon "2025-06-20"
              ["dd/MM/yyyy HH:mm"; "dd/MM/yyyy"] "yyyy-MM-dd"
              ["MMMM d, yyyy"; "dd MMM yyyy"] 1750357800000) as [_ Hday].
  - vm_compute. intros [Hc|[Hc|[Hc|[Hc|Hc]]]]; try discriminate Hc. exact Hc.
  - vm_compute. reflexivity.
  - reflexivity.
  - intros f [<-|[<-|Hin]]; [vm_compute; reflexivity .. | destruct Hin].
  - vm_compute. reflexivity.
  - destruct (Hday ltac:(discriminate)) as [Hset _]. rewrite Hset.
    vm_compute. reflexivity.
Defined.

Lemma indented_line_keeps_indentation_witness :
  exists r,
    fst (@extractInfoWithGemini indented "Q2FsbA==" "Exam" world0) = Normal r
    /\ Extracted.urgency r = "  high"
    /\ Extracted.urgency r <> "high".
Proof.
  destruct (indented_line_keeps_indentation (H := indented) "Q2FsbA==" "Exam" _
              world0 3%nat "  " "high" eq_refl ltac:(lia) eq_refl eq_refl
              ltac:(discriminate))
    as (r & Hr & Hfield & Hu & _).
  exists r. split; [exact Hr|]. split; [exact Hfield | exact (Hu eq_refl)].
Defined.

Lemma crlf_response_keeps_carriage_returns_witness :
  exists r,
    fst (@extractInfoWithGemini crlf "Q2FsbA==" "Exam" world0) = Normal r
    /\ Extracted.urgency r = "high" ++ String CR EmptyString
    /\ Extracted.urgency r <> "high".
Proof.
  destruct (crlf_response_keeps_carriage_returns (H := crlf) "Q2FsbA==" "Exam"
              world0 examLines 3%nat "high" eq_refl
              ltac:(repeat constructor) ltac:(lia) ltac:(cbn; lia) eq_refl)
    as (r & Hr & Hfield & Hu & _).
  exists r. split; [exact Hr|]. split; [exact Hfield | exact (Hu eq_refl eq_refl)].
Defined.

(** The subject line of the response is empty: each record has the
    subject of its message, and the same deadline. *)
Lemma extract_uses_subject_as_default_only_witness :
  exists r1 r2,
    fst (@extractInfoWithGemini threeLines "Q2FsbA==" "Team hackathon" world0)
    = Normal r1
    /\ fst (@extractInfoWithGemini threeLines "Q2FsbA==" "Lunch" world0) = Normal r2
    /\ Extracted.deadline r1 = Extracted.deadline r2.
Proof.
  destruct (extract_uses_subject_as_default_only (H := threeLines) "Q2FsbA=="
              "Team hackathon" "Lunch" world0) as (r1 & r2 & H1 & H2 & Hsame & _).
  exists r1, r2. split; [exact H1|]. split; [exact H2|].
  exact (Hsame 2%nat ltac:(lia) ltac:(lia)).
Defined.

Lemma subjectOf_cases_witness : subjectOf emptySubject = "No Subject".
Proof.
  destruct (subjectOf_cases emptySubject) as (_ & _ & _ & Hfirst).
  destruct (Hfirst [ {| Gmail.name := "From"; Gmail.value := "bank@example.com" |} ]
              {| Gmail.name := "Subject"; Gmail.value := EmptyString |}
              [ {| Gmail.name := "Subject"; Gmail.value := "Second" |} ] eq_refl)
    as [_ Hempty].
  - intros x [<-|Hin]; [discriminate | destruct Hin].
  - reflexivity.
  - exact (Hempty eq_refl).
Defined.

Lemma htmlPart_passedOver : passedOver htmlPart.
Proof.
  split; [intros [Hmime _] | intros d [Hmime _]]; discriminate Hmime.
Qed.

(** The part of type text/html is passed over: the content is the text of
    the second part, or the TypeError of a second part without a body. *)
Lemma bodyOf_cases_witness :
  @bodyOf outOfService multipart = inr (@base64ToUtf8 outOfService "Q2FsbA==")
  /\ @bodyOf outOfService bodyless = inl noBodyError.
Proof.
  split.
  - destruct (bodyOf_cases (H := outOfService) multipart) as (Hpart & _).
    apply (Hpart [htmlPart] plainPart [] "Q2FsbA==" eq_refl).
    + intros q [<-|Hin]; [exact htmlPart_passedOver | destruct Hin].
    + split; [reflexivity|]. split; [eexists; split; reflexivity | discriminate].
  - destruct (bodyOf_cases (H := outOfService) bodyless) as (_ & _ & _ & _ & Hnone).
    apply (Hnone [htmlPart] bodylessPart [plainPart] eq_refl).
    + intros q [<-|Hin]; [exact htmlPart_passedOver | destruct Hin].
    + split; reflexivity.
Defined.

Lemma bodyless_run :
  @processEmails farDeadline [bankEmail; bodyless; bankEmail] world0
  = (Throw noBodyError, {| ticks := 2; calls := 1 |}).
Proof. vm_compute. reflexivity. Qed.

(** The run stops at the second of three emails, before the model is
    called for it: one of its parts is of type text/plain without a body. *)
Lemma processEmails_stops_at_first_failure_witness :
  exists k email p,
    nth_error [bankEmail; bodyless; bankEmail] k = Some email
    /\ In p (match Gmail.parts (Gmail.payload email) with
             | Some ps => ps
             | None => []
             end)
    /\ lacksBody p
    /\ 1%nat = (0 + k)%nat.
Proof.
  destruct (processEmails_stops_at_first_failure (H := farDeadline) _ _ _ _
              bodyless_run)
    as (k & email & Hk & _ & [(_ & (pre & p & post & Hparts & _ & Hp) & Hcalls & _)
                             | (Hexn & _)]).
  - exists k, email, p. split; [exact Hk|]. rewrite Hparts.
    split; [apply in_or_app; right; now left|]. split; [exact Hp | exact Hcalls].
  - discriminate Hexn.
Defined.

Lemma tasks_carry_nonempty_fields_witness :
  Forall (fun v => v <> EmptyString) (taskFields bankTask).
Proof.
  destruct (tasks_carry_nonempty_fields (H := ticking) _ _ _ _ ticking_run)
    as (_ & _ & Hj).
  exact (proj1 (Hj 0%nat bankTask eq_refl)).
Defined.

Lemma failed_extraction_is_later_witness :
  fst (@processEmail outOfService bankEmail world0)
  = Normal (taskOf (fallbackRecord "Call the bank") "2025-06-21T12:00:00.000Z" Later).
Proof.
  rewrite (failed_extraction_is_later (H := outOfService) bankEmail world0
             "Q2FsbA==" (Error "fetch failed") 0 eq_refl (or_introl eq_refl)
             (fun _ _ => eq_refl)
             ltac:(vm_compute; discriminate)
             ltac:(vm_compute; split; discriminate)).
  vm_compute. reflexivity.
Defined.

Lemma mailbox_fetch :
  @fetchRecentEmails farDeadline mailbox loggedIn
  = (Normal threeEmails,
     {| tokenStorage := Some tokens; credentials := Some tokens; requests := 5;
        world := {| ticks := 1; calls := 0 |} |}).
Proof. vm_compute. reflexivity. Qed.

Lemma fetchRecentEmails_returns_listing_witness :
  exists ids,
    @messagesList mailbox 1 (Some tokens) (recentQuery noon) = inr (Some ids)
    /\ List.length threeEmails = List.length ids.
Proof.
  destruct (fetchRecentEmails_returns_listing (E := farDeadline) (G := mailbox)
              _ _ _ mailbox_fetch) as (res & Hlist & _ & Hids & _).
  destruct res as [ids|]; [|vm_compute in Hlist; discriminate Hlist].
  exists ids. split; [exact Hlist | exact (proj1 (Hids ids eq_refl))].
Defined.

Lemma deleted_fetch :
  @fetchRecentEmails farDeadline deleted loggedIn
  = (Throw (Error "Requested entity was not found."),
     {| tokenStorage := Some tokens; credentials := Some tokens; requests := 4;
        world := {| ticks := 1; calls := 0 |} |}).
Proof. vm_compute. reflexivity. Qed.

(** The second message cannot be fetched: its error ends the fetch. *)
Lemma fetchRecentEmails_rethrows_first_failure_witness :
  exists k id,
    nth_error ["m1"; "m2"; "m3"] k = Some id
    /\ @messagesGet deleted (1 + 1 + k) (Some tokens) id
       = inl (Error "Requested entity was not found.").
Proof.
  destruct (fetchRecentEmails_rethrows_first_failure (E := farDeadline)
              (G := deleted) _ _ _ deleted_fetch)
    as [[Hlist _] | (ids & k & id & Hlist & Hk & Hget & _)].
  - vm_compute in Hlist. discriminate Hlist.
  - assert (Hids : ids = ["m1"; "m2"; "m3"])
      by (vm_compute in Hlist; now injection Hlist as <-).
    subst ids. exists k, id. split; [exact Hk | exact Hget].
Defined.

Lemma recentQuery_cutoff_witness : recentQuery noon = "after:1749297600".
Proof.
  destruct (recentQuery_cutoff noon ltac:(vm_compute; split; discriminate))
    as (seconds & Hquery & _ & Hseconds).
  assert (Hs : seconds = 1749297600) by (unfold noon, msPerDay in Hseconds; lia).
  subst seconds. rewrite Hquery. vm_compute. reflexivity.
Defined.

(** The code Google accepts: the tokens are stored. *)
Lemma authCallback_responses_witness :
  exists r s',
    @authCallback mailbox (Some "4/0AX4XfWh") fresh = (Normal r, s')
    /\ status r = 200%nat
    /\ tokenStorage s' = Some tokens.
Proof.
  destruct (authCallback_responses (G := mailbox) (Some "4/0AX4XfWh") fresh)
    as (r & s' & Hrun & _ & _ & Hcode).
  destruct (Hcode _ eq_refl ltac:(discriminate)) as (_ & _ & Hok).
  destruct (Hok tokens eq_refl) as (Hr & Hstored & _).
  exists r, s'. split; [exact Hrun|]. split; [now rewrite Hr | exact Hstored].
Defined.

(** One deadline beyond the range of Date among three emails: the request
    fails as a whole. *)
Lemma getTasks_responses_witness :
  exists r s',
    @getTasks farDeadline mailbox loggedIn = (Normal r, s')
    /\ r = {| status := 500; body := ErrorJson "Failed to fetch tasks" |}.
Proof.
  destruct (getTasks_responses (E := farDeadline) (G := mailbox) loggedIn)
    as (r & s' & Hrun & _ & _ & Htoken).
  destruct (Htoken tokens eq_refl) as (_ & _ & Hfetched).
  destruct (Hfetched _ _ mailbox_fetch) as [Hthrow _].
  exists r, s'. split; [exact Hrun|].
  apply (Hthrow (RangeError "Invalid time value") {| ticks := 5; calls := 2 |}).
  vm_compute. reflexivity.
Defined.

(** A callback with a code Google refuses does not log out. *)
Lemma token_is_never_cleared_witness :
  tokenStorage (snd (@authCallback mailbox (Some "expired") loggedIn)) = Some tokens.
Proof.
  destruct (token_is_never_cleared (E := farDeadline) (G := mailbox)
              (Some "expired") loggedIn tokens eq_refl)
    as ((tok' & Hstored & Hsame) & _).
  rewrite Hstored. f_equal. apply Hsame. vm_compute. discriminate.
Defined.

Lemma checkEnvironment_cases_witness : checkEnvironment emptyKey <> None.
Proof.
  intros Hnone.
  apply (proj1 (proj1 (checkEnvironment_cases emptyKey))) with (v := "GEMINI_API_KEY")
    in Hnone as (value & Hvalue & Hne).
  - vm_compute in Hvalue. injection Hvalue as <-. now apply Hne.
  - unfold requiredEnvVars. cbn [In]. auto.
Defined.

End MoreInstances.
